(** * Two-step Nose-Hoover NPT integration on the GPU (TwoStepNPTGPU.cu)

    A shallow embedding of the CUDA kernels and kernel drivers of
    [src/cuda/TwoStepNPTGPU.cu] and the properties of its specification.

    Conventions of the embedding.
    - [float] is read as a real number: every arithmetic expression of the
      source is kept with its operators and its parenthesisation, and evaluated
      exactly (rounding, infinities and NaN are abstracted).
    - [unsigned int] and [int] are integers of [Z] with the 32-bit conversions
      written out ([uint], [int]).
    - Device arrays are lists.  A load or store through a pointer outside the
      array is a fault ([None]); a texture fetch outside the bound range
      returns zero, as [tex1Dfetch] does.
    - A kernel is a function of the block index, the block dimension and the
      thread index; a launch runs it for every worker of the grid. *)

From Stdlib Require Import ZArith List Reals Lra Lia.
From stdpp Require Import base list.

Local Open Scope Z_scope.

(** ** Machine integers *)

(** Conversion to [unsigned int]. *)
Definition uint (n : Z) : Z := n mod 2 ^ 32.

(** Conversion to [int] (two's complement). *)
Definition int (n : Z) : Z := (n + 2 ^ 31) mod 2 ^ 32 - 2 ^ 31.

(** [a + b] on [int]. *)
Definition int_add (a b : Z) : Z := int (a + b).

(** [blockIdx.x * blockDim.x + threadIdx.x], an [unsigned int] expression
    stored in an [int]. *)
Definition global_index (blockIdx blockDim threadIdx : Z) : Z :=
  int (uint (blockIdx * blockDim + threadIdx)).

(** ** Scalars *)

(** [rintf]: the nearest integer, a tie going to the even neighbour. *)
Definition rint_Z (r : R) : Z :=
  let n := Int_part r in
  if Rlt_dec (frac_part r) (1 / 2) then n
  else if Rlt_dec (1 / 2) (frac_part r) then n + 1
  else if Z.even n then n else n + 1.

Definition rintf (r : R) : R := IZR (rint_Z r).

(** [(int) f]: truncation toward zero, saturating at the ends of [int] as the
    device conversion does. *)
Definition float2int (r : R) : Z :=
  let t := if Rle_dec 0 r then Int_part r else (- Int_part (- r))%Z in
  Z.max (- 2 ^ 31) (Z.min (2 ^ 31 - 1) t).

(** ** Vector types *)

Module float4.
Record t : Type := mk { x : R; y : R; z : R; w : R }.
Definition zero : t := mk 0 0 0 0.
End float4.

Module int4.
Record t : Type := mk { x : Z; y : Z; z : Z; w : Z }.
Definition zero : t := mk 0 0 0 0.
End int4.

(** ** Particle data and box *)

Module pd.
(** Modelled from the spec: the declaration of [gpu_pdata_arrays]
    (ParticleData.cuh) is missing.  The particle record of the spec, with
    the fields this file uses and the element types of its textures:
    position and velocity (three scalars and a fourth slot), acceleration,
    mass, image counters, the number [N] of particles the arrays hold and
    the number [local_num] of particles processed, both [unsigned int]. *)
Record gpu_pdata_arrays : Type := mk {
  N : Z;
  local_num : Z;
  pos : list float4.t;
  vel : list float4.t;
  accel : list float4.t;
  mass : list R;
  image : list int4.t
}.
Definition set_pos (v : list float4.t) (p : gpu_pdata_arrays) :=
  mk (N p) (local_num p) v (vel p) (accel p) (mass p) (image p).
Definition set_vel (v : list float4.t) (p : gpu_pdata_arrays) :=
  mk (N p) (local_num p) (pos p) v (accel p) (mass p) (image p).
Definition set_accel (v : list float4.t) (p : gpu_pdata_arrays) :=
  mk (N p) (local_num p) (pos p) (vel p) v (mass p) (image p).
Definition set_image (v : list int4.t) (p : gpu_pdata_arrays) :=
  mk (N p) (local_num p) (pos p) (vel p) (accel p) (mass p) v.
End pd.

(** Modelled from the spec: the declaration of [gpu_boxsize] is missing.
    The box of the spec: three edge lengths and their reciprocals. *)
Record gpu_boxsize : Type := mk_box {
  Lx : R; Ly : R; Lz : R;
  Lxinv : R; Lyinv : R; Lzinv : R
}.

(** ** Device memory accesses *)

(** [arr[i]] read through a pointer. *)
Definition load {A : Type} (arr : list A) (i : Z) : option A :=
  if i <? 0 then None else arr !! Z.to_nat i.

(** [arr[i] = v] through a pointer. *)
Definition store {A : Type} (arr : list A) (i : Z) (v : A) : option (list A) :=
  if (0 <=? i) && (i <? Z.of_nat (length arr))
  then Some (<[Z.to_nat i := v]> arr) else None.

(** [tex1Dfetch(tex, i)] on a texture bound to linear memory. *)
Definition tex1Dfetch {A : Type} (zero : A) (tex : list A) (i : Z) : A :=
  if i <? 0 then zero else default zero (tex !! Z.to_nat i).

(** The texture references of the file, as the kernels see them during a
    launch: the contents of the memory each one is bound to. *)
Record textures : Type := mk_textures {
  pdata_pos_tex : list float4.t;
  pdata_vel_tex : list float4.t;
  pdata_accel_tex : list float4.t;
  pdata_mass_tex : list R;
  pdata_image_tex : list int4.t;
  net_force_tex : list float4.t
}.

(** ** Grids of workers *)

(** The workers of a launch [<<< grid, threads >>>], block by block. *)
Definition workers (grid threads : Z) : list (Z * Z) :=
  flat_map (fun b => map (fun t => (b, t)) (seqZ 0 threads)) (seqZ 0 grid).

(** Runs the workers one after the other; a fault stops the launch. *)
Fixpoint run_workers {W St : Type} (k : W -> St -> option St)
    (ws : list W) (st : St) : option St :=
  match ws with
  | [] => Some st
  | w :: ws' =>
      match k w st with
      | Some st' => run_workers k ws' st'
      | None => None
      end
  end.

Definition run_grid {St : Type} (kernel : Z -> Z -> Z -> St -> option St)
    (grid threads : Z) (st : St) : option St :=
  run_workers (fun w => kernel (fst w) threads (snd w)) (workers grid threads) st.

(** ** Kernels *)

Section Kernels.
Local Open Scope R_scope.

(** [gpu_npt_step_one_kernel]: one worker. *)
Definition gpu_npt_step_one_kernel (tex : textures)
    (d_group_members : list Z) (group_size : Z)
    (exp_v_fac exp_r_fac deltaT : R)
    (blockIdx blockDim threadIdx : Z)
    (pdata : pd.gpu_pdata_arrays) : option pd.gpu_pdata_arrays :=
  let group_idx := global_index blockIdx blockDim threadIdx in
  let exp_r_fac_inv := 1 / exp_r_fac in
  if (uint group_idx <? group_size)%Z then
    match load d_group_members group_idx with
    | None => None
    | Some idx =>
        let pos := tex1Dfetch float4.zero (pdata_pos_tex tex) (int idx) in
        let px := float4.x pos in
        let py := float4.y pos in
        let pz := float4.z pos in
        let pw := float4.w pos in
        let vel := tex1Dfetch float4.zero (pdata_vel_tex tex) (int idx) in
        let accel := tex1Dfetch float4.zero (pdata_accel_tex tex) (int idx) in
        let vel_x := float4.x vel * exp_v_fac * exp_v_fac
                     + (1 / 2) * deltaT * exp_v_fac * float4.x accel in
        let px := px + vel_x * exp_r_fac_inv * deltaT in
        let vel_y := float4.y vel * exp_v_fac * exp_v_fac
                     + (1 / 2) * deltaT * exp_v_fac * float4.y accel in
        let py := py + vel_y * exp_r_fac_inv * deltaT in
        let vel_z := float4.z vel * exp_v_fac * exp_v_fac
                     + (1 / 2) * deltaT * exp_v_fac * float4.z accel in
        let pz := pz + vel_z * exp_r_fac_inv * deltaT in
        let pos2 := float4.mk px py pz pw in
        let vel := float4.mk vel_x vel_y vel_z (float4.w vel) in
        match store (pd.pos pdata) idx pos2 with
        | None => None
        | Some pos' =>
            match store (pd.vel pdata) idx vel with
            | None => None
            | Some vel' => Some (pd.set_vel vel' (pd.set_pos pos' pdata))
            end
        end
    end
  else Some pdata.

(** [gpu_npt_boxscale_kernel]: one worker. *)
Definition gpu_npt_boxscale_kernel (tex : textures)
    (box : gpu_boxsize) (box_len_scale : R)
    (blockIdx blockDim threadIdx : Z)
    (pdata : pd.gpu_pdata_arrays) : option pd.gpu_pdata_arrays :=
  let idx := global_index blockIdx blockDim threadIdx in
  if (uint idx <? pd.local_num pdata)%Z then
    let pos := tex1Dfetch float4.zero (pdata_pos_tex tex) idx in
    let px := float4.x pos * box_len_scale in
    let py := float4.y pos * box_len_scale in
    let pz := float4.z pos * box_len_scale in
    let pw := float4.w pos * box_len_scale in
    let image := tex1Dfetch int4.zero (pdata_image_tex tex) idx in
    let x_shift := rintf (px * Lxinv box) in
    let px := px - Lx box * x_shift in
    let image_x := int_add (int4.x image) (float2int x_shift) in
    let y_shift := rintf (py * Lyinv box) in
    let py := py - Ly box * y_shift in
    let image_y := int_add (int4.y image) (float2int y_shift) in
    let z_shift := rintf (pz * Lzinv box) in
    let pz := pz - Lz box * z_shift in
    let image_z := int_add (int4.z image) (float2int z_shift) in
    let pos2 := float4.mk px py pz pw in
    let image := int4.mk image_x image_y image_z (int4.w image) in
    match store (pd.pos pdata) idx pos2 with
    | None => None
    | Some pos' =>
        match store (pd.image pdata) idx image with
        | None => None
        | Some image' => Some (pd.set_image image' (pd.set_pos pos' pdata))
        end
    end
  else Some pdata.

(** [gpu_npt_step_two_kernel]: one worker. *)
Definition gpu_npt_step_two_kernel (tex : textures)
    (d_group_members : list Z) (group_size : Z)
    (exp_v_fac deltaT : R)
    (blockIdx blockDim threadIdx : Z)
    (pdata : pd.gpu_pdata_arrays) : option pd.gpu_pdata_arrays :=
  let group_idx := global_index blockIdx blockDim threadIdx in
  if (uint group_idx <? group_size)%Z then
    match load d_group_members group_idx with
    | None => None
    | Some idx =>
        let accel := tex1Dfetch float4.zero (net_force_tex tex) (int idx) in
        let mass := tex1Dfetch 0 (pdata_mass_tex tex) (int idx) in
        let accel_x := float4.x accel / mass in
        let accel_y := float4.y accel / mass in
        let accel_z := float4.z accel / mass in
        let vel := tex1Dfetch float4.zero (pdata_vel_tex tex) (int idx) in
        let vel_x := float4.x vel * exp_v_fac * exp_v_fac
                     + (1 / 2) * deltaT * exp_v_fac * accel_x in
        let vel_y := float4.y vel * exp_v_fac * exp_v_fac
                     + (1 / 2) * deltaT * exp_v_fac * accel_y in
        let vel_z := float4.z vel * exp_v_fac * exp_v_fac
                     + (1 / 2) * deltaT * exp_v_fac * accel_z in
        let vel := float4.mk vel_x vel_y vel_z (float4.w vel) in
        let accel := float4.mk accel_x accel_y accel_z (float4.w accel) in
        match store (pd.vel pdata) idx vel with
        | None => None
        | Some vel' =>
            match store (pd.accel pdata) idx accel with
            | None => None
            | Some accel' => Some (pd.set_accel accel' (pd.set_vel vel' pdata))
            end
        end
    end
  else Some pdata.

(** A variant of [gpu_npt_step_two_kernel] in which the three divisions by
    the mass are guarded: a zero mass is an error ([None]) instead of a
    division. *)
Definition checked_div (a m : R) : option R :=
  if Req_dec_T m 0 then None else Some (a / m).

Definition gpu_npt_step_two_kernel_guarded (tex : textures)
    (d_group_members : list Z) (group_size : Z)
    (exp_v_fac deltaT : R)
    (blockIdx blockDim threadIdx : Z)
    (pdata : pd.gpu_pdata_arrays) : option pd.gpu_pdata_arrays :=
  let group_idx := global_index blockIdx blockDim threadIdx in
  if (uint group_idx <? group_size)%Z then
    match load d_group_members group_idx with
    | None => None
    | Some idx =>
        let accel := tex1Dfetch float4.zero (net_force_tex tex) (int idx) in
        let mass := tex1Dfetch 0 (pdata_mass_tex tex) (int idx) in
        match checked_div (float4.x accel) mass,
              checked_div (float4.y accel) mass,
              checked_div (float4.z accel) mass with
        | Some accel_x, Some accel_y, Some accel_z =>
            let vel := tex1Dfetch float4.zero (pdata_vel_tex tex) (int idx) in
            let vel_x := float4.x vel * exp_v_fac * exp_v_fac
                         + (1 / 2) * deltaT * exp_v_fac * accel_x in
            let vel_y := float4.y vel * exp_v_fac * exp_v_fac
                         + (1 / 2) * deltaT * exp_v_fac * accel_y in
            let vel_z := float4.z vel * exp_v_fac * exp_v_fac
                         + (1 / 2) * deltaT * exp_v_fac * accel_z in
            let vel := float4.mk vel_x vel_y vel_z (float4.w vel) in
            let accel := float4.mk accel_x accel_y accel_z (float4.w accel) in
            match store (pd.vel pdata) idx vel with
            | None => None
            | Some vel' =>
                match store (pd.accel pdata) idx accel with
                | None => None
                | Some accel' =>
                    Some (pd.set_accel accel' (pd.set_vel vel' pdata))
                end
            end
        | _, _, _ => None
        end
    end
  else Some pdata.

(** *** Block reductions

    The reduction kernels synchronise the threads of a block with
    [__syncthreads()].  A block is run phase by phase: between two barriers
    every thread of the block executes its statements, thread after
    thread. *)

(** [npt_sdata[i]] and [npt_sdata[i] = v] in the scratch buffer of a block. *)
Definition shared_get (npt_sdata : list R) (i : Z) : R :=
  default 0 (npt_sdata !! Z.to_nat i).
Definition shared_set (npt_sdata : list R) (i : Z) (v : R) : list R :=
  <[Z.to_nat i := v]> npt_sdata.

(** A phase without faults. *)
Definition block_phase {St : Type} (stmt : Z -> St -> St) (blockDim : Z)
    (st : St) : St :=
  fold_left (fun s threadIdx => stmt threadIdx s) (seqZ 0 blockDim) st.

(** [if (threadIdx.x < offs) npt_sdata[threadIdx.x] += npt_sdata[threadIdx.x + offs];] *)
Definition reduce_thread (offs threadIdx : Z) (npt_sdata : list R) : list R :=
  if (threadIdx <? offs)%Z
  then shared_set npt_sdata threadIdx
         (shared_get npt_sdata threadIdx + shared_get npt_sdata (threadIdx + offs)%Z)
  else npt_sdata.

(** [while (offs > 0) { ...; offs >>= 1; __syncthreads(); }], by recursion
    on the binary digits of [offs]. *)
Fixpoint reduce_loop_pos (blockDim : Z) (offs : positive) (npt_sdata : list R)
    : list R :=
  let npt_sdata' := block_phase (reduce_thread (Zpos offs)) blockDim npt_sdata in
  match offs with
  | xH => npt_sdata'
  | xO offs' | xI offs' => reduce_loop_pos blockDim offs' npt_sdata'
  end.

Definition reduce_loop (blockDim offs : Z) (npt_sdata : list R) : list R :=
  match offs with
  | Zpos p => reduce_loop_pos blockDim p npt_sdata
  | _ => npt_sdata
  end.

(** Loading phase: every thread stores its contribution [npt_sdata[threadIdx.x] = c]. *)
Definition load_phase (contribution : Z -> option R) (blockDim : Z)
    (npt_sdata : list R) : option (list R) :=
  run_workers
    (fun threadIdx s =>
       match contribution threadIdx with
       | Some c => Some (shared_set s threadIdx c)
       | None => None
       end)
    (seqZ 0 blockDim) npt_sdata.

(** Writing phase: [if (threadIdx.x == 0) d_partial_sum[blockIdx.x] = npt_sdata[0];] *)
Definition write_phase (blockIdx blockDim : Z) (npt_sdata : list R)
    (d_partial_sum : list R) : option (list R) :=
  run_workers
    (fun threadIdx out =>
       if (threadIdx =? 0)%Z
       then store out blockIdx (shared_get npt_sdata 0)
       else Some out)
    (seqZ 0 blockDim) d_partial_sum.

(** One pass: load, reduce, write.  Returns the scratch buffer too, which
    the next pass of the same block reuses. *)
Definition reduction_pass (contribution : Z -> option R)
    (blockIdx blockDim : Z) (npt_sdata : list R) (d_partial_sum : list R)
    : option (list R * list R) :=
  match load_phase contribution blockDim npt_sdata with
  | None => None
  | Some s1 =>
      let offs := Z.shiftr blockDim 1 in
      let s2 := reduce_loop blockDim offs s1 in
      match write_phase blockIdx blockDim s2 d_partial_sum with
      | None => None
      | Some out => Some (s2, out)
      end
  end.

(** The value [psq2] a thread of [gpu_npt_group_temperature_kernel] loads. *)
Definition group_temperature_psq2 (tex : textures)
    (d_group_members : list Z) (group_size : Z)
    (blockIdx blockDim threadIdx : Z) : option R :=
  let group_idx := global_index blockIdx blockDim threadIdx in
  if (uint group_idx <? group_size)%Z then
    match load d_group_members group_idx with
    | None => None
    | Some idx =>
        let vel := tex1Dfetch float4.zero (pdata_vel_tex tex) (int idx) in
        let mass := tex1Dfetch 0 (pdata_mass_tex tex) (int idx) in
        Some (mass * (float4.x vel * float4.x vel + float4.y vel * float4.y vel
                      + float4.z vel * float4.z vel))
    end
  else Some 0.

(** [gpu_npt_group_temperature_kernel]: one block, from the initial contents
    [npt_sdata] of its scratch buffer. *)
Definition gpu_npt_group_temperature_kernel (tex : textures)
    (d_group_members : list Z) (group_size : Z)
    (blockIdx blockDim : Z) (npt_sdata : list R)
    (d_partial_sum2K : list R) : option (list R) :=
  match reduction_pass
          (group_temperature_psq2 tex d_group_members group_size blockIdx blockDim)
          blockIdx blockDim npt_sdata d_partial_sum2K with
  | None => None
  | Some (_, out) => Some out
  end.

(** The values [virial] and [psq2] a thread of [gpu_npt_pressure_kernel2]
    loads. *)
Definition pressure_virial (pdata : pd.gpu_pdata_arrays) (d_net_virial : list R)
    (blockIdx blockDim threadIdx : Z) : option R :=
  let idx := global_index blockIdx blockDim threadIdx in
  if (uint idx <? pd.local_num pdata)%Z then load d_net_virial idx else Some 0.

Definition pressure_psq2 (pdata : pd.gpu_pdata_arrays)
    (blockIdx blockDim threadIdx : Z) : option R :=
  let idx := global_index blockIdx blockDim threadIdx in
  if (uint idx <? pd.local_num pdata)%Z then
    match load (pd.vel pdata) idx, load (pd.mass pdata) idx with
    | Some vel, Some mass =>
        Some (mass * (float4.x vel * float4.x vel + float4.y vel * float4.y vel
                      + float4.z vel * float4.z vel))
    | _, _ => None
    end
  else Some 0.

(** [gpu_npt_pressure_kernel2]: one block; the virial pass, then the 2K pass
    over the same scratch buffer.  Returns [(d_partial_sum2K, d_partial_sumW)]. *)
Definition gpu_npt_pressure_kernel2 (pdata : pd.gpu_pdata_arrays)
    (d_net_virial : list R) (blockIdx blockDim : Z) (npt_sdata : list R)
    (out : list R * list R) : option (list R * list R) :=
  let '(d_partial_sum2K, d_partial_sumW) := out in
  match reduction_pass (pressure_virial pdata d_net_virial blockIdx blockDim)
          blockIdx blockDim npt_sdata d_partial_sumW with
  | None => None
  | Some (s, d_partial_sumW') =>
      match reduction_pass (pressure_psq2 pdata blockIdx blockDim)
              blockIdx blockDim s d_partial_sum2K with
      | None => None
      | Some (_, d_partial_sum2K') => Some (d_partial_sum2K', d_partial_sumW')
      end
  end.

End Kernels.

(** Runs a kernel written block by block over the blocks of the grid;
    [scratch b] is the initial contents of the scratch buffer of block [b]. *)
Definition run_blocks {St : Type} (kernel : Z -> Z -> list R -> St -> option St)
    (scratch : Z -> list R) (grid threads : Z) (st : St) : option St :=
  run_workers (fun b => kernel b threads (scratch b)) (seqZ 0 grid) st.

(** ** The CUDA runtime

    The runtime calls of the drivers act on the state of the device.  What the
    runtime itself decides (whether a binding or a launch configuration is
    accepted, what a scratch buffer holds before a block runs) is given by a
    [cuda_runtime]. *)

Inductive cudaError_t : Type :=
  | cudaSuccess
  | cudaError (code : positive).

Definition cudaErrorLaunchFailure : cudaError_t := cudaError 4.
Definition cudaErrorInvalidConfiguration : cudaError_t := cudaError 9.

Definition is_success (e : cudaError_t) : bool :=
  match e with cudaSuccess => true | cudaError _ => false end.

Inductive texture_ref : Type :=
  | ref_pdata_pos_tex | ref_pdata_vel_tex | ref_pdata_accel_tex
  | ref_pdata_mass_tex | ref_pdata_image_tex | ref_net_force_tex.

Definition texture_ref_eqb (a b : texture_ref) : bool :=
  match a, b with
  | ref_pdata_pos_tex, ref_pdata_pos_tex
  | ref_pdata_vel_tex, ref_pdata_vel_tex
  | ref_pdata_accel_tex, ref_pdata_accel_tex
  | ref_pdata_mass_tex, ref_pdata_mass_tex
  | ref_pdata_image_tex, ref_pdata_image_tex
  | ref_net_force_tex, ref_net_force_tex => true
  | _, _ => false
  end.

Inductive kernel_name : Type :=
  | step_one_kernel | boxscale_kernel | step_two_kernel
  | group_temperature_kernel | pressure_kernel2.

Inductive event : Type :=
  | EvBindTexture (t : texture_ref)
  | EvLaunch (k : kernel_name) (grid threads : Z)
  | EvThreadSynchronize
  | EvGetLastError.

Record cuda_runtime : Type := mk_runtime {
  (** the status [cudaBindTexture] returns for a reference *)
  bind_result : texture_ref -> cudaError_t;
  (** the status of the configuration of a launch [<<< grid, threads >>>] *)
  launch_result : kernel_name -> Z -> Z -> cudaError_t;
  (** the float a slot of the scratch buffer of a block holds at first *)
  scratch_init : Z -> Z -> R
}.

(** The arrays the pointer arguments of the drivers point to. *)
Record device_memory : Type := mk_memory {
  pdata : pd.gpu_pdata_arrays;
  d_group_members : list Z;
  d_net_force : list float4.t;
  d_net_virial : list R;
  d_partial_sum2K : list R;
  d_partial_sumW : list R
}.

Definition set_pdata (p : pd.gpu_pdata_arrays) (m : device_memory) :=
  mk_memory p (d_group_members m) (d_net_force m) (d_net_virial m)
            (d_partial_sum2K m) (d_partial_sumW m).
Definition set_partial_sum2K (v : list R) (m : device_memory) :=
  mk_memory (pdata m) (d_group_members m) (d_net_force m) (d_net_virial m)
            v (d_partial_sumW m).
Definition set_partial_sumW (v : list R) (m : device_memory) :=
  mk_memory (pdata m) (d_group_members m) (d_net_force m) (d_net_virial m)
            (d_partial_sum2K m) v.

(** The device: its memory, the size (in elements) each texture reference is
    bound with, the last error of the runtime, the fault of a kernel (not
    reported before a synchronisation, and sticky once it has occurred), and
    the runtime calls made so far.  Every driver binds a reference to the
    same array, so a binding is recorded by its size alone. *)
Record device : Type := mk_device {
  mem : device_memory;
  bound : texture_ref -> option Z;
  last_error : cudaError_t;
  pending_fault : cudaError_t;
  trace : list event
}.

Definition view {A : Type} (arr : list A) (b : option Z) : list A :=
  match b with
  | Some n => take (Z.to_nat n) arr
  | None => []
  end.

(** What the kernels of a launch read through the texture references: the
    bound part of each array, as it is when the kernel is launched. *)
Definition views (d : device) : textures :=
  let m := mem d in
  mk_textures
    (view (pd.pos (pdata m)) (bound d ref_pdata_pos_tex))
    (view (pd.vel (pdata m)) (bound d ref_pdata_vel_tex))
    (view (pd.accel (pdata m)) (bound d ref_pdata_accel_tex))
    (view (pd.mass (pdata m)) (bound d ref_pdata_mass_tex))
    (view (pd.image (pdata m)) (bound d ref_pdata_image_tex))
    (view (d_net_force m) (bound d ref_net_force_tex)).

(** The state monad of the drivers. *)
Definition M (A : Type) : Type := device -> A * device.
Definition ret {A : Type} (a : A) : M A := fun d => (a, d).
Definition bind {A B : Type} (c : M A) (k : A -> M B) : M B :=
  fun d => let '(a, d') := c d in k a d'.

Declare Scope cuda_scope.
Delimit Scope cuda_scope with cuda.
Notation "'let*' x ':=' c 'in' k" := (bind c (fun x => k))
  (at level 10, x name, c at level 100, k at level 200) : cuda_scope.
Notation "'run' c 'in' k" := (bind c (fun _ => k))
  (at level 10, c at level 100, k at level 200) : cuda_scope.

Definition log (e : event) (d : device) : device :=
  mk_device (mem d) (bound d) (last_error d) (pending_fault d) (trace d ++ [e]).

Definition get_pdata : M pd.gpu_pdata_arrays := fun d => (pdata (mem d), d).

Section Runtime.
Variable rt : cuda_runtime.

(** [cudaBindTexture(0, t, ptr, size)], [n] the size in elements. *)
Definition cudaBindTexture (t : texture_ref) (n : Z) : M cudaError_t :=
  fun d =>
    let d := log (EvBindTexture t) d in
    match bind_result rt t with
    | cudaSuccess =>
        (cudaSuccess,
         mk_device (mem d)
           (fun r => if texture_ref_eqb r t then Some n else bound d r)
           (last_error d) (pending_fault d) (trace d))
    | e =>
        (e, mk_device (mem d) (bound d) e (pending_fault d) (trace d))
    end.

(** [kernel <<< grid, threads >>> (...)]: a rejected configuration is
    recorded as the last error and nothing runs; otherwise the kernel runs,
    and a fault in it stays pending. *)
Definition cudaLaunch (k : kernel_name) (grid threads : Z)
    (body : textures -> device_memory -> option device_memory) : M unit :=
  fun d =>
    let d := log (EvLaunch k grid threads) d in
    match launch_result rt k grid threads with
    | cudaSuccess =>
        match body (views d) (mem d) with
        | Some m' =>
            (tt, mk_device m' (bound d) (last_error d) (pending_fault d) (trace d))
        | None =>
            (tt, mk_device (mem d) (bound d) (last_error d)
                   cudaErrorLaunchFailure (trace d))
        end
    | e => (tt, mk_device (mem d) (bound d) e (pending_fault d) (trace d))
    end.

(** [cudaThreadSynchronize()]: waits for the kernels; the fault of a kernel
    is the status of the call and becomes the last error.  A launch failure
    is sticky: the fault is not cleared, every later synchronisation reports
    it again. *)
Definition cudaThreadSynchronize : M cudaError_t :=
  fun d =>
    let d := log EvThreadSynchronize d in
    match pending_fault d with
    | cudaSuccess => (cudaSuccess, d)
    | e => (e, mk_device (mem d) (bound d) e (pending_fault d) (trace d))
    end.

(** [cudaGetLastError()]: returns the last error and resets it. *)
Definition cudaGetLastError : M cudaError_t :=
  fun d =>
    let d := log EvGetLastError d in
    (last_error d,
     mk_device (mem d) (bound d) cudaSuccess (pending_fault d) (trace d)).

(** The scratch buffer of [threads] floats of a block before it runs. *)
Definition scratch (threads : Z) (blockIdx : Z) : list R :=
  map (scratch_init rt blockIdx) (seqZ 0 threads).

End Runtime.

(** ** Kernel drivers *)

(** The grid of [gpu_npt_boxscale]: [(pdata.local_num / block_size) + 1], an
    [unsigned int] expression. *)
Definition boxscale_grid (local_num block_size : Z) : Z :=
  uint (local_num / block_size + 1).

Section Drivers.
Variable rt : cuda_runtime.
(** The process-wide flag [g_gpu_error_checking], declared in
    [gpu_settings.h] (missing): the checked-execution mode of the spec. *)
Variable g_gpu_error_checking : bool.

Local Open Scope cuda_scope.
Local Open Scope R_scope.

(** The epilogue shared by the drivers:
    [if (!g_gpu_error_checking) return cudaSuccess;
     else { cudaThreadSynchronize(); return cudaGetLastError(); }] *)
Definition driver_epilogue : M cudaError_t :=
  if negb g_gpu_error_checking then ret cudaSuccess
  else (run cudaThreadSynchronize in cudaGetLastError).

Definition on_pdata (f : pd.gpu_pdata_arrays -> option pd.gpu_pdata_arrays)
    (m : device_memory) : option device_memory :=
  match f (pdata m) with
  | Some p => Some (set_pdata p m)
  | None => None
  end.

(** [gpu_npt_step_one] *)
Definition gpu_npt_step_one (group_size block_size num_blocks : Z)
    (Xi Eta deltaT : R) : M cudaError_t :=
  let grid := num_blocks in
  let threads := block_size in
  let* pdata := get_pdata in
  let* error := cudaBindTexture rt ref_pdata_pos_tex (pd.N pdata) in
  if negb (is_success error) then ret error else
  let* error := cudaBindTexture rt ref_pdata_vel_tex (pd.N pdata) in
  if negb (is_success error) then ret error else
  let* error := cudaBindTexture rt ref_pdata_accel_tex (pd.N pdata) in
  if negb (is_success error) then ret error else
  let exp_v_fac := exp (-1 / 4 * (Eta + Xi) * deltaT) in
  let exp_r_fac := exp (1 / 2 * Eta * deltaT) in
  run cudaLaunch rt step_one_kernel grid threads
        (fun tex m =>
           on_pdata
             (run_grid
                (gpu_npt_step_one_kernel tex (d_group_members m) group_size
                   exp_v_fac exp_r_fac deltaT)
                grid threads) m) in
  driver_epilogue.

(** [gpu_npt_boxscale] *)
Definition gpu_npt_boxscale (box : gpu_boxsize) (block_size : Z)
    (Eta deltaT : R) : M cudaError_t :=
  let* pdata := get_pdata in
  let grid := boxscale_grid (pd.local_num pdata) block_size in
  let threads := block_size in
  let box_len_scale := exp (Eta * deltaT) in
  let scaled_box_Lx := Lx box * box_len_scale in
  let scaled_box_Ly := Ly box * box_len_scale in
  let scaled_box_Lz := Lz box * box_len_scale in
  let scaled_box :=
    mk_box scaled_box_Lx scaled_box_Ly scaled_box_Lz
           (1 / scaled_box_Lx) (1 / scaled_box_Ly) (1 / scaled_box_Lz) in
  let* error := cudaBindTexture rt ref_pdata_pos_tex (pd.N pdata) in
  if negb (is_success error) then ret error else
  let* error := cudaBindTexture rt ref_pdata_image_tex (pd.N pdata) in
  if negb (is_success error) then ret error else
  run cudaLaunch rt boxscale_kernel grid threads
        (fun tex m =>
           on_pdata
             (run_grid (gpu_npt_boxscale_kernel tex scaled_box box_len_scale)
                grid threads) m) in
  driver_epilogue.

(** [gpu_npt_step_two] *)
Definition gpu_npt_step_two (group_size block_size num_blocks : Z)
    (Xi Eta deltaT : R) : M cudaError_t :=
  let grid := num_blocks in
  let threads := block_size in
  let exp_v_fac := exp (-1 / 4 * (Eta + Xi) * deltaT) in
  let* pdata := get_pdata in
  let* error := cudaBindTexture rt ref_pdata_vel_tex (pd.N pdata) in
  if negb (is_success error) then ret error else
  let* error := cudaBindTexture rt ref_pdata_mass_tex (pd.N pdata) in
  if negb (is_success error) then ret error else
  let* error := cudaBindTexture rt ref_net_force_tex (pd.N pdata) in
  if negb (is_success error) then ret error else
  run cudaLaunch rt step_two_kernel grid threads
        (fun tex m =>
           on_pdata
             (run_grid
                (gpu_npt_step_two_kernel tex (d_group_members m) group_size
                   exp_v_fac deltaT)
                grid threads) m) in
  driver_epilogue.

(** [gpu_npt_group_temperature] *)
Definition gpu_npt_group_temperature (group_size block_size num_blocks : Z)
    : M cudaError_t :=
  let grid := num_blocks in
  let threads := block_size in
  let* pdata := get_pdata in
  let* error := cudaBindTexture rt ref_pdata_vel_tex (pd.N pdata) in
  if negb (is_success error) then ret error else
  let* error := cudaBindTexture rt ref_pdata_mass_tex (pd.N pdata) in
  if negb (is_success error) then ret error else
  run cudaLaunch rt group_temperature_kernel grid threads
        (fun tex m =>
           match run_blocks
                   (gpu_npt_group_temperature_kernel tex (d_group_members m)
                      group_size)
                   (scratch rt block_size) grid threads (d_partial_sum2K m) with
           | Some out => Some (set_partial_sum2K out m)
           | None => None
           end) in
  driver_epilogue.

(** [gpu_npt_pressure2] *)
Definition gpu_npt_pressure2 (block_size num_blocks : Z) : M cudaError_t :=
  let grid := num_blocks in
  let threads := block_size in
  run cudaLaunch rt pressure_kernel2 grid threads
        (fun tex m =>
           match run_blocks
                   (gpu_npt_pressure_kernel2 (pdata m) (d_net_virial m))
                   (scratch rt block_size) grid threads
                   (d_partial_sum2K m, d_partial_sumW m) with
           | Some (out2K, outW) =>
               Some (set_partial_sumW outW (set_partial_sum2K out2K m))
           | None => None
           end) in
  driver_epilogue.

End Drivers.

(** ** The formulas of the specification *)

Section Formulas.
Local Open Scope R_scope.

(** [velScale = exp(-(xi+eta) dt/4)], [posScale = exp(eta dt/2)] and
    [lenScale = exp(eta dt)]. *)
Definition velScale (xi eta dt : R) : R := exp (- (xi + eta) * dt / 4).
Definition posScale (eta dt : R) : R := exp (eta * dt / 2).
Definition lenScale (eta dt : R) : R := exp (eta * dt).

(** [v' = v velScale^2 + 1/2 dt velScale a] *)
Definition half_kick (vs dt v a : R) : R := v * vs ^ 2 + 1 / 2 * dt * vs * a.

(** [p' = p + v' dt / posScale] *)
Definition drift (ps dt p v' : R) : R := p + v' * dt / ps.

Definition half_kick4 (vs dt : R) (v a : float4.t) : float4.t :=
  float4.mk (half_kick vs dt (float4.x v) (float4.x a))
            (half_kick vs dt (float4.y v) (float4.y a))
            (half_kick vs dt (float4.z v) (float4.z a))
            (float4.w v).

Definition drift4 (ps dt : R) (p v' : float4.t) : float4.t :=
  float4.mk (drift ps dt (float4.x p) (float4.x v'))
            (drift ps dt (float4.y p) (float4.y v'))
            (drift ps dt (float4.z p) (float4.z v'))
            (float4.w p).

(** [a = netForce / mass], component by component; the fourth slot is the
    fourth slot of the net force. *)
Definition force_over_mass (f : float4.t) (m : R) : float4.t :=
  float4.mk (float4.x f / m) (float4.y f / m) (float4.z f / m) (float4.w f).

(** One axis of the periodic wrap: the scaled coordinate, the number of box
    lengths [shift = rint(p (1/L))], the wrapped coordinate and the image. *)
Definition wrap_shift (L p : R) : R := rintf (p * (1 / L)).
Definition wrap_coord (L p : R) : R := p - L * wrap_shift L p.
Definition wrap_image (L p : R) (img : Z) : Z :=
  int_add img (float2int (wrap_shift L p)).

(** The plain velocity-Verlet step of the specification: half kick, drift,
    half kick, with no scaling. *)
Definition verlet_kick (dt v a : R) : R := v + 1 / 2 * dt * a.
Definition verlet_drift (dt p v' : R) : R := p + v' * dt.

Definition verlet_kick4 (dt : R) (v a : float4.t) : float4.t :=
  float4.mk (verlet_kick dt (float4.x v) (float4.x a))
            (verlet_kick dt (float4.y v) (float4.y a))
            (verlet_kick dt (float4.z v) (float4.z a))
            (float4.w v).

Definition verlet_drift4 (dt : R) (p v' : float4.t) : float4.t :=
  float4.mk (verlet_drift dt (float4.x p) (float4.x v'))
            (verlet_drift dt (float4.y p) (float4.y v'))
            (verlet_drift dt (float4.z p) (float4.z v'))
            (float4.w p).

(** Sum of a list of floats, and [mass |velocity|^2]. *)
Definition Rsum (l : list R) : R := fold_right Rplus 0 l.

Definition two_K (m : R) (v : float4.t) : R :=
  m * (float4.x v * float4.x v + float4.y v * float4.y v
       + float4.z v * float4.z v).

End Formulas.

(** What the workers of a grid write: [target w] is the index worker [w]
    writes at, [f i] the value written at index [i]. *)
Definition scatter {A W : Type} (target : W -> option Z) (f : Z -> A)
    (ws : list W) (l : list A) : list A :=
  fold_left
    (fun l w => match target w with
                | Some i => <[Z.to_nat i := f i]> l
                | None => l
                end)
    ws l.

(** The index a worker of a group kernel writes at (the group member of its
    global index), and the index a worker of an all-particle kernel writes
    at (its global index). *)
Definition group_target (d_group_members : list Z) (group_size threads : Z)
    (w : Z * Z) : option Z :=
  let group_idx := global_index (fst w) threads (snd w) in
  if uint group_idx <? group_size then load d_group_members group_idx else None.

Definition particle_target (local_num threads : Z) (w : Z * Z) : option Z :=
  let idx := global_index (fst w) threads (snd w) in
  if uint idx <? local_num then Some idx else None.

(** The values [gpu_npt_step_one_kernel] writes at index [idx]. *)
Definition step_one_vel (tex : textures) (exp_v_fac deltaT : R) (idx : Z) : float4.t :=
  half_kick4 exp_v_fac deltaT
    (tex1Dfetch float4.zero (pdata_vel_tex tex) (int idx))
    (tex1Dfetch float4.zero (pdata_accel_tex tex) (int idx)).

Definition step_one_pos (tex : textures) (exp_v_fac exp_r_fac deltaT : R) (idx : Z)
    : float4.t :=
  drift4 exp_r_fac deltaT
    (tex1Dfetch float4.zero (pdata_pos_tex tex) (int idx))
    (step_one_vel tex exp_v_fac deltaT idx).

(** The values [gpu_npt_step_two_kernel] writes at index [idx]. *)
Definition step_two_accel (tex : textures) (idx : Z) : float4.t :=
  force_over_mass
    (tex1Dfetch float4.zero (net_force_tex tex) (int idx))
    (tex1Dfetch 0%R (pdata_mass_tex tex) (int idx)).

Definition step_two_vel (tex : textures) (exp_v_fac deltaT : R) (idx : Z) : float4.t :=
  half_kick4 exp_v_fac deltaT
    (tex1Dfetch float4.zero (pdata_vel_tex tex) (int idx))
    (step_two_accel tex idx).

(** The values [gpu_npt_boxscale_kernel] writes at index [idx]. *)
Definition boxscale_pos (tex : textures) (box : gpu_boxsize) (box_len_scale : R)
    (idx : Z) : float4.t :=
  let pos := tex1Dfetch float4.zero (pdata_pos_tex tex) idx in
  let px := (float4.x pos * box_len_scale)%R in
  let py := (float4.y pos * box_len_scale)%R in
  let pz := (float4.z pos * box_len_scale)%R in
  float4.mk (px - Lx box * rintf (px * Lxinv box))
            (py - Ly box * rintf (py * Lyinv box))
            (pz - Lz box * rintf (pz * Lzinv box))
            (float4.w pos * box_len_scale).

Definition boxscale_image (tex : textures) (box : gpu_boxsize) (box_len_scale : R)
    (idx : Z) : int4.t :=
  let pos := tex1Dfetch float4.zero (pdata_pos_tex tex) idx in
  let image := tex1Dfetch int4.zero (pdata_image_tex tex) idx in
  int4.mk
    (int_add (int4.x image) (float2int (rintf (float4.x pos * box_len_scale * Lxinv box))))
    (int_add (int4.y image) (float2int (rintf (float4.y pos * box_len_scale * Lyinv box))))
    (int_add (int4.z image) (float2int (rintf (float4.z pos * box_len_scale * Lzinv box))))
    (int4.w image).

(** The effect of one worker of each per-particle kernel when no access
    faults. *)
Definition step_one_write (tex : textures) (gm : list Z) (group_size : Z)
    (exp_v_fac exp_r_fac deltaT : R) (threads : Z)
    (w : Z * Z) (p : pd.gpu_pdata_arrays) : pd.gpu_pdata_arrays :=
  match group_target gm group_size threads w with
  | Some i =>
      pd.set_vel (<[Z.to_nat i := step_one_vel tex exp_v_fac deltaT i]> (pd.vel p))
        (pd.set_pos
           (<[Z.to_nat i := step_one_pos tex exp_v_fac exp_r_fac deltaT i]> (pd.pos p))
           p)
  | None => p
  end.

Definition step_two_write (tex : textures) (gm : list Z) (group_size : Z)
    (exp_v_fac deltaT : R) (threads : Z)
    (w : Z * Z) (p : pd.gpu_pdata_arrays) : pd.gpu_pdata_arrays :=
  match group_target gm group_size threads w with
  | Some i =>
      pd.set_accel (<[Z.to_nat i := step_two_accel tex i]> (pd.accel p))
        (pd.set_vel
           (<[Z.to_nat i := step_two_vel tex exp_v_fac deltaT i]> (pd.vel p))
           p)
  | None => p
  end.

Definition boxscale_write (tex : textures) (box : gpu_boxsize) (box_len_scale : R)
    (local_num threads : Z)
    (w : Z * Z) (p : pd.gpu_pdata_arrays) : pd.gpu_pdata_arrays :=
  match particle_target local_num threads w with
  | Some i =>
      pd.set_image (<[Z.to_nat i := boxscale_image tex box box_len_scale i]> (pd.image p))
        (pd.set_pos
           (<[Z.to_nat i := boxscale_pos tex box box_len_scale i]> (pd.pos p))
           p)
  | None => p
  end.

(** ** Preconditions

    The particle arrays hold [N] particles each, of which the first
    [local_num] are processed; [N] fits the [int] indices of the kernels. *)
Definition pdata_wf (p : pd.gpu_pdata_arrays) : Prop :=
  0 <= pd.local_num p <= pd.N p /\ pd.N p <= 2 ^ 31
  /\ length (pd.pos p) = Z.to_nat (pd.N p)
  /\ length (pd.vel p) = Z.to_nat (pd.N p)
  /\ length (pd.accel p) = Z.to_nat (pd.N p)
  /\ length (pd.mass p) = Z.to_nat (pd.N p)
  /\ length (pd.image p) = Z.to_nat (pd.N p).

(** The group list holds [group_size] valid particle indices, no two of them
    the same particle.  Under this uniqueness no worker of a group kernel
    writes an element another worker fetches, so that what a worker fetches
    through a texture is the element as it was when the kernel was launched. *)
Definition group_wf (m : device_memory) (group_size : Z) : Prop :=
  0 <= group_size <= Z.of_nat (length (d_group_members m))
  /\ Forall (fun idx => 0 <= idx < pd.N (pdata m))
       (take (Z.to_nat group_size) (d_group_members m))
  /\ NoDup (take (Z.to_nat group_size) (d_group_members m)).

(** The grid has a worker for each of [count] items, and the global index of
    no worker overflows. *)
Definition grid_covers (count num_blocks block_size : Z) : Prop :=
  0 < block_size /\ 0 <= num_blocks
  /\ count <= num_blocks * block_size <= 2 ^ 31.

(** The box [gpu_npt_boxscale] passes to its kernel. *)
Definition scaled_box (box : gpu_boxsize) (box_len_scale : R) : gpu_boxsize :=
  mk_box (Lx box * box_len_scale) (Ly box * box_len_scale) (Lz box * box_len_scale)
         (1 / (Lx box * box_len_scale)) (1 / (Ly box * box_len_scale))
         (1 / (Lz box * box_len_scale)).

(** The device after [cudaBindTexture] has bound [t] with [n] elements. *)
Definition bound_with (t : texture_ref) (n : Z) (d : device) : device :=
  mk_device (mem d)
    (fun r => if texture_ref_eqb r t then Some n else bound d r)
    (last_error d) (pending_fault d) (trace d ++ [EvBindTexture t]).

(** ** A small device

    Two particles, the group made of particle 1, a runtime that accepts every
    binding and every launch. *)
Definition rt_ok : cuda_runtime :=
  mk_runtime (fun _ => cudaSuccess) (fun _ _ _ => cudaSuccess) (fun _ _ => 0%R).

Definition pdata_ex : pd.gpu_pdata_arrays :=
  pd.mk 2 2
    [float4.mk 0 0 0 1; float4.mk 1 2 3 7]
    [float4.mk 1 0 0 0; float4.mk 0 1 0 5]
    [float4.mk 0 0 0 0; float4.mk 2 2 2 0]
    [1%R; 2%R]
    [int4.zero; int4.zero].

Definition mem_ex : device_memory :=
  mk_memory pdata_ex [1] [float4.mk 1 1 1 0; float4.mk 4 6 8 0] [3%R; 4%R]
            [0%R] [0%R].

Definition dev_ex : device :=
  mk_device mem_ex (fun _ => None) cudaSuccess cudaSuccess [].

Definition box_ex : gpu_boxsize :=
  mk_box 10 10 10 (1 / 10) (1 / 10) (1 / 10).

(** ** Sums of contributions *)

(** [f 0 + ... + f (n-1)]. *)
Fixpoint sum_upto (f : nat -> R) (n : nat) : R :=
  match n with
  | O => 0%R
  | S n' => (sum_upto f n' + f n')%R
  end.

(** The block size [2^k] as a [positive]. *)
Fixpoint pow2 (k : nat) : positive :=
  match k with
  | O => xH
  | S k' => xO (pow2 k')
  end.

(** The sum of the contributions [c] of the workers of block [b]. *)
Definition block_sum (c : Z -> R) (b B : Z) : R :=
  sum_upto (fun t => c (b * B + Z.of_nat t)) (Z.to_nat B).

(** [mass_i |velocity_i|^2] of particle [idx]. *)
Definition particle_two_K (p : pd.gpu_pdata_arrays) (idx : Z) : R :=
  two_K (tex1Dfetch 0%R (pd.mass p) idx) (tex1Dfetch float4.zero (pd.vel p) idx).

(** What the worker of global index [g] contributes to the 2K sum of the
    group, and the worker of global index [idx] to the 2K sum and to the
    virial sum over all particles: zero when its index is out of range. *)
Definition group_2K (m : device_memory) (group_size : Z) (g : Z) : R :=
  if g <? group_size then
    match load (d_group_members m) g with
    | Some idx => particle_two_K (pdata m) idx
    | None => 0%R
    end
  else 0%R.

Definition particle_2K (m : device_memory) (idx : Z) : R :=
  if idx <? pd.local_num (pdata m) then particle_two_K (pdata m) idx else 0%R.

Definition particle_W (m : device_memory) (idx : Z) : R :=
  if idx <? pd.local_num (pdata m) then tex1Dfetch 0%R (d_net_virial m) idx else 0%R.

(** ** The five drivers, side by side *)

Inductive driver : Type :=
  | StepOne (group_size block_size num_blocks : Z) (Xi Eta deltaT : R)
  | BoxScale (box : gpu_boxsize) (block_size : Z) (Eta deltaT : R)
  | StepTwo (group_size block_size num_blocks : Z) (Xi Eta deltaT : R)
  | GroupTemperature (group_size block_size num_blocks : Z)
  | Pressure2 (block_size num_blocks : Z).

Definition run_driver (rt : cuda_runtime) (g_gpu_error_checking : bool)
    (dr : driver) : M cudaError_t :=
  match dr with
  | StepOne group_size block_size num_blocks Xi Eta deltaT =>
      gpu_npt_step_one rt g_gpu_error_checking group_size block_size num_blocks
        Xi Eta deltaT
  | BoxScale box block_size Eta deltaT =>
      gpu_npt_boxscale rt g_gpu_error_checking box block_size Eta deltaT
  | StepTwo group_size block_size num_blocks Xi Eta deltaT =>
      gpu_npt_step_two rt g_gpu_error_checking group_size block_size num_blocks
        Xi Eta deltaT
  | GroupTemperature group_size block_size num_blocks =>
      gpu_npt_group_temperature rt g_gpu_error_checking group_size block_size
        num_blocks
  | Pressure2 block_size num_blocks =>
      gpu_npt_pressure2 rt g_gpu_error_checking block_size num_blocks
  end.

(** The texture references a driver binds, in order. *)
Definition driver_textures (dr : driver) : list texture_ref :=
  match dr with
  | StepOne _ _ _ _ _ _ => [ref_pdata_pos_tex; ref_pdata_vel_tex; ref_pdata_accel_tex]
  | BoxScale _ _ _ _ => [ref_pdata_pos_tex; ref_pdata_image_tex]
  | StepTwo _ _ _ _ _ _ => [ref_pdata_vel_tex; ref_pdata_mass_tex; ref_net_force_tex]
  | GroupTemperature _ _ _ => [ref_pdata_vel_tex; ref_pdata_mass_tex]
  | Pressure2 _ _ => []
  end.

(** The kernel a driver launches and its launch configuration. *)
Definition driver_kernel (dr : driver) : kernel_name :=
  match dr with
  | StepOne _ _ _ _ _ _ => step_one_kernel
  | BoxScale _ _ _ _ => boxscale_kernel
  | StepTwo _ _ _ _ _ _ => step_two_kernel
  | GroupTemperature _ _ _ => group_temperature_kernel
  | Pressure2 _ _ => pressure_kernel2
  end.

Definition driver_grid (dr : driver) (d : device) : Z :=
  match dr with
  | StepOne _ _ num_blocks _ _ _ | StepTwo _ _ num_blocks _ _ _
  | GroupTemperature _ _ num_blocks | Pressure2 _ num_blocks => num_blocks
  | BoxScale _ block_size _ _ =>
      boxscale_grid (pd.local_num (pdata (mem d))) block_size
  end.

Definition driver_threads (dr : driver) : Z :=
  match dr with
  | StepOne _ block_size _ _ _ _ | StepTwo _ block_size _ _ _ _
  | GroupTemperature _ block_size _ | Pressure2 block_size _
  | BoxScale _ block_size _ _ => block_size
  end.

(** What the launch of a driver, called on device [d], runs on the device
    memory. *)
Definition driver_body (rt : cuda_runtime) (dr : driver) (d : device)
    (tex : textures) (m : device_memory) : option device_memory :=
  match dr with
  | StepOne group_size block_size num_blocks Xi Eta deltaT =>
      on_pdata
        (run_grid
           (gpu_npt_step_one_kernel tex (d_group_members m) group_size
              (exp (-1 / 4 * (Eta + Xi) * deltaT)) (exp (1 / 2 * Eta * deltaT)) deltaT)
           num_blocks block_size) m
  | BoxScale box block_size Eta deltaT =>
      on_pdata
        (run_grid
           (gpu_npt_boxscale_kernel tex (scaled_box box (exp (Eta * deltaT)))
              (exp (Eta * deltaT)))
           (boxscale_grid (pd.local_num (pdata (mem d))) block_size) block_size) m
  | StepTwo group_size block_size num_blocks Xi Eta deltaT =>
      on_pdata
        (run_grid
           (gpu_npt_step_two_kernel tex (d_group_members m) group_size
              (exp (-1 / 4 * (Eta + Xi) * deltaT)) deltaT)
           num_blocks block_size) m
  | GroupTemperature group_size block_size num_blocks =>
      match run_blocks
              (gpu_npt_group_temperature_kernel tex (d_group_members m) group_size)
              (scratch rt block_size) num_blocks block_size (d_partial_sum2K m) with
      | Some out => Some (set_partial_sum2K out m)
      | None => None
      end
  | Pressure2 block_size num_blocks =>
      match run_blocks
              (gpu_npt_pressure_kernel2 (pdata m) (d_net_virial m))
              (scratch rt block_size) num_blocks block_size
              (d_partial_sum2K m, d_partial_sumW m) with
      | Some (out2K, outW) =>
          Some (set_partial_sumW outW (set_partial_sum2K out2K m))
      | None => None
      end
  end.

(** The common shape of the drivers: the bindings, each checked, then the
    launch and the epilogue. *)
Fixpoint bind_textures (rt : cuda_runtime) (ts : list texture_ref) (n : Z)
    (k : M cudaError_t) : M cudaError_t :=
  match ts with
  | [] => k
  | t :: ts' =>
      bind (cudaBindTexture rt t n)
        (fun error =>
           if negb (is_success error) then ret error
           else bind_textures rt ts' n k)
  end.

Definition launch_driver (rt : cuda_runtime) (g_gpu_error_checking : bool)
    (dr : driver) : M cudaError_t :=
  fun d =>
    bind_textures rt (driver_textures dr) (pd.N (pdata (mem d)))
      (bind (cudaLaunch rt (driver_kernel dr) (driver_grid dr d) (driver_threads dr)
               (driver_body rt dr d))
            (fun _ => driver_epilogue g_gpu_error_checking))
      d.

(** The device after the bindings [ts] have succeeded. *)
Definition bound_all (ts : list texture_ref) (n : Z) (d : device) : device :=
  fold_left (fun d t => bound_with t n d) ts d.

(** Runtimes that reject every launch configuration, and every binding. *)
Definition rt_bad_launch : cuda_runtime :=
  mk_runtime (fun _ => cudaSuccess) (fun _ _ _ => cudaErrorInvalidConfiguration)
             (fun _ _ => 0%R).

Definition rt_bad_bind : cuda_runtime :=
  mk_runtime (fun _ => cudaError 18) (fun _ _ _ => cudaSuccess) (fun _ _ => 0%R).

(** The texture references bound to the arrays of the small device. *)
Definition tex_ex : textures :=
  mk_textures (pd.pos pdata_ex) (pd.vel pdata_ex) (pd.accel pdata_ex)
              (pd.mass pdata_ex) (pd.image pdata_ex) (d_net_force mem_ex).

(** ** Sequential references

    What each per-particle driver leaves in memory, written as a plain map
    over the arrays: the element of every index of [members] is replaced by
    [f] of the index, every other element is kept. *)

Definition member (i : Z) (members : list Z) : bool := existsb (Z.eqb i) members.

Definition update_members {A : Type} (f : Z -> A) (members : list Z)
    (arr : list A) : list A :=
  imap (fun n x => if member (Z.of_nat n) members then f (Z.of_nat n) else x) arr.

(** The group of a launch: the first [group_size] entries of the list. *)
Definition group_of (m : device_memory) (group_size : Z) : list Z :=
  take (Z.to_nat group_size) (d_group_members m).

(** Step one over the group, from the arrays as they are before the launch. *)
Definition step_one_result (group_size : Z) (Xi Eta deltaT : R)
    (m : device_memory) : device_memory :=
  let p := pdata m in
  let fv idx :=
    half_kick4 (velScale Xi Eta deltaT) deltaT
      (tex1Dfetch float4.zero (pd.vel p) idx)
      (tex1Dfetch float4.zero (pd.accel p) idx) in
  let fp idx :=
    drift4 (posScale Eta deltaT) deltaT
      (tex1Dfetch float4.zero (pd.pos p) idx) (fv idx) in
  set_pdata
    (pd.set_vel (update_members fv (group_of m group_size) (pd.vel p))
       (pd.set_pos (update_members fp (group_of m group_size) (pd.pos p)) p))
    m.

(** Step two over the group. *)
Definition step_two_result (group_size : Z) (Xi Eta deltaT : R)
    (m : device_memory) : device_memory :=
  let p := pdata m in
  let fa idx :=
    force_over_mass (tex1Dfetch float4.zero (d_net_force m) idx)
      (tex1Dfetch 0%R (pd.mass p) idx) in
  let fv idx :=
    half_kick4 (velScale Xi Eta deltaT) deltaT
      (tex1Dfetch float4.zero (pd.vel p) idx) (fa idx) in
  set_pdata
    (pd.set_accel (update_members fa (group_of m group_size) (pd.accel p))
       (pd.set_vel (update_members fv (group_of m group_size) (pd.vel p)) p))
    m.

(** The box rescale over the first [local_num] particles. *)
Definition boxscale_result (box : gpu_boxsize) (Eta deltaT : R)
    (m : device_memory) : device_memory :=
  let p := pdata m in
  let s := lenScale Eta deltaT in
  let fp idx :=
    let r := tex1Dfetch float4.zero (pd.pos p) idx in
    float4.mk (wrap_coord (Lx box * s) (float4.x r * s))
              (wrap_coord (Ly box * s) (float4.y r * s))
              (wrap_coord (Lz box * s) (float4.z r * s))
              (float4.w r * s)%R in
  let fi idx :=
    let r := tex1Dfetch float4.zero (pd.pos p) idx in
    let img := tex1Dfetch int4.zero (pd.image p) idx in
    int4.mk (wrap_image (Lx box * s) (float4.x r * s) (int4.x img))
            (wrap_image (Ly box * s) (float4.y r * s) (int4.y img))
            (wrap_image (Lz box * s) (float4.z r * s) (int4.z img))
            (int4.w img) in
  set_pdata
    (pd.set_image (update_members fi (seqZ 0 (pd.local_num p)) (pd.image p))
       (pd.set_pos (update_members fp (seqZ 0 (pd.local_num p)) (pd.pos p)) p))
    m.

(** The runtime accepts the bindings and the launch configuration of a
    driver called on device [d]. *)
Definition accepted (rt : cuda_runtime) (dr : driver) (d : device) : Prop :=
  (forall t, In t (driver_textures dr) -> bind_result rt t = cudaSuccess)
  /\ launch_result rt (driver_kernel dr) (driver_grid dr d) (driver_threads dr)
     = cudaSuccess.

(** Two memories that differ at most in their particle data. *)
Definition same_but_pdata (m m' : device_memory) : Prop :=
  d_group_members m' = d_group_members m
  /\ d_net_force m' = d_net_force m
  /\ d_net_virial m' = d_net_virial m
  /\ d_partial_sum2K m' = d_partial_sum2K m
  /\ d_partial_sumW m' = d_partial_sumW m
  /\ pd.N (pdata m') = pd.N (pdata m)
  /\ pd.local_num (pdata m') = pd.local_num (pdata m)
  /\ pd.mass (pdata m') = pd.mass (pdata m).


(** A device whose two particles are both ghosts: no local particle. *)
Definition pdata_ghosts : pd.gpu_pdata_arrays :=
  pd.mk 2 0 (pd.pos pdata_ex) (pd.vel pdata_ex) (pd.accel pdata_ex)
    (pd.mass pdata_ex) (pd.image pdata_ex).

Definition dev_ghosts : device :=
  mk_device (set_pdata pdata_ghosts mem_ex) (fun _ => None) cudaSuccess cudaSuccess [].

(** A runtime that accepts every binding, and every launch of at most 512
    threads a block. *)
Definition rt_max_threads : cuda_runtime :=
  mk_runtime (fun _ => cudaSuccess)
    (fun _ _ threads => if threads <=? 512 then cudaSuccess
                        else cudaErrorInvalidConfiguration)
    (fun _ _ => 0%R).

(** ** The reduction for any block size

    The threads whose contribution reaches [npt_sdata[0]] through the loop
    [while (offs > 0) { if (threadIdx.x < offs) npt_sdata[threadIdx.x] +=
    npt_sdata[threadIdx.x + offs]; offs >>= 1; }] started at [offs]: the
    threads kept from [offs >> 1] on, and those [offs] above them. *)
Fixpoint kept_pos (offs : positive) : list Z :=
  match offs with
  | xH => [0; 1]
  | xO p => kept_pos p ++ map (Z.add (Zpos (xO p))) (kept_pos p)
  | xI p => kept_pos p ++ map (Z.add (Zpos (xI p))) (kept_pos p)
  end.

Definition kept (blockDim : Z) : list Z :=
  match Z.shiftr blockDim 1 with
  | Zpos p => kept_pos p
  | _ => [0]
  end.

(** The sum of the contributions [c] of the kept threads of block [b]. *)
Definition block_kept_sum (c : Z -> R) (b B : Z) : R :=
  Rsum (map (fun t => c (b * B + t)) (kept B)).

(** What the two reduction drivers leave in memory. *)
Definition group_temperature_result (group_size block_size num_blocks : Z)
    (m : device_memory) : device_memory :=
  set_partial_sum2K
    (update_members (fun b => block_kept_sum (group_2K m group_size) b block_size)
       (seqZ 0 num_blocks) (d_partial_sum2K m))
    m.

Definition pressure2_result (block_size num_blocks : Z) (m : device_memory)
    : device_memory :=
  set_partial_sumW
    (update_members (fun b => block_kept_sum (particle_W m) b block_size)
       (seqZ 0 num_blocks) (d_partial_sumW m))
    (set_partial_sum2K
       (update_members (fun b => block_kept_sum (particle_2K m) b block_size)
          (seqZ 0 num_blocks) (d_partial_sum2K m))
       m).

(** The small device with both particles in the group list. *)
Definition dev_pair : device :=
  mk_device
    (mk_memory pdata_ex [1; 0] (d_net_force mem_ex) (d_net_virial mem_ex)
       (d_partial_sum2K mem_ex) (d_partial_sumW mem_ex))
    (fun _ => None) cudaSuccess cudaSuccess [].
(** * Properties *)

(** ** Machine integers *)

Lemma uint_small (n : Z) : 0 <= n < 2 ^ 32 -> uint n = n.
Proof. intros H. unfold uint. apply Z.mod_small. exact H. Qed.

Lemma int_small (n : Z) : - 2 ^ 31 <= n < 2 ^ 31 -> int n = n.
Proof. intros H. unfold int. rewrite Z.mod_small; lia. Qed.

Lemma global_index_small (b B t : Z) :
  0 <= b * B + t < 2 ^ 31 -> global_index b B t = b * B + t.
Proof.
  intros H. unfold global_index.
  rewrite uint_small by lia. apply int_small. lia.
Qed.

Example int_conversions :
  int 4294967295 = -1 /\ int 2147483648 = -2147483648 /\ int 7 = 7
  /\ uint (-1) = 4294967295 /\ uint 4294967296 = 0.
Proof. repeat split. Qed.

Example global_index_3 : global_index 1 2 1 = 3.
Proof. reflexivity. Qed.

Example workers_2_2 : workers 2 2 = [(0, 0); (0, 1); (1, 0); (1, 1)].
Proof. reflexivity. Qed.

Example boxscale_grid_5_2 : boxscale_grid 5 2 = 3.
Proof. reflexivity. Qed.

Lemma int_add_small (a b : Z) :
  - 2 ^ 31 <= a + b < 2 ^ 31 -> int_add a b = a + b.
Proof. apply int_small. Qed.

(** ** Rounding *)

Lemma rint_Z_split (r : R) (n : Z) (f : R) :
  (0 <= f < 1)%R -> r = (IZR n + f)%R ->
  rint_Z r = if Rlt_dec f (1 / 2) then n
             else if Rlt_dec (1 / 2) f then n + 1
             else if Z.even n then n else n + 1.
Proof.
  intros Hf Hr. destruct (Int_part_frac_part_spec r n f Hf Hr) as [Hn Hfr].
  unfold rint_Z. rewrite <- Hn, <- Hfr. reflexivity.
Qed.

Lemma rint_Z_IZR (n : Z) : rint_Z (IZR n) = n.
Proof.
  rewrite (rint_Z_split (IZR n) n 0) by lra.
  destruct (Rlt_dec 0 (1 / 2)); [reflexivity | lra].
Qed.

(** A tie goes to the even neighbour. *)
Example rint_Z_ties :
  rint_Z (1 / 2) = 0 /\ rint_Z (3 / 2) = 2 /\ rint_Z (5 / 2) = 2
  /\ rint_Z (-1 / 2) = 0 /\ rint_Z (7 / 4) = 2 /\ rint_Z (5 / 4) = 1.
Proof.
  repeat split.
  - rewrite (rint_Z_split (1 / 2) 0 (1 / 2)) by lra.
    destruct (Rlt_dec (1 / 2) (1 / 2)); [lra | reflexivity].
  - rewrite (rint_Z_split (3 / 2) 1 (1 / 2)) by lra.
    destruct (Rlt_dec (1 / 2) (1 / 2)); [lra | reflexivity].
  - rewrite (rint_Z_split (5 / 2) 2 (1 / 2)) by lra.
    destruct (Rlt_dec (1 / 2) (1 / 2)); [lra | reflexivity].
  - rewrite (rint_Z_split (-1 / 2) (-1) (1 / 2)) by lra.
    destruct (Rlt_dec (1 / 2) (1 / 2)); [lra | reflexivity].
  - rewrite (rint_Z_split (7 / 4) 1 (3 / 4)) by lra.
    destruct (Rlt_dec (3 / 4) (1 / 2)); [lra|].
    destruct (Rlt_dec (1 / 2) (3 / 4)); [reflexivity | lra].
  - rewrite (rint_Z_split (5 / 4) 1 (1 / 4)) by lra.
    destruct (Rlt_dec (1 / 4) (1 / 2)); [reflexivity | lra].
Qed.

Lemma Int_part_IZR (n : Z) : Int_part (IZR n) = n.
Proof. symmetry. apply Int_part_spec. lra. Qed.

(** The conversion to [int] of a rounded float is the rounded integer, when
    it fits. *)
Lemma float2int_rintf (r : R) :
  - 2 ^ 31 <= rint_Z r < 2 ^ 31 -> float2int (rintf r) = rint_Z r.
Proof.
  intros H. unfold float2int, rintf.
  destruct (Rle_dec 0 (IZR (rint_Z r))).
  - rewrite Int_part_IZR. lia.
  - rewrite <- opp_IZR, Int_part_IZR. lia.
Qed.

(** ** Memory accesses *)

Lemma load_Some {A : Type} (arr : list A) (i : Z) (v : A) :
  load arr i = Some v <-> 0 <= i /\ arr !! Z.to_nat i = Some v.
Proof.
  unfold load. destruct (Z.ltb_spec i 0); split.
  - discriminate.
  - intros [H1 _]. lia.
  - auto.
  - intros [_ H2]. exact H2.
Qed.

Lemma load_lt {A : Type} (arr : list A) (i : Z) (v : A) :
  load arr i = Some v -> 0 <= i < Z.of_nat (length arr).
Proof.
  intros [H1 H2]%load_Some. apply lookup_lt_Some in H2. lia.
Qed.

Lemma load_is_Some {A : Type} (arr : list A) (i : Z) :
  0 <= i < Z.of_nat (length arr) -> exists v, load arr i = Some v.
Proof.
  intros H. destruct (lookup_lt_is_Some_2 arr (Z.to_nat i)) as [v Hv]; [lia|].
  exists v. apply load_Some. split; [lia | exact Hv].
Qed.

Lemma store_Some {A : Type} (arr : list A) (i : Z) (v : A) :
  0 <= i < Z.of_nat (length arr) ->
  store arr i v = Some (<[Z.to_nat i := v]> arr).
Proof.
  intros H. unfold store.
  destruct (Z.leb_spec 0 i); [|lia].
  destruct (Z.ltb_spec i (Z.of_nat (length arr))); [reflexivity | lia].
Qed.

Lemma tex1Dfetch_load {A : Type} (zero : A) (tex : list A) (i : Z) (v : A) :
  load tex i = Some v -> tex1Dfetch zero tex i = v.
Proof.
  intros [H1 H2]%load_Some. unfold tex1Dfetch.
  destruct (Z.ltb_spec i 0); [lia|]. rewrite H2. reflexivity.
Qed.

Lemma view_full {A : Type} (arr : list A) (n : Z) :
  length arr = Z.to_nat n -> view arr (Some n) = arr.
Proof. intros H. simpl. rewrite <- H. apply firstn_all. Qed.

(** ** Grids *)

Lemma in_workers (grid threads b t : Z) :
  In (b, t) (workers grid threads) <-> (0 <= b < grid /\ 0 <= t < threads).
Proof.
  unfold workers. rewrite in_flat_map. split.
  - intros [b' [Hb Ht]]. apply in_map_iff in Ht as [t' [Heq Ht]].
    apply list_elem_of_In, elem_of_seqZ in Hb.
    apply list_elem_of_In, elem_of_seqZ in Ht.
    inversion Heq; subst. lia.
  - intros [Hb Ht]. exists b. split.
    + apply list_elem_of_In, elem_of_seqZ. lia.
    + apply in_map_iff. exists t. split; [reflexivity|].
      apply list_elem_of_In, elem_of_seqZ. lia.
Qed.

(** Every index below [grid * threads] is the global index of a worker. *)
Lemma worker_of_index (grid threads g : Z) :
  0 < threads -> 0 <= g < grid * threads ->
  In (g / threads, g mod threads) (workers grid threads)
  /\ g / threads * threads + g mod threads = g.
Proof.
  intros HB Hg.
  pose proof (Z.mod_pos_bound g threads HB) as Hm.
  pose proof (Z.div_mod g threads ltac:(lia)) as Hd.
  assert (0 <= g / threads) by (apply Z.div_pos; lia).
  assert (g / threads < grid) by (apply Z.div_lt_upper_bound; lia).
  split; [apply in_workers; lia | lia].
Qed.

(** ** Scatter *)

Section ScatterLemmas.
Context {A W : Type} (target : W -> option Z) (f : Z -> A).

Lemma scatter_cons (w : W) (ws : list W) (l : list A) :
    scatter target f (w :: ws) l
    = scatter target f ws
        (match target w with Some i => <[Z.to_nat i := f i]> l | None => l end).
  Proof. reflexivity. Qed.

Lemma length_scatter (ws : list W) (l : list A) :
    length (scatter target f ws l) = length l.
  Proof.
    revert l. induction ws as [|w ws IH]; intros l; [reflexivity|].
    rewrite scatter_cons, IH. destruct (target w); [apply length_insert | reflexivity].
  Qed.

Lemma lookup_scatter_keep (ws : list W) (l : list A) (i : Z) :
    (forall w j, In w ws -> target w = Some j -> 0 <= j) ->
    0 <= i ->
    l !! Z.to_nat i = Some (f i) ->
    scatter target f ws l !! Z.to_nat i = Some (f i).
  Proof.
    revert l. induction ws as [|w ws IH]; intros l Hpos Hi Hl; [exact Hl|].
    rewrite scatter_cons. apply IH; [intros; eapply Hpos; eauto using in_cons | exact Hi |].
    destruct (target w) as [j|] eqn:Hw; [|exact Hl].
    assert (0 <= j) by (eapply Hpos; [left; reflexivity | exact Hw]).
    destruct (Z.eq_dec j i) as [->|Hne].
    - apply list_lookup_insert_eq. eapply lookup_lt_Some; eauto.
    - rewrite list_lookup_insert_ne by lia. exact Hl.
  Qed.

Lemma lookup_scatter_hit (ws : list W) (l : list A) (w : W) (i : Z) :
    (forall w j, In w ws -> target w = Some j -> 0 <= j) ->
    In w ws -> target w = Some i ->
    (Z.to_nat i < length l)%nat ->
    scatter target f ws l !! Z.to_nat i = Some (f i).
  Proof.
    revert l. induction ws as [|w' ws IH]; intros l Hpos Hin Hw Hlen; [destruct Hin|].
    rewrite scatter_cons. destruct Hin as [->|Hin].
    - rewrite Hw. apply lookup_scatter_keep.
      + intros; eapply Hpos; eauto using in_cons.
      + eapply Hpos; [left; reflexivity | exact Hw].
      + apply list_lookup_insert_eq. exact Hlen.
    - apply IH; [intros; eapply Hpos; eauto using in_cons | exact Hin | exact Hw |].
      destruct (target w'); [rewrite length_insert|]; exact Hlen.
  Qed.

Lemma lookup_scatter_miss (ws : list W) (l : list A) (n : nat) :
    (forall w j, In w ws -> target w = Some j -> Z.to_nat j <> n) ->
    scatter target f ws l !! n = l !! n.
  Proof.
    revert l. induction ws as [|w ws IH]; intros l Hne; [reflexivity|].
    rewrite scatter_cons, IH by (intros; eapply Hne; eauto using in_cons).
    destruct (target w) as [j|] eqn:Hw; [|reflexivity].
    apply list_lookup_insert_ne. eapply Hne; [left; reflexivity | exact Hw].
  Qed.

End ScatterLemmas.

(** ** The kernels on the small device *)

(** Worker 0 of block 0 of step one, with both scaling factors 1 and
    [deltaT = 1]: particle 1 gets its half kick and its drift. *)
Example step_one_kernel_run :
  gpu_npt_step_one_kernel tex_ex [1] 1 1 1 1 0 2 0 pdata_ex
  = Some (pd.set_vel [float4.mk 1 0 0 0; float4.mk 1 2 1 5]
            (pd.set_pos [float4.mk 0 0 0 1; float4.mk 2 4 4 7] pdata_ex)).
Proof.
  lazy -[Rplus Rmult Rdiv Rinv Rminus Ropp IZR].
  do 2 f_equal; repeat f_equal; lra.
Qed.

(** Worker 1 of block 0 is beyond the group: nothing is accessed. *)
Example step_one_kernel_idle :
  gpu_npt_step_one_kernel tex_ex [1] 1 1 1 1 0 2 1 pdata_ex = Some pdata_ex.
Proof. reflexivity. Qed.

(** Worker 0 of block 0 of step two: the acceleration is the net force
    over the mass. *)
Example step_two_kernel_run :
  gpu_npt_step_two_kernel tex_ex [1] 1 1 1 0 2 0 pdata_ex
  = Some (pd.set_accel [float4.mk 0 0 0 0; float4.mk 2 3 4 0]
            (pd.set_vel [float4.mk 1 0 0 0; float4.mk 1 (5 / 2) 2 5] pdata_ex)).
Proof.
  lazy -[Rplus Rmult Rdiv Rinv Rminus Ropp IZR].
  do 2 f_equal; repeat f_equal; lra.
Qed.

(** A group list longer than its array: the load of the worker faults. *)
Example step_one_kernel_fault :
  gpu_npt_step_one_kernel tex_ex [1] 2 1 1 1 0 2 1 pdata_ex = None.
Proof. reflexivity. Qed.

(** One axis of the wrap in a box of length 10: a coordinate 7 is moved to
    -3 and the image goes up by one, -6 is moved to 4 and the image goes
    down by one; a coordinate exactly on the boundary 5 stays, as the tie
    [rint(1/2)] goes to 0. *)
Example wrap_axis :
  wrap_coord 10 7 = (-3)%R /\ wrap_image 10 7 0 = 1
  /\ wrap_coord 10 (-6) = 4%R /\ wrap_image 10 (-6) 0 = -1
  /\ wrap_coord 10 5 = 5%R /\ wrap_image 10 5 0 = 0.
Proof.
  assert (H7 : rint_Z (7 * (1 / 10)) = 1).
  { rewrite (rint_Z_split _ 0 (7 / 10)) by lra.
    destruct (Rlt_dec (7 / 10) (1 / 2)); [lra|].
    destruct (Rlt_dec (1 / 2) (7 / 10)); [reflexivity | lra]. }
  assert (H6 : rint_Z (-6 * (1 / 10)) = -1).
  { rewrite (rint_Z_split _ (-1) (4 / 10)) by lra.
    destruct (Rlt_dec (4 / 10) (1 / 2)); [reflexivity | lra]. }
  assert (H5 : rint_Z (5 * (1 / 10)) = 0).
  { rewrite (rint_Z_split _ 0 (1 / 2)) by lra.
    destruct (Rlt_dec (1 / 2) (1 / 2)); [lra | reflexivity]. }
  unfold wrap_coord, wrap_image, wrap_shift.
  rewrite !float2int_rintf by (rewrite ?H7, ?H6, ?H5; lia).
  unfold rintf. rewrite H7, H6, H5.
  repeat split; try reflexivity; lra.
Qed.

(** ** Launches *)

Lemma run_workers_fold {W St : Type} (k : W -> St -> option St)
    (step : W -> St -> St) (Inv : St -> Prop) (ws : list W) (st : St) :
  Inv st ->
  (forall w s, In w ws -> Inv s -> k w s = Some (step w s) /\ Inv (step w s)) ->
  run_workers k ws st = Some (fold_left (fun s w => step w s) ws st)
  /\ Inv (fold_left (fun s w => step w s) ws st).
Proof.
  revert st. induction ws as [|w ws IH]; intros st Hst Hk; [split; [reflexivity | exact Hst]|].
  destruct (Hk w st (or_introl eq_refl) Hst) as [Hw Hst'].
  simpl. rewrite Hw. apply IH; [exact Hst'|].
  intros w' s Hin. apply Hk. right. exact Hin.
Qed.

(** ** Runtime calls *)

Lemma cudaBindTexture_ok (rt : cuda_runtime) (t : texture_ref) (n : Z) (d : device) :
  bind_result rt t = cudaSuccess ->
  cudaBindTexture rt t n d = (cudaSuccess, bound_with t n d).
Proof. intros H. unfold cudaBindTexture. rewrite H. reflexivity. Qed.

Lemma cudaBindTexture_error (rt : cuda_runtime) (t : texture_ref) (n : Z) (d : device) :
  bind_result rt t <> cudaSuccess ->
  cudaBindTexture rt t n d
  = (bind_result rt t,
     mk_device (mem d) (bound d) (bind_result rt t) (pending_fault d)
       (trace d ++ [EvBindTexture t])).
Proof.
  intros H. unfold cudaBindTexture.
  destruct (bind_result rt t); [contradiction | reflexivity].
Qed.

(** A binding that succeeds is followed by the rest of the driver. *)
Lemma bind_texture_ok {A : Type} (rt : cuda_runtime) (t : texture_ref) (n : Z)
    (k : cudaError_t -> M A) (d : device) :
  bind_result rt t = cudaSuccess ->
  bind (cudaBindTexture rt t n) k d = k cudaSuccess (bound_with t n d).
Proof. intros H. unfold bind. rewrite cudaBindTexture_ok by exact H. reflexivity. Qed.

(** Steps through the bindings of a driver when each is known to succeed. *)
Ltac bindings_succeed :=
  repeat (rewrite bind_texture_ok by assumption;
          cbn beta iota delta [is_success negb]).

Lemma mem_driver_epilogue (chk : bool) (d : device) :
  mem (snd (driver_epilogue chk d)) = mem d.
Proof.
  unfold driver_epilogue, bind, cudaThreadSynchronize, cudaGetLastError, ret.
  destruct chk; simpl; [|reflexivity].
  destruct (pending_fault d); reflexivity.
Qed.

Lemma mem_launch_epilogue (rt : cuda_runtime) (chk : bool) (k : kernel_name)
    (grid threads : Z) (body : textures -> device_memory -> option device_memory)
    (d : device) (m' : device_memory) :
  launch_result rt k grid threads = cudaSuccess ->
  body (views d) (mem d) = Some m' ->
  mem (snd (bind (cudaLaunch rt k grid threads body) (fun _ => driver_epilogue chk) d))
  = m'.
Proof.
  intros Hl Hb. unfold bind, cudaLaunch. rewrite Hl. cbn. 
  change (views (log (EvLaunch k grid threads) d)) with (views d).
  change (mem (log (EvLaunch k grid threads) d)) with (mem d).
  rewrite Hb. rewrite mem_driver_epilogue. reflexivity.
Qed.

(** *** Step one *)

Section StepOne.
Variables (tex : textures) (gm : list Z) (group_size : Z).
Variables (exp_v_fac exp_r_fac deltaT : R) (threads : Z) (n : nat).

Lemma step_one_worker (w : Z * Z) (p : pd.gpu_pdata_arrays) :
  (forall i, group_target gm group_size threads w = Some i -> 0 <= i < Z.of_nat n) ->
  (group_target gm group_size threads w = None ->
   (uint (global_index (fst w) threads (snd w)) <? group_size) = false) ->
  length (pd.pos p) = n /\ length (pd.vel p) = n ->
  gpu_npt_step_one_kernel tex gm group_size exp_v_fac exp_r_fac deltaT
    (fst w) threads (snd w) p
  = Some (step_one_write tex gm group_size exp_v_fac exp_r_fac deltaT threads w p)
  /\ (length (pd.pos (step_one_write tex gm group_size exp_v_fac exp_r_fac deltaT threads w p)) = n
      /\ length (pd.vel (step_one_write tex gm group_size exp_v_fac exp_r_fac deltaT threads w p)) = n).
Proof.
  intros Hin Hnone [Hp Hv].
  unfold gpu_npt_step_one_kernel, step_one_write, group_target in *.
  destruct (uint (global_index (fst w) threads (snd w)) <? group_size) eqn:Hg.
  - destruct (load gm (global_index (fst w) threads (snd w))) as [idx|] eqn:Hl;
      [|specialize (Hnone eq_refl); discriminate].
    specialize (Hin idx eq_refl).
    rewrite !store_Some by lia. split.
    + f_equal. unfold step_one_pos, step_one_vel, half_kick4, drift4,
        half_kick, drift. simpl.
      f_equal; [f_equal; f_equal; unfold Rdiv; ring
               | f_equal; f_equal; f_equal; unfold Rdiv; ring].
    + split; simpl; rewrite length_insert; assumption.
  - split; [reflexivity | split; assumption].
Qed.

Lemma pos_step_one_fold (ws : list (Z * Z)) (p : pd.gpu_pdata_arrays) :
  pd.pos (fold_left
            (fun s w => step_one_write tex gm group_size exp_v_fac exp_r_fac deltaT threads w s)
            ws p)
  = scatter (group_target gm group_size threads)
      (step_one_pos tex exp_v_fac exp_r_fac deltaT) ws (pd.pos p).
Proof.
  revert p. induction ws as [|w ws IH]; intros p; [reflexivity|].
  simpl. rewrite IH. unfold step_one_write.
  destruct (group_target gm group_size threads w); reflexivity.
Qed.

Lemma vel_step_one_fold (ws : list (Z * Z)) (p : pd.gpu_pdata_arrays) :
  pd.vel (fold_left
            (fun s w => step_one_write tex gm group_size exp_v_fac exp_r_fac deltaT threads w s)
            ws p)
  = scatter (group_target gm group_size threads)
      (step_one_vel tex exp_v_fac deltaT) ws (pd.vel p).
Proof.
  revert p. induction ws as [|w ws IH]; intros p; [reflexivity|].
  simpl. rewrite IH. unfold step_one_write.
  destruct (group_target gm group_size threads w); reflexivity.
Qed.

End StepOne.

(** *** Targets of the workers *)

Lemma worker_index_bounds (num_blocks block_size : Z) (w : Z * Z) :
  0 < block_size -> num_blocks * block_size <= 2 ^ 31 ->
  In w (workers num_blocks block_size) ->
  0 <= fst w * block_size + snd w < num_blocks * block_size
  /\ global_index (fst w) block_size (snd w) = fst w * block_size + snd w
  /\ uint (fst w * block_size + snd w) = fst w * block_size + snd w.
Proof.
  intros HB Hmax Hin. destruct w as [b t]. apply in_workers in Hin. simpl.
  assert (0 <= b * block_size + t < num_blocks * block_size) by nia.
  split; [assumption|]. split.
  - apply global_index_small. lia.
  - apply uint_small. lia.
Qed.

Lemma group_member_bounds (gm : list Z) (group_size N g idx : Z) :
  Forall (fun idx => 0 <= idx < N) (take (Z.to_nat group_size) gm) ->
  0 <= g < group_size -> load gm g = Some idx -> 0 <= idx < N.
Proof.
  intros Hmembers Hg [_ Hl]%load_Some.
  rewrite Forall_lookup in Hmembers. apply (Hmembers (Z.to_nat g)).
  rewrite lookup_take_lt by lia. exact Hl.
Qed.

Lemma group_target_Some (gm : list Z) (group_size num_blocks block_size N : Z)
    (w : Z * Z) (i : Z) :
  Forall (fun idx => 0 <= idx < N) (take (Z.to_nat group_size) gm) ->
  0 < block_size -> num_blocks * block_size <= 2 ^ 31 ->
  In w (workers num_blocks block_size) ->
  group_target gm group_size block_size w = Some i -> 0 <= i < N.
Proof.
  intros Hmembers Hblock Hmax Hin. unfold group_target.
  destruct (worker_index_bounds _ _ _ Hblock Hmax Hin) as (Hr & -> & Hu).
  rewrite Hu. destruct (Z.ltb_spec (fst w * block_size + snd w) group_size); [|discriminate].
  intros Hl. eapply group_member_bounds; [exact Hmembers | | exact Hl]. lia.
Qed.

Lemma group_target_None (gm : list Z) (group_size num_blocks block_size : Z)
    (w : Z * Z) :
  0 <= group_size <= Z.of_nat (length gm) ->
  0 < block_size -> num_blocks * block_size <= 2 ^ 31 ->
  In w (workers num_blocks block_size) ->
  group_target gm group_size block_size w = None ->
  (uint (global_index (fst w) block_size (snd w)) <? group_size) = false.
Proof.
  intros Hsize Hblock Hmax Hin. unfold group_target.
  destruct (worker_index_bounds _ _ _ Hblock Hmax Hin) as (Hr & -> & Hu).
  rewrite Hu. destruct (Z.ltb_spec (fst w * block_size + snd w) group_size); [|reflexivity].
  destruct (load_is_Some gm (fst w * block_size + snd w)) as [v Hv]; [lia|].
  rewrite Hv. discriminate.
Qed.

Lemma group_target_worker (gm : list Z) (group_size num_blocks block_size g : Z) :
  0 < block_size -> num_blocks * block_size <= 2 ^ 31 ->
  0 <= g < group_size -> group_size <= num_blocks * block_size ->
  exists w, In w (workers num_blocks block_size)
            /\ group_target gm group_size block_size w = load gm g.
Proof.
  intros Hblock Hmax Hg Hcov.
  destruct (worker_of_index num_blocks block_size g Hblock ltac:(lia)) as [Hin Heq].
  exists (g / block_size, g mod block_size). split; [exact Hin|].
  unfold group_target.
  destruct (worker_index_bounds _ _ _ Hblock Hmax Hin) as (Hr & -> & Hu).
  rewrite Hu. simpl. rewrite Heq.
  destruct (Z.ltb_spec g group_size); [reflexivity | lia].
Qed.

Lemma velScale_driver (Xi Eta deltaT : R) :
  exp (-1 / 4 * (Eta + Xi) * deltaT) = velScale Xi Eta deltaT.
Proof. unfold velScale. f_equal. lra. Qed.

Lemma posScale_driver (Eta deltaT : R) :
  exp (1 / 2 * Eta * deltaT) = posScale Eta deltaT.
Proof. unfold posScale. f_equal. lra. Qed.

(** What [gpu_npt_step_one] does to a group member, when its bindings and
    its launch are accepted and the grid covers the group. *)
Lemma gpu_npt_step_one_member (rt : cuda_runtime) (chk : bool) (d : device)
    (group_size block_size num_blocks : Z) (Xi Eta deltaT : R) :
  pdata_wf (pdata (mem d)) ->
  group_wf (mem d) group_size ->
  grid_covers group_size num_blocks block_size ->
  bind_result rt ref_pdata_pos_tex = cudaSuccess ->
  bind_result rt ref_pdata_vel_tex = cudaSuccess ->
  bind_result rt ref_pdata_accel_tex = cudaSuccess ->
  launch_result rt step_one_kernel num_blocks block_size = cudaSuccess ->
  forall g idx,
    0 <= g < group_size ->
    load (d_group_members (mem d)) g = Some idx ->
    exists p v a,
      load (pd.pos (pdata (mem d))) idx = Some p
      /\ load (pd.vel (pdata (mem d))) idx = Some v
      /\ load (pd.accel (pdata (mem d))) idx = Some a
      /\ let d' := snd (gpu_npt_step_one rt chk group_size block_size num_blocks
                          Xi Eta deltaT d) in
         let v' := half_kick4 (velScale Xi Eta deltaT) deltaT v a in
         load (pd.vel (pdata (mem d'))) idx = Some v'
         /\ load (pd.pos (pdata (mem d'))) idx
            = Some (drift4 (posScale Eta deltaT) deltaT p v').
Proof.
  intros (Hloc & HN & Lpos & Lvel & Lacc & Lmass & Limg) (Hgs & Hmem & Huniq) (HB & Hnb & Hcov & Hmax)
    Bpos Bvel Bacc Hlaunch g idx Hg Hidx.
  set (m := mem d) in *. set (pdt := pdata m) in *.
  assert (Hb : 0 <= idx < pd.N pdt)
    by exact (group_member_bounds _ _ _ g idx Hmem Hg Hidx).
  destruct (load_is_Some (pd.pos pdt) idx ltac:(lia)) as [p Hp].
  destruct (load_is_Some (pd.vel pdt) idx ltac:(lia)) as [v Hv].
  destruct (load_is_Some (pd.accel pdt) idx ltac:(lia)) as [a Ha].
  exists p, v, a. repeat (split; [assumption|]).
  set (dev := bound_with ref_pdata_accel_tex (pd.N pdt)
                (bound_with ref_pdata_vel_tex (pd.N pdt)
                   (bound_with ref_pdata_pos_tex (pd.N pdt) d))).
  set (tx := views dev).
  set (evf := exp (-1 / 4 * (Eta + Xi) * deltaT)).
  set (erf := exp (1 / 2 * Eta * deltaT)).
  destruct (run_workers_fold
              (fun w => gpu_npt_step_one_kernel tx (d_group_members m) group_size
                          evf erf deltaT (fst w) block_size (snd w))
              (step_one_write tx (d_group_members m) group_size evf erf deltaT block_size)
              (fun q => length (pd.pos q) = Z.to_nat (pd.N pdt)
                        /\ length (pd.vel q) = Z.to_nat (pd.N pdt))
              (workers num_blocks block_size) pdt) as [Hrun _].
  { split; assumption. }
  { intros w s Hin Hs. apply step_one_worker; [| |exact Hs].
    - intros i Hi.
      pose proof (group_target_Some _ _ _ _ _ w i Hmem HB Hmax Hin Hi). lia.
    - exact (group_target_None _ _ _ _ w Hgs HB Hmax Hin). }
  assert (Hd' : mem (snd (gpu_npt_step_one rt chk group_size block_size num_blocks
                            Xi Eta deltaT d))
                = set_pdata
                    (fold_left
                       (fun s w => step_one_write tx (d_group_members m) group_size
                                     evf erf deltaT block_size w s)
                       (workers num_blocks block_size) pdt) m).
  { unfold gpu_npt_step_one, get_pdata. unfold bind at 1.
    bindings_succeed.
    apply mem_launch_epilogue; [exact Hlaunch|].
    unfold on_pdata, run_grid. fold m pdt dev tx evf erf.
    change (pdata (mem dev)) with pdt. change (mem dev) with m.
    rewrite Hrun. reflexivity. }
  cbv zeta. rewrite Hd'.
  cbn [pdata set_pdata].
  rewrite pos_step_one_fold, vel_step_one_fold.
  destruct (group_target_worker (d_group_members m) group_size num_blocks block_size
              g HB Hmax Hg Hcov) as (w & Hin & Hw).
  rewrite Hidx in Hw.
  assert (Hpos : forall w j, In w (workers num_blocks block_size) ->
                 group_target (d_group_members m) group_size block_size w = Some j -> 0 <= j).
  { intros w' j Hin' Hj.
    pose proof (group_target_Some _ _ _ _ _ w' j Hmem HB Hmax Hin' Hj). lia. }
  assert (Hfetch : tex1Dfetch float4.zero (pdata_pos_tex tx) (int idx) = p
                   /\ tex1Dfetch float4.zero (pdata_vel_tex tx) (int idx) = v
                   /\ tex1Dfetch float4.zero (pdata_accel_tex tx) (int idx) = a).
  { rewrite int_small by lia. unfold tx, views, dev. cbn.
    fold m. fold pdt. rewrite !firstn_all2 by lia.
    repeat split; apply tex1Dfetch_load; assumption. }
  destruct Hfetch as (Fp & Fv & Fa).
  split.
  - apply load_Some. split; [lia|].
    erewrite lookup_scatter_hit; eauto; [|lia].
    unfold step_one_vel. rewrite Fv, Fa. subst evf. rewrite velScale_driver. reflexivity.
  - apply load_Some. split; [lia|].
    erewrite lookup_scatter_hit; eauto; [|lia].
    unfold step_one_pos, step_one_vel. rewrite Fp, Fv, Fa. subst evf erf.
    rewrite velScale_driver, posScale_driver. reflexivity.
Qed.

(** C1.  [gpu_npt_step_one], when its bindings and its launch are accepted
    and the grid covers the group: for every group member index
    [g < group_size] with [idx = d_group_members[g]], the velocity of particle
    [idx] becomes [v' = v velScale^2 + 1/2 dt velScale a] on its three
    components and its position [p' = p + v' dt / posScale], with
    [velScale = exp(-(xi+eta) dt/4)] and [posScale = exp(eta dt/2)]; the
    fourth components of position and velocity are written back unchanged. *)
Theorem step_one_group_update (rt : cuda_runtime) (chk : bool) (d : device)
    (group_size block_size num_blocks : Z) (Xi Eta deltaT : R) :
  pdata_wf (pdata (mem d)) ->
  group_wf (mem d) group_size ->
  grid_covers group_size num_blocks block_size ->
  bind_result rt ref_pdata_pos_tex = cudaSuccess ->
  bind_result rt ref_pdata_vel_tex = cudaSuccess ->
  bind_result rt ref_pdata_accel_tex = cudaSuccess ->
  launch_result rt step_one_kernel num_blocks block_size = cudaSuccess ->
  forall g idx,
    0 <= g < group_size ->
    load (d_group_members (mem d)) g = Some idx ->
    exists p v a,
      load (pd.pos (pdata (mem d))) idx = Some p
      /\ load (pd.vel (pdata (mem d))) idx = Some v
      /\ load (pd.accel (pdata (mem d))) idx = Some a
      /\ let d' := snd (gpu_npt_step_one rt chk group_size block_size num_blocks
                          Xi Eta deltaT d) in
         let v' := half_kick4 (velScale Xi Eta deltaT) deltaT v a in
         load (pd.vel (pdata (mem d'))) idx = Some v'
         /\ load (pd.pos (pdata (mem d'))) idx
            = Some (drift4 (posScale Eta deltaT) deltaT p v').
Proof. exact (gpu_npt_step_one_member rt chk d group_size block_size num_blocks Xi Eta deltaT). Qed.

Lemma pdata_ex_wf : pdata_wf pdata_ex.
Proof. unfold pdata_wf. simpl. repeat split; lia. Qed.

Lemma mem_ex_group_wf : group_wf mem_ex 1.
Proof.
  unfold group_wf. simpl. split; [lia|]. split; [repeat constructor; lia|].
  apply NoDup_singleton.
Qed.

Lemma step_one_group_update_witness :
  exists p v a,
    load (pd.pos pdata_ex) 1 = Some p
    /\ load (pd.vel pdata_ex) 1 = Some v
    /\ load (pd.accel pdata_ex) 1 = Some a
    /\ let d' := snd (gpu_npt_step_one rt_ok true 1 2 1 0 0 1 dev_ex) in
       let v' := half_kick4 (velScale 0 0 1) 1 v a in
       load (pd.vel (pdata (mem d'))) 1 = Some v'
       /\ load (pd.pos (pdata (mem d'))) 1 = Some (drift4 (posScale 0 1) 1 p v').
Proof.
  apply (step_one_group_update rt_ok true dev_ex 1 2 1 0 0 1
           pdata_ex_wf mem_ex_group_wf) with (g := 0).
  - unfold grid_covers. lia.
  - reflexivity.
  - reflexivity.
  - reflexivity.
  - reflexivity.
  - lia.
  - reflexivity.
Defined.

(** *** Step two *)

Section StepTwo.
Variables (tex : textures) (gm : list Z) (group_size : Z).
Variables (exp_v_fac deltaT : R) (threads : Z) (n : nat).

Lemma step_two_worker (w : Z * Z) (p : pd.gpu_pdata_arrays) :
  (forall i, group_target gm group_size threads w = Some i -> 0 <= i < Z.of_nat n) ->
  (group_target gm group_size threads w = None ->
   (uint (global_index (fst w) threads (snd w)) <? group_size) = false) ->
  length (pd.vel p) = n /\ length (pd.accel p) = n ->
  gpu_npt_step_two_kernel tex gm group_size exp_v_fac deltaT
    (fst w) threads (snd w) p
  = Some (step_two_write tex gm group_size exp_v_fac deltaT threads w p)
  /\ (length (pd.vel (step_two_write tex gm group_size exp_v_fac deltaT threads w p)) = n
      /\ length (pd.accel (step_two_write tex gm group_size exp_v_fac deltaT threads w p)) = n).
Proof.
  intros Hin Hnone [Hv Ha].
  unfold gpu_npt_step_two_kernel, step_two_write, group_target in *.
  destruct (uint (global_index (fst w) threads (snd w)) <? group_size) eqn:Hg.
  - destruct (load gm (global_index (fst w) threads (snd w))) as [idx|] eqn:Hl;
      [|specialize (Hnone eq_refl); discriminate].
    specialize (Hin idx eq_refl).
    rewrite !store_Some by (simpl; lia). split.
    + f_equal. unfold step_two_vel, step_two_accel, half_kick4, force_over_mass,
        half_kick. simpl.
      f_equal. f_equal. f_equal. f_equal; unfold Rdiv; ring.
    + split; simpl; rewrite length_insert; assumption.
  - split; [reflexivity | split; assumption].
Qed.

Lemma vel_step_two_fold (ws : list (Z * Z)) (p : pd.gpu_pdata_arrays) :
  pd.vel (fold_left
            (fun s w => step_two_write tex gm group_size exp_v_fac deltaT threads w s)
            ws p)
  = scatter (group_target gm group_size threads)
      (step_two_vel tex exp_v_fac deltaT) ws (pd.vel p).
Proof.
  revert p. induction ws as [|w ws IH]; intros p; [reflexivity|].
  simpl. rewrite IH. unfold step_two_write.
  destruct (group_target gm group_size threads w); reflexivity.
Qed.

Lemma accel_step_two_fold (ws : list (Z * Z)) (p : pd.gpu_pdata_arrays) :
  pd.accel (fold_left
              (fun s w => step_two_write tex gm group_size exp_v_fac deltaT threads w s)
              ws p)
  = scatter (group_target gm group_size threads) (step_two_accel tex) ws (pd.accel p).
Proof.
  revert p. induction ws as [|w ws IH]; intros p; [reflexivity|].
  simpl. rewrite IH. unfold step_two_write.
  destruct (group_target gm group_size threads w); reflexivity.
Qed.

Lemma pos_step_two_fold (ws : list (Z * Z)) (p : pd.gpu_pdata_arrays) :
  pd.pos (fold_left
            (fun s w => step_two_write tex gm group_size exp_v_fac deltaT threads w s)
            ws p)
  = pd.pos p.
Proof.
  revert p. induction ws as [|w ws IH]; intros p; [reflexivity|].
  simpl. rewrite IH. unfold step_two_write.
  destruct (group_target gm group_size threads w); reflexivity.
Qed.

End StepTwo.

(** The memory [gpu_npt_step_two] leaves, when its bindings and its launch
    are accepted and the grid covers the group. *)
Lemma gpu_npt_step_two_mem (rt : cuda_runtime) (chk : bool) (d : device)
    (group_size block_size num_blocks : Z) (Xi Eta deltaT : R) :
  pdata_wf (pdata (mem d)) ->
  group_wf (mem d) group_size ->
  grid_covers group_size num_blocks block_size ->
  bind_result rt ref_pdata_vel_tex = cudaSuccess ->
  bind_result rt ref_pdata_mass_tex = cudaSuccess ->
  bind_result rt ref_net_force_tex = cudaSuccess ->
  launch_result rt step_two_kernel num_blocks block_size = cudaSuccess ->
  let dev := bound_with ref_net_force_tex (pd.N (pdata (mem d)))
               (bound_with ref_pdata_mass_tex (pd.N (pdata (mem d)))
                  (bound_with ref_pdata_vel_tex (pd.N (pdata (mem d))) d)) in
  mem (snd (gpu_npt_step_two rt chk group_size block_size num_blocks Xi Eta deltaT d))
  = set_pdata
      (fold_left
         (fun s w => step_two_write (views dev) (d_group_members (mem d)) group_size
                       (exp (-1 / 4 * (Eta + Xi) * deltaT)) deltaT block_size w s)
         (workers num_blocks block_size) (pdata (mem d)))
      (mem d).
Proof.
  intros (Hloc & HN & Lpos & Lvel & Lacc & Lmass & Limg) (Hgs & Hmem & Huniq) (HB & Hnb & Hcov & Hmax)
    Bvel Bmass Bforce Hlaunch dev.
  set (m := mem d) in *. set (pdt := pdata m) in *.
  set (tx := views dev).
  set (evf := exp (-1 / 4 * (Eta + Xi) * deltaT)).
  destruct (run_workers_fold
              (fun w => gpu_npt_step_two_kernel tx (d_group_members m) group_size
                          evf deltaT (fst w) block_size (snd w))
              (step_two_write tx (d_group_members m) group_size evf deltaT block_size)
              (fun q => length (pd.vel q) = Z.to_nat (pd.N pdt)
                        /\ length (pd.accel q) = Z.to_nat (pd.N pdt))
              (workers num_blocks block_size) pdt) as [Hrun _].
  { split; assumption. }
  { intros w s Hin Hs. apply step_two_worker; [| |exact Hs].
    - intros i Hi.
      pose proof (group_target_Some _ _ _ _ _ w i Hmem HB Hmax Hin Hi). lia.
    - exact (group_target_None _ _ _ _ w Hgs HB Hmax Hin). }
  unfold gpu_npt_step_two, get_pdata. unfold bind at 1.
  bindings_succeed.
  apply mem_launch_epilogue; [exact Hlaunch|].
  unfold on_pdata, run_grid. fold m pdt dev tx evf.
  change (pdata (mem dev)) with pdt. change (mem dev) with m.
  rewrite Hrun. reflexivity.
Qed.

(** What [gpu_npt_step_two] does to a group member and to the positions. *)
Lemma gpu_npt_step_two_member (rt : cuda_runtime) (chk : bool) (d : device)
    (group_size block_size num_blocks : Z) (Xi Eta deltaT : R) :
  pdata_wf (pdata (mem d)) ->
  group_wf (mem d) group_size ->
  length (d_net_force (mem d)) = Z.to_nat (pd.N (pdata (mem d))) ->
  grid_covers group_size num_blocks block_size ->
  bind_result rt ref_pdata_vel_tex = cudaSuccess ->
  bind_result rt ref_pdata_mass_tex = cudaSuccess ->
  bind_result rt ref_net_force_tex = cudaSuccess ->
  launch_result rt step_two_kernel num_blocks block_size = cudaSuccess ->
  let d' := snd (gpu_npt_step_two rt chk group_size block_size num_blocks
                   Xi Eta deltaT d) in
  pd.pos (pdata (mem d')) = pd.pos (pdata (mem d))
  /\ forall g idx,
       0 <= g < group_size ->
       load (d_group_members (mem d)) g = Some idx ->
       exists v f ms,
         load (pd.vel (pdata (mem d))) idx = Some v
         /\ load (d_net_force (mem d)) idx = Some f
         /\ load (pd.mass (pdata (mem d))) idx = Some ms
         /\ let a' := force_over_mass f ms in
            load (pd.accel (pdata (mem d'))) idx = Some a'
            /\ load (pd.vel (pdata (mem d'))) idx
               = Some (half_kick4 (velScale Xi Eta deltaT) deltaT v a').
Proof.
  intros Hwf Hgwf Lforce Hgrid Bvel Bmass Bforce Hlaunch d'.
  pose proof (gpu_npt_step_two_mem rt chk d group_size block_size num_blocks
                Xi Eta deltaT Hwf Hgwf Hgrid Bvel Bmass Bforce Hlaunch) as Hd'.
  cbv zeta in Hd'. fold d' in Hd'.
  destruct Hwf as (Hloc & HN & Lpos & Lvel & Lacc & Lmass & Limg).
  destruct Hgwf as (Hgs & Hmem & Huniq). destruct Hgrid as (HB & Hnb & Hcov & Hmax).
  set (m := mem d) in *. set (pdt := pdata m) in *.
  rewrite Hd'. cbn [pdata set_pdata].
  rewrite pos_step_two_fold, vel_step_two_fold, accel_step_two_fold.
  split; [reflexivity|].
  intros g idx Hg Hidx.
  assert (Hb : 0 <= idx < pd.N pdt)
    by exact (group_member_bounds _ _ _ g idx Hmem Hg Hidx).
  destruct (load_is_Some (pd.vel pdt) idx ltac:(lia)) as [v Hv].
  destruct (load_is_Some (d_net_force m) idx ltac:(lia)) as [f Hf].
  destruct (load_is_Some (pd.mass pdt) idx ltac:(lia)) as [ms Hms].
  exists v, f, ms. repeat (split; [assumption|]).
  destruct (group_target_worker (d_group_members m) group_size num_blocks block_size
              g HB Hmax Hg Hcov) as (w & Hin & Hw).
  rewrite Hidx in Hw.
  assert (Hpos : forall w j, In w (workers num_blocks block_size) ->
                 group_target (d_group_members m) group_size block_size w = Some j -> 0 <= j).
  { intros w' j Hin' Hj.
    pose proof (group_target_Some _ _ _ _ _ w' j Hmem HB Hmax Hin' Hj). lia. }
  match goal with |- context [step_two_accel ?t] => set (tx := t) end.
  assert (Hfetch : tex1Dfetch float4.zero (pdata_vel_tex tx) (int idx) = v
                   /\ tex1Dfetch float4.zero (net_force_tex tx) (int idx) = f
                   /\ tex1Dfetch 0%R (pdata_mass_tex tx) (int idx) = ms).
  { rewrite int_small by lia. unfold tx, views. cbn.
    fold m. fold pdt. rewrite !firstn_all2 by lia.
    repeat split; apply tex1Dfetch_load; assumption. }
  destruct Hfetch as (Fv & Ff & Fm).
  cbv zeta. split.
  - apply load_Some. split; [lia|].
    erewrite lookup_scatter_hit; eauto; [|lia].
    unfold step_two_accel. rewrite Ff, Fm. reflexivity.
  - apply load_Some. split; [lia|].
    erewrite lookup_scatter_hit; eauto; [|lia].
    unfold step_two_vel, step_two_accel. rewrite Fv, Ff, Fm.
    rewrite velScale_driver. reflexivity.
Qed.

(** C3.  [gpu_npt_step_two], when its bindings and its launch are accepted
    and the grid covers the group: for every group member the acceleration
    becomes [netForce / mass] component by component, the velocity
    [v' = v velScale^2 + 1/2 dt velScale a] with that acceleration and
    [velScale = exp(-(xi+eta) dt/4)] as in step one, both are written back,
    and no position changes. *)
Theorem step_two_group_update (rt : cuda_runtime) (chk : bool) (d : device)
    (group_size block_size num_blocks : Z) (Xi Eta deltaT : R) :
  pdata_wf (pdata (mem d)) ->
  group_wf (mem d) group_size ->
  length (d_net_force (mem d)) = Z.to_nat (pd.N (pdata (mem d))) ->
  grid_covers group_size num_blocks block_size ->
  bind_result rt ref_pdata_vel_tex = cudaSuccess ->
  bind_result rt ref_pdata_mass_tex = cudaSuccess ->
  bind_result rt ref_net_force_tex = cudaSuccess ->
  launch_result rt step_two_kernel num_blocks block_size = cudaSuccess ->
  let d' := snd (gpu_npt_step_two rt chk group_size block_size num_blocks
                   Xi Eta deltaT d) in
  pd.pos (pdata (mem d')) = pd.pos (pdata (mem d))
  /\ forall g idx,
       0 <= g < group_size ->
       load (d_group_members (mem d)) g = Some idx ->
       exists v f ms,
         load (pd.vel (pdata (mem d))) idx = Some v
         /\ load (d_net_force (mem d)) idx = Some f
         /\ load (pd.mass (pdata (mem d))) idx = Some ms
         /\ let a' := force_over_mass f ms in
            load (pd.accel (pdata (mem d'))) idx = Some a'
            /\ load (pd.vel (pdata (mem d'))) idx
               = Some (half_kick4 (velScale Xi Eta deltaT) deltaT v a').
Proof. exact (gpu_npt_step_two_member rt chk d group_size block_size num_blocks Xi Eta deltaT). Qed.

Lemma step_two_group_update_witness :
  let d' := snd (gpu_npt_step_two rt_ok true 1 2 1 0 0 1 dev_ex) in
  pd.pos (pdata (mem d')) = pd.pos pdata_ex
  /\ forall g idx,
       0 <= g < 1 ->
       load [1] g = Some idx ->
       exists v f ms,
         load (pd.vel pdata_ex) idx = Some v
         /\ load (d_net_force mem_ex) idx = Some f
         /\ load (pd.mass pdata_ex) idx = Some ms
         /\ let a' := force_over_mass f ms in
            load (pd.accel (pdata (mem d'))) idx = Some a'
            /\ load (pd.vel (pdata (mem d'))) idx
               = Some (half_kick4 (velScale 0 0 1) 1 v a').
Proof.
  apply (step_two_group_update rt_ok true dev_ex 1 2 1 0 0 1
           pdata_ex_wf mem_ex_group_wf).
  - reflexivity.
  - unfold grid_covers. lia.
  - reflexivity.
  - reflexivity.
  - reflexivity.
  - reflexivity.
Defined.

(** *** Box rescale *)

Lemma particle_target_Some (local_num num_blocks block_size : Z) (w : Z * Z) (i : Z) :
  0 < block_size -> num_blocks * block_size <= 2 ^ 31 ->
  In w (workers num_blocks block_size) ->
  particle_target local_num block_size w = Some i ->
  i = fst w * block_size + snd w /\ 0 <= i < local_num.
Proof.
  intros Hblock Hmax Hin. unfold particle_target.
  destruct (worker_index_bounds _ _ _ Hblock Hmax Hin) as (Hr & -> & Hu).
  rewrite Hu. destruct (Z.ltb_spec (fst w * block_size + snd w) local_num); [|discriminate].
  intros [= <-]. lia.
Qed.

Lemma particle_target_worker (local_num num_blocks block_size i : Z) :
  0 < block_size -> num_blocks * block_size <= 2 ^ 31 ->
  0 <= i < local_num -> local_num <= num_blocks * block_size ->
  In (i / block_size, i mod block_size) (workers num_blocks block_size)
  /\ particle_target local_num block_size (i / block_size, i mod block_size) = Some i.
Proof.
  intros Hblock Hmax Hi Hcov.
  destruct (worker_of_index num_blocks block_size i Hblock ltac:(lia)) as [Hin Heq].
  split; [exact Hin|].
  unfold particle_target.
  destruct (worker_index_bounds _ _ _ Hblock Hmax Hin) as (Hr & -> & Hu).
  rewrite Hu. simpl. rewrite Heq.
  destruct (Z.ltb_spec i local_num); [reflexivity | lia].
Qed.

(** The grid of [gpu_npt_boxscale] when no [unsigned int] wraps around. *)
Lemma boxscale_grid_small (local_num block_size : Z) :
  0 <= local_num -> 0 < block_size ->
  (local_num / block_size + 1) * block_size <= 2 ^ 31 ->
  boxscale_grid local_num block_size = local_num / block_size + 1
  /\ local_num < boxscale_grid local_num block_size * block_size.
Proof.
  intros HN HB Hmax.
  assert (0 <= local_num / block_size) by (apply Z.div_pos; lia).
  assert (Hg : boxscale_grid local_num block_size = local_num / block_size + 1).
  { unfold boxscale_grid. apply uint_small. nia. }
  split; [exact Hg|]. rewrite Hg.
  pose proof (Z.div_mod local_num block_size ltac:(lia)).
  pose proof (Z.mod_pos_bound local_num block_size HB). nia.
Qed.

Section BoxScale.
Variables (tex : textures) (box : gpu_boxsize) (box_len_scale : R).
Variables (threads : Z) (n : nat).

Lemma boxscale_worker (w : Z * Z) (p : pd.gpu_pdata_arrays) :
  (forall i, particle_target (pd.local_num p) threads w = Some i -> 0 <= i < Z.of_nat n) ->
  length (pd.pos p) = n /\ length (pd.image p) = n ->
  gpu_npt_boxscale_kernel tex box box_len_scale (fst w) threads (snd w) p
  = Some (boxscale_write tex box box_len_scale (pd.local_num p) threads w p)
  /\ (length (pd.pos (boxscale_write tex box box_len_scale (pd.local_num p) threads w p)) = n
      /\ length (pd.image (boxscale_write tex box box_len_scale (pd.local_num p) threads w p)) = n).
Proof.
  intros Hin [Hp Hi].
  unfold gpu_npt_boxscale_kernel, boxscale_write, particle_target in *.
  destruct (uint (global_index (fst w) threads (snd w)) <? pd.local_num p) eqn:Hg.
  - specialize (Hin _ eq_refl).
    rewrite !store_Some by (simpl; lia). split.
    + reflexivity.
    + split; simpl; rewrite length_insert; assumption.
  - split; [reflexivity | split; assumption].
Qed.

Lemma boxscale_fold (local_num : Z) (ws : list (Z * Z)) (p : pd.gpu_pdata_arrays) :
  let p' := fold_left
              (fun s w => boxscale_write tex box box_len_scale local_num threads w s)
              ws p in
  pd.pos p' = scatter (particle_target local_num threads)
                (boxscale_pos tex box box_len_scale) ws (pd.pos p)
  /\ pd.image p' = scatter (particle_target local_num threads)
                     (boxscale_image tex box box_len_scale) ws (pd.image p)
  /\ pd.local_num p' = pd.local_num p.
Proof.
  revert p. induction ws as [|w ws IH]; intros p; [repeat split|].
  cbn zeta in *. simpl. destruct (IH (boxscale_write tex box box_len_scale local_num threads w p))
    as (-> & -> & ->).
  unfold boxscale_write.
  destruct (particle_target local_num threads w); repeat split.
Qed.

End BoxScale.

(** What [gpu_npt_boxscale] does to a particle, when its bindings and its
    launch are accepted and no index of the grid wraps around. *)
Lemma gpu_npt_boxscale_particle (rt : cuda_runtime) (chk : bool) (d : device)
    (box : gpu_boxsize) (block_size : Z) (Eta deltaT : R) :
  let pdt := pdata (mem d) in
  let grid := boxscale_grid (pd.local_num pdt) block_size in
  pdata_wf pdt ->
  0 < block_size ->
  (pd.local_num pdt / block_size + 1) * block_size <= 2 ^ 31 ->
  bind_result rt ref_pdata_pos_tex = cudaSuccess ->
  bind_result rt ref_pdata_image_tex = cudaSuccess ->
  launch_result rt boxscale_kernel grid block_size = cudaSuccess ->
  forall idx,
    0 <= idx < pd.local_num pdt ->
    exists p img,
      load (pd.pos pdt) idx = Some p
      /\ load (pd.image pdt) idx = Some img
      /\ let d' := snd (gpu_npt_boxscale rt chk box block_size Eta deltaT d) in
         let s := lenScale Eta deltaT in
         load (pd.pos (pdata (mem d'))) idx
         = Some (float4.mk
                   (wrap_coord (Lx box * s) (float4.x p * s))
                   (wrap_coord (Ly box * s) (float4.y p * s))
                   (wrap_coord (Lz box * s) (float4.z p * s))
                   (float4.w p * s))
         /\ load (pd.image (pdata (mem d'))) idx
            = Some (int4.mk
                      (wrap_image (Lx box * s) (float4.x p * s) (int4.x img))
                      (wrap_image (Ly box * s) (float4.y p * s) (int4.y img))
                      (wrap_image (Lz box * s) (float4.z p * s) (int4.z img))
                      (int4.w img)).
Proof.
  intros pdt grid (Hloc & HN & Lpos & Lvel & Lacc & Lmass & Limg) HB Hmax
    Bpos Bimg Hlaunch idx Hidx.
  set (m := mem d) in *.
  destruct (boxscale_grid_small (pd.local_num pdt) block_size ltac:(lia) HB Hmax)
    as [Hgrid Hcov].
  fold grid in Hgrid, Hcov.
  assert (Hgmax : grid * block_size <= 2 ^ 31) by (rewrite Hgrid; exact Hmax).
  destruct (load_is_Some (pd.pos pdt) idx ltac:(lia)) as [p Hp].
  destruct (load_is_Some (pd.image pdt) idx ltac:(lia)) as [img Himg].
  exists p, img. repeat (split; [assumption|]).
  set (dev := bound_with ref_pdata_image_tex (pd.N pdt)
                (bound_with ref_pdata_pos_tex (pd.N pdt) d)).
  set (tx := views dev).
  set (s := lenScale Eta deltaT).
  set (sb := scaled_box box s).
  destruct (run_workers_fold
              (fun w => gpu_npt_boxscale_kernel tx sb s (fst w) block_size (snd w))
              (boxscale_write tx sb s (pd.local_num pdt) block_size)
              (fun q => (length (pd.pos q) = Z.to_nat (pd.N pdt)
                         /\ length (pd.image q) = Z.to_nat (pd.N pdt))
                        /\ pd.local_num q = pd.local_num pdt)
              (workers grid block_size) pdt) as [Hrun _].
  { repeat split; assumption. }
  { intros w q Hin [Hq Hl].
    destruct (boxscale_worker tx sb s block_size (Z.to_nat (pd.N pdt)) w q) as [Hk Hlen].
    - intros i Hi. rewrite Hl in Hi.
      pose proof (particle_target_Some _ _ _ w i HB Hgmax Hin Hi). lia.
    - exact Hq.
    - rewrite Hl in Hk, Hlen. split; [exact Hk|]. split; [exact Hlen|].
      unfold boxscale_write. destruct (particle_target _ _ w); exact Hl. }
  assert (Hd' : mem (snd (gpu_npt_boxscale rt chk box block_size Eta deltaT d))
                = set_pdata
                    (fold_left
                       (fun q w => boxscale_write tx sb s (pd.local_num pdt) block_size w q)
                       (workers grid block_size) pdt) m).
  { unfold gpu_npt_boxscale, get_pdata. unfold bind at 1.
    bindings_succeed.
    apply mem_launch_epilogue; [exact Hlaunch|].
    unfold on_pdata, run_grid. fold m pdt dev tx grid.
    change (pdata (mem dev)) with pdt. change (mem dev) with m.
    change (exp (Eta * deltaT)) with s.
    change (mk_box _ _ _ _ _ _) with sb.
    rewrite Hrun. reflexivity. }
  cbv zeta. rewrite Hd'. cbn [pdata set_pdata].
  destruct (boxscale_fold tx sb s block_size (pd.local_num pdt)
              (workers grid block_size) pdt) as (-> & -> & _).
  destruct (particle_target_worker (pd.local_num pdt) grid block_size idx
              HB Hgmax Hidx ltac:(lia)) as [Hin Hw].
  assert (Hpos : forall w j, In w (workers grid block_size) ->
                 particle_target (pd.local_num pdt) block_size w = Some j -> 0 <= j).
  { intros w' j Hin' Hj.
    pose proof (particle_target_Some _ _ _ w' j HB Hgmax Hin' Hj). lia. }
  assert (Hfetch : tex1Dfetch float4.zero (pdata_pos_tex tx) idx = p
                   /\ tex1Dfetch int4.zero (pdata_image_tex tx) idx = img).
  { unfold tx, views. cbn. fold m. fold pdt. rewrite !firstn_all2 by lia.
    split; apply tex1Dfetch_load; assumption. }
  destruct Hfetch as [Fp Fi].
  split.
  - apply load_Some. split; [lia|].
    erewrite lookup_scatter_hit; eauto; [|lia].
    unfold boxscale_pos. rewrite Fp. reflexivity.
  - apply load_Some. split; [lia|].
    erewrite lookup_scatter_hit; eauto; [|lia].
    unfold boxscale_image. rewrite Fp, Fi. reflexivity.
Qed.

(** [rint_Z] is a nearest integer. *)
Lemma rint_Z_nearest (r : R) (k : Z) :
  (Rabs (IZR (rint_Z r) - r) <= Rabs (IZR k - r))%R.
Proof.
  unfold rint_Z.
  pose proof (base_Int_part r) as [Hlo Hhi].
  set (n := Int_part r) in *.
  assert (Hf : frac_part r = (r - IZR n)%R) by reflexivity.
  assert (Hk : (k <= n \/ n + 1 <= k)%Z) by lia.
  assert (Hk' : (IZR k <= IZR n \/ IZR n + 1 <= IZR k)%R).
  { destruct Hk as [Hk|Hk]; [left | right].
    - apply IZR_le. exact Hk.
    - rewrite <- plus_IZR. apply IZR_le. exact Hk. }
  destruct (Rlt_dec (frac_part r) (1 / 2)) as [H1|H1].
  - rewrite Hf in H1. unfold Rabs.
    destruct (Rcase_abs (IZR n - r)), (Rcase_abs (IZR k - r)); lra.
  - destruct (Rlt_dec (1 / 2) (frac_part r)) as [H2|H2].
    + rewrite Hf in H2. rewrite plus_IZR. unfold Rabs.
      destruct (Rcase_abs (IZR n + 1 - r)), (Rcase_abs (IZR k - r)); lra.
    + rewrite Hf in H1, H2.
      destruct (Z.even n); [|rewrite plus_IZR]; unfold Rabs.
      * destruct (Rcase_abs (IZR n - r)), (Rcase_abs (IZR k - r)); lra.
      * destruct (Rcase_abs (IZR n + 1 - r)), (Rcase_abs (IZR k - r)); lra.
Qed.

(** C2.  [gpu_npt_boxscale], when its bindings and its launch are accepted
    and no index of the grid wraps around: for every particle index
    [idx < local_num], whether or not it is in a group, each position
    component is multiplied by [lenScale = exp(eta dt)]; then, with the box
    lengths [L] already multiplied by [lenScale] and their reciprocals
    recomputed, [shift = rint(p (1/L))] (a nearest integer, [wrap_shift]) is computed per
    axis, [L shift] is subtracted from the position and the integer shift is
    added to the image counter of the axis (an [int] addition, which is the
    sum of the integers when it does not overflow). *)
Theorem boxscale_particle_update (rt : cuda_runtime) (chk : bool) (d : device)
    (box : gpu_boxsize) (block_size : Z) (Eta deltaT : R) :
  let pdt := pdata (mem d) in
  let grid := boxscale_grid (pd.local_num pdt) block_size in
  pdata_wf pdt ->
  0 < block_size ->
  (pd.local_num pdt / block_size + 1) * block_size <= 2 ^ 31 ->
  bind_result rt ref_pdata_pos_tex = cudaSuccess ->
  bind_result rt ref_pdata_image_tex = cudaSuccess ->
  launch_result rt boxscale_kernel grid block_size = cudaSuccess ->
  forall idx,
    0 <= idx < pd.local_num pdt ->
    exists p img p' img',
      load (pd.pos pdt) idx = Some p
      /\ load (pd.image pdt) idx = Some img
      /\ let d' := snd (gpu_npt_boxscale rt chk box block_size Eta deltaT d) in
         let s := lenScale Eta deltaT in
         load (pd.pos (pdata (mem d'))) idx = Some p'
         /\ load (pd.image (pdata (mem d'))) idx = Some img'
         /\ float4.x p' = (float4.x p * s - Lx box * s * wrap_shift (Lx box * s) (float4.x p * s))%R
         /\ float4.y p' = (float4.y p * s - Ly box * s * wrap_shift (Ly box * s) (float4.y p * s))%R
         /\ float4.z p' = (float4.z p * s - Lz box * s * wrap_shift (Lz box * s) (float4.z p * s))%R
         /\ int4.x img' = int_add (int4.x img) (float2int (wrap_shift (Lx box * s) (float4.x p * s)%R))
         /\ int4.y img' = int_add (int4.y img) (float2int (wrap_shift (Ly box * s) (float4.y p * s)%R))
         /\ int4.z img' = int_add (int4.z img) (float2int (wrap_shift (Lz box * s) (float4.z p * s)%R))
         /\ (forall (L q : R) (k : Z),
               (Rabs (wrap_shift L q - q * (1 / L)) <= Rabs (IZR k - q * (1 / L)))%R)
         /\ (forall (L q : R) (a : Z),
               - 2 ^ 31 <= rint_Z (q * (1 / L)) < 2 ^ 31 ->
               - 2 ^ 31 <= a + rint_Z (q * (1 / L)) < 2 ^ 31 ->
               int_add a (float2int (wrap_shift L q)) = a + rint_Z (q * (1 / L))).
Proof.
  intros pdt grid Hwf HB Hmax Bpos Bimg Hlaunch idx Hidx.
  destruct (gpu_npt_boxscale_particle rt chk d box block_size Eta deltaT
              Hwf HB Hmax Bpos Bimg Hlaunch idx Hidx) as (p & img & Hp & Himg & Hp' & Himg').
  eexists p, img, _, _. split; [exact Hp|]. split; [exact Himg|].
  cbv zeta. split; [exact Hp'|]. split; [exact Himg'|].
  repeat (split; [reflexivity|]).
  split.
  - intros L q k. apply rint_Z_nearest.
  - intros L q a Hr Ha. unfold wrap_shift.
    rewrite float2int_rintf by exact Hr. apply int_add_small. exact Ha.
Qed.

Lemma boxscale_particle_update_witness :
    exists p img p' img',
      load (pd.pos pdata_ex) 1 = Some p
      /\ load (pd.image pdata_ex) 1 = Some img
      /\ let d' := snd (gpu_npt_boxscale rt_ok true box_ex 2 0 1 dev_ex) in
         let s := lenScale 0 1 in
         load (pd.pos (pdata (mem d'))) 1 = Some p'
         /\ load (pd.image (pdata (mem d'))) 1 = Some img'
         /\ float4.x p' = (float4.x p * s - Lx box_ex * s * wrap_shift (Lx box_ex * s) (float4.x p * s))%R
         /\ float4.y p' = (float4.y p * s - Ly box_ex * s * wrap_shift (Ly box_ex * s) (float4.y p * s))%R
         /\ float4.z p' = (float4.z p * s - Lz box_ex * s * wrap_shift (Lz box_ex * s) (float4.z p * s))%R
         /\ int4.x img' = int_add (int4.x img) (float2int (wrap_shift (Lx box_ex * s) (float4.x p * s)%R))
         /\ int4.y img' = int_add (int4.y img) (float2int (wrap_shift (Ly box_ex * s) (float4.y p * s)%R))
         /\ int4.z img' = int_add (int4.z img) (float2int (wrap_shift (Lz box_ex * s) (float4.z p * s)%R))
         /\ (forall (L q : R) (k : Z),
               (Rabs (wrap_shift L q - q * (1 / L)) <= Rabs (IZR k - q * (1 / L)))%R)
         /\ (forall (L q : R) (a : Z),
               - 2 ^ 31 <= rint_Z (q * (1 / L)) < 2 ^ 31 ->
               - 2 ^ 31 <= a + rint_Z (q * (1 / L)) < 2 ^ 31 ->
               int_add a (float2int (wrap_shift L q)) = a + rint_Z (q * (1 / L))).
Proof.
  apply (boxscale_particle_update rt_ok true dev_ex box_ex 2 0 1 pdata_ex_wf).
  - lia.
  - vm_compute. discriminate.
  - reflexivity.
  - reflexivity.
  - reflexivity.
  - cbn. lia.
Defined.

Lemma exp_eq_1 (x : R) : exp x = 1%R -> x = 0%R.
Proof. intros H. apply exp_inv. rewrite exp_0. exact H. Qed.

(** C9.  [gpu_npt_boxscale] multiplies the fourth position slot of every
    particle by [lenScale], along with the three spatial components (which
    are then wrapped); unlike step one it does not pass the slot through:
    the slot changes whenever it is not zero and [eta dt] is not zero. *)
Theorem boxscale_scales_fourth_slot (rt : cuda_runtime) (chk : bool) (d : device)
    (box : gpu_boxsize) (block_size : Z) (Eta deltaT : R) :
  let pdt := pdata (mem d) in
  let grid := boxscale_grid (pd.local_num pdt) block_size in
  pdata_wf pdt ->
  0 < block_size ->
  (pd.local_num pdt / block_size + 1) * block_size <= 2 ^ 31 ->
  bind_result rt ref_pdata_pos_tex = cudaSuccess ->
  bind_result rt ref_pdata_image_tex = cudaSuccess ->
  launch_result rt boxscale_kernel grid block_size = cudaSuccess ->
  forall idx,
    0 <= idx < pd.local_num pdt ->
    exists p p',
      load (pd.pos pdt) idx = Some p
      /\ load (pd.pos (pdata (mem (snd (gpu_npt_boxscale rt chk box block_size
                                          Eta deltaT d))))) idx = Some p'
      /\ float4.w p' = (float4.w p * lenScale Eta deltaT)%R
      /\ float4.x p' = wrap_coord (Lx box * lenScale Eta deltaT)
                         (float4.x p * lenScale Eta deltaT)
      /\ float4.y p' = wrap_coord (Ly box * lenScale Eta deltaT)
                         (float4.y p * lenScale Eta deltaT)
      /\ float4.z p' = wrap_coord (Lz box * lenScale Eta deltaT)
                         (float4.z p * lenScale Eta deltaT)
      /\ (float4.w p <> 0%R -> (Eta * deltaT)%R <> 0%R -> float4.w p' <> float4.w p).
Proof.
  intros pdt grid Hwf HB Hmax Bpos Bimg Hlaunch idx Hidx.
  destruct (gpu_npt_boxscale_particle rt chk d box block_size Eta deltaT
              Hwf HB Hmax Bpos Bimg Hlaunch idx Hidx) as (p & img & Hp & Himg & Hp' & Himg').
  eexists p, _. split; [exact Hp|]. split; [exact Hp'|].
  do 4 (split; [reflexivity|]).
  cbn [float4.w]. intros Hw Hne Heq.
  apply Hne, exp_eq_1. unfold lenScale in Heq.
  apply (Rmult_eq_reg_l (float4.w p)); [lra | exact Hw].
Qed.

Lemma boxscale_scales_fourth_slot_witness :
    exists p p',
      load (pd.pos pdata_ex) 1 = Some p
      /\ load (pd.pos (pdata (mem (snd (gpu_npt_boxscale rt_ok false box_ex 2
                                          1 1 dev_ex))))) 1 = Some p'
      /\ float4.w p' = (float4.w p * lenScale 1 1)%R
      /\ float4.x p' = wrap_coord (Lx box_ex * lenScale 1 1) (float4.x p * lenScale 1 1)
      /\ float4.y p' = wrap_coord (Ly box_ex * lenScale 1 1) (float4.y p * lenScale 1 1)
      /\ float4.z p' = wrap_coord (Lz box_ex * lenScale 1 1) (float4.z p * lenScale 1 1)
      /\ (float4.w p <> 0%R -> (1 * 1)%R <> 0%R -> float4.w p' <> float4.w p).
Proof.
  apply (boxscale_scales_fourth_slot rt_ok false dev_ex box_ex 2 1 1 pdata_ex_wf).
  - lia.
  - vm_compute. discriminate.
  - reflexivity.
  - reflexivity.
  - reflexivity.
  - cbn. lia.
Defined.

(** *** The grid of the box rescale *)







(** At the ends of that domain: [2^31] particles in blocks of one worker,
    and one block of [2^32 - 1] workers, half of them idle. *)
Example boxscale_grid_extremes :
  boxscale_grid (2 ^ 31) 1 = 2 ^ 31 + 1
  /\ boxscale_grid (2 ^ 31) (2 ^ 32 - 1) = 1
  /\ particle_target (2 ^ 31) (2 ^ 32 - 1) (0, 2 ^ 31 - 1) = Some (2 ^ 31 - 1)
  /\ particle_target (2 ^ 31) (2 ^ 32 - 1) (0, 2 ^ 31) = None
  /\ particle_target (2 ^ 31) (2 ^ 32 - 1) (0, 2 ^ 32 - 2) = None.
Proof. repeat split. Qed.

(** *** The Verlet limit *)

Lemma velScale_0 (dt : R) : velScale 0 0 dt = 1%R.
Proof.
  unfold velScale. replace (- (0 + 0) * dt / 4)%R with 0%R by lra. apply exp_0.
Qed.

Lemma posScale_0 (dt : R) : posScale 0 dt = 1%R.
Proof.
  unfold posScale. replace (0 * dt / 2)%R with 0%R by lra. apply exp_0.
Qed.

Lemma half_kick4_1 (dt : R) (v a : float4.t) :
  half_kick4 1 dt v a = verlet_kick4 dt v a.
Proof.
  unfold half_kick4, verlet_kick4, half_kick, verlet_kick.
  f_equal; ring.
Qed.

Lemma drift4_1 (dt : R) (p v : float4.t) :
  drift4 1 dt p v = verlet_drift4 dt p v.
Proof.
  unfold drift4, verlet_drift4, drift, verlet_drift.
  f_equal; field.
Qed.

(** C8.  With [xi = 0] and [eta = 0] and any [dt], the scaling factors of
    the drivers are [velScale = posScale = 1], and [gpu_npt_step_one] and
    [gpu_npt_step_two] do to every group member what the plain
    velocity-Verlet step does: [v' = v + 1/2 dt a], [p' = p + v' dt], and in
    the second half [v' = v + 1/2 dt (f / m)]. *)
Theorem verlet_at_zero_coupling (rt : cuda_runtime) (chk : bool) (d : device)
    (group_size block_size num_blocks : Z) (deltaT : R) :
  pdata_wf (pdata (mem d)) ->
  group_wf (mem d) group_size ->
  length (d_net_force (mem d)) = Z.to_nat (pd.N (pdata (mem d))) ->
  grid_covers group_size num_blocks block_size ->
  (forall t, bind_result rt t = cudaSuccess) ->
  (forall k, launch_result rt k num_blocks block_size = cudaSuccess) ->
  velScale 0 0 deltaT = 1%R
  /\ posScale 0 deltaT = 1%R
  /\ exp (-1 / 4 * (0 + 0) * deltaT) = 1%R
  /\ exp (1 / 2 * 0 * deltaT) = 1%R
  /\ forall g idx,
       0 <= g < group_size ->
       load (d_group_members (mem d)) g = Some idx ->
       exists p v a f ms,
         load (pd.pos (pdata (mem d))) idx = Some p
         /\ load (pd.vel (pdata (mem d))) idx = Some v
         /\ load (pd.accel (pdata (mem d))) idx = Some a
         /\ load (d_net_force (mem d)) idx = Some f
         /\ load (pd.mass (pdata (mem d))) idx = Some ms
         /\ let d1 := snd (gpu_npt_step_one rt chk group_size block_size num_blocks
                             0 0 deltaT d) in
            let d2 := snd (gpu_npt_step_two rt chk group_size block_size num_blocks
                             0 0 deltaT d) in
            load (pd.vel (pdata (mem d1))) idx = Some (verlet_kick4 deltaT v a)
            /\ load (pd.pos (pdata (mem d1))) idx
               = Some (verlet_drift4 deltaT p (verlet_kick4 deltaT v a))
            /\ load (pd.vel (pdata (mem d2))) idx
               = Some (verlet_kick4 deltaT v (force_over_mass f ms)).
Proof.
  intros Hwf Hgwf Lforce Hgrid Hbind Hlaunch.
  split; [apply velScale_0|]. split; [apply posScale_0|].
  split; [rewrite velScale_driver; apply velScale_0|].
  split; [rewrite posScale_driver; apply posScale_0|].
  intros g idx Hg Hidx.
  destruct (gpu_npt_step_one_member rt chk d group_size block_size num_blocks 0 0 deltaT
              Hwf Hgwf Hgrid (Hbind _) (Hbind _) (Hbind _) (Hlaunch _) g idx Hg Hidx)
    as (p & v & a & Hp & Hv & Ha & Hv1 & Hp1).
  destruct (gpu_npt_step_two_member rt chk d group_size block_size num_blocks 0 0 deltaT
              Hwf Hgwf Lforce Hgrid (Hbind _) (Hbind _) (Hbind _) (Hlaunch _))
    as [_ H2].
  destruct (H2 g idx Hg Hidx) as (v2 & f & ms & Hv' & Hf & Hms & Ha2 & Hv2).
  assert (v2 = v) by congruence. subst v2.
  exists p, v, a, f, ms. repeat (split; [assumption|]).
  cbv zeta in *.
  rewrite velScale_0 in Hv1, Hp1, Hv2. rewrite posScale_0 in Hp1.
  rewrite half_kick4_1 in Hv1, Hp1, Hv2. rewrite drift4_1 in Hp1.
  repeat split; assumption.
Qed.

Lemma verlet_at_zero_coupling_witness :
  velScale 0 0 3 = 1%R
  /\ posScale 0 3 = 1%R
  /\ exp (-1 / 4 * (0 + 0) * 3) = 1%R
  /\ exp (1 / 2 * 0 * 3) = 1%R
  /\ forall g idx,
       0 <= g < 1 ->
       load (d_group_members mem_ex) g = Some idx ->
       exists p v a f ms,
         load (pd.pos pdata_ex) idx = Some p
         /\ load (pd.vel pdata_ex) idx = Some v
         /\ load (pd.accel pdata_ex) idx = Some a
         /\ load (d_net_force mem_ex) idx = Some f
         /\ load (pd.mass pdata_ex) idx = Some ms
         /\ let d1 := snd (gpu_npt_step_one rt_ok false 1 2 1 0 0 3 dev_ex) in
            let d2 := snd (gpu_npt_step_two rt_ok false 1 2 1 0 0 3 dev_ex) in
            load (pd.vel (pdata (mem d1))) idx = Some (verlet_kick4 3 v a)
            /\ load (pd.pos (pdata (mem d1))) idx
               = Some (verlet_drift4 3 p (verlet_kick4 3 v a))
            /\ load (pd.vel (pdata (mem d2))) idx
               = Some (verlet_kick4 3 v (force_over_mass f ms)).
Proof.
  apply (verlet_at_zero_coupling rt_ok false dev_ex 1 2 1 3 pdata_ex_wf mem_ex_group_wf).
  - reflexivity.
  - unfold grid_covers. lia.
  - intros t. reflexivity.
  - intros k. reflexivity.
Defined.

(** *** Division by the mass in step two *)

Lemma run_workers_ext {W St : Type} (k1 k2 : W -> St -> option St)
    (ws : list W) (st : St) :
  (forall w s, In w ws -> k1 w s = k2 w s) ->
  run_workers k1 ws st = run_workers k2 ws st.
Proof.
  revert st. induction ws as [|w ws IH]; intros st H; [reflexivity|].
  simpl. rewrite (H w st) by (left; reflexivity).
  destruct (k2 w st); [|reflexivity].
  apply IH. intros w' s' Hin. apply H. right. exact Hin.
Qed.

Lemma checked_div_nonzero (a m : R) : m <> 0%R -> checked_div a m = Some (a / m)%R.
Proof.
  intros H. unfold checked_div. destruct (Req_dec_T m 0); [contradiction | reflexivity].
Qed.

Lemma uint_int_nonneg (n : Z) : 0 <= int n -> uint (int n) = int n.
Proof.
  intros H. apply uint_small. unfold int in *.
  pose proof (Z.mod_pos_bound (n + 2 ^ 31) (2 ^ 32) ltac:(lia)). lia.
Qed.

(** With a zero mass the kernel still divides (it has no check), where the
    guarded kernel stops. *)
Example step_two_kernel_zero_mass :
  let tex := mk_textures [] [float4.zero] [] [0%R] [] [float4.zero] in
  let p := pd.mk 1 1 [float4.zero] [float4.zero] [float4.zero] [0%R] [int4.zero] in
  gpu_npt_step_two_kernel_guarded tex [0] 1 1 1 0 1 0 p = None
  /\ exists p', gpu_npt_step_two_kernel tex [0] 1 1 1 0 1 0 p = Some p'.
Proof.
  split.
  - lazy -[Rplus Rmult Rdiv Rinv Rminus Ropp IZR Req_dec_T].
    destruct (Req_dec_T 0 0); [reflexivity | contradiction].
  - eexists. reflexivity.
Qed.

(** C10.  [gpu_npt_step_two_kernel] divides the net force by the mass with
    no zero check.  When the mass of every group member is not zero, each of
    the three divisions of a worker is defined (the guarded division returns
    its quotient), so the guarded kernel never takes its error branch: it
    computes exactly what the kernel computes, worker by worker and over any
    grid. *)
Theorem step_two_division_defined (tex : textures) (gm : list Z) (group_size : Z)
    (exp_v_fac deltaT : R) :
  (forall g idx, 0 <= g < group_size -> load gm g = Some idx ->
                 tex1Dfetch 0%R (pdata_mass_tex tex) (int idx) <> 0%R) ->
  (forall g idx a, 0 <= g < group_size -> load gm g = Some idx ->
     checked_div a (tex1Dfetch 0%R (pdata_mass_tex tex) (int idx))
     = Some (a / tex1Dfetch 0%R (pdata_mass_tex tex) (int idx))%R)
  /\ (forall blockIdx blockDim threadIdx pdata,
        gpu_npt_step_two_kernel_guarded tex gm group_size exp_v_fac deltaT
          blockIdx blockDim threadIdx pdata
        = gpu_npt_step_two_kernel tex gm group_size exp_v_fac deltaT
            blockIdx blockDim threadIdx pdata)
  /\ (forall grid threads pdata,
        run_grid (gpu_npt_step_two_kernel_guarded tex gm group_size exp_v_fac deltaT)
          grid threads pdata
        = run_grid (gpu_npt_step_two_kernel tex gm group_size exp_v_fac deltaT)
            grid threads pdata).
Proof.
  intros Hmass.
  assert (Hk : forall blockIdx blockDim threadIdx pdata,
             gpu_npt_step_two_kernel_guarded tex gm group_size exp_v_fac deltaT
               blockIdx blockDim threadIdx pdata
             = gpu_npt_step_two_kernel tex gm group_size exp_v_fac deltaT
                 blockIdx blockDim threadIdx pdata).
  { intros b B t p. unfold gpu_npt_step_two_kernel_guarded, gpu_npt_step_two_kernel.
    set (gi := global_index b B t).
    destruct (Z.ltb_spec (uint gi) group_size) as [Hlt|]; [|reflexivity].
    destruct (load gm gi) as [idx|] eqn:Hl; [|reflexivity].
    assert (Hgi : 0 <= gi) by (apply load_lt in Hl; lia).
    assert (Hu : uint gi = gi) by (apply uint_int_nonneg; exact Hgi).
    assert (Hm := Hmass gi idx ltac:(lia) Hl).
    rewrite !checked_div_nonzero by exact Hm. reflexivity. }
  split; [|split].
  - intros g idx a Hg Hl. apply checked_div_nonzero. exact (Hmass g idx Hg Hl).
  - exact Hk.
  - intros grid threads p. unfold run_grid. apply run_workers_ext.
    intros w s _. apply Hk.
Qed.

Lemma step_two_division_defined_witness :
  let tex := views (bound_with ref_pdata_mass_tex 2 dev_ex) in
  (forall g idx a, 0 <= g < 1 -> load [1] g = Some idx ->
     checked_div a (tex1Dfetch 0%R (pdata_mass_tex tex) (int idx))
     = Some (a / tex1Dfetch 0%R (pdata_mass_tex tex) (int idx))%R)
  /\ (forall blockIdx blockDim threadIdx pdata,
        gpu_npt_step_two_kernel_guarded tex [1] 1 1 1
          blockIdx blockDim threadIdx pdata
        = gpu_npt_step_two_kernel tex [1] 1 1 1
            blockIdx blockDim threadIdx pdata)
  /\ (forall grid threads pdata,
        run_grid (gpu_npt_step_two_kernel_guarded tex [1] 1 1 1)
          grid threads pdata
        = run_grid (gpu_npt_step_two_kernel tex [1] 1 1 1)
            grid threads pdata).
Proof.
  apply (step_two_division_defined
           (views (bound_with ref_pdata_mass_tex 2 dev_ex)) [1] 1 1 1).
  intros g idx Hg Hl.
  assert (g = 0) as -> by lia.
  injection Hl as <-. vm_compute. lra.
Defined.

(** *** Block reductions *)

Lemma sum_upto_ext (f g : nat -> R) (n : nat) :
  (forall t, (t < n)%nat -> f t = g t) -> sum_upto f n = sum_upto g n.
Proof.
  induction n as [|n IH]; intros H; [reflexivity|].
  simpl. rewrite IH by (intros; apply H; lia). rewrite (H n) by lia. reflexivity.
Qed.

Lemma sum_upto_plus (f g : nat -> R) (n : nat) :
  sum_upto (fun t => (f t + g t)%R) n = (sum_upto f n + sum_upto g n)%R.
Proof. induction n as [|n IH]; simpl; [|rewrite IH]; ring. Qed.

Lemma sum_upto_app (f : nat -> R) (m n : nat) :
  sum_upto f (m + n) = (sum_upto f m + sum_upto (fun t => f (t + m)%nat) n)%R.
Proof.
  induction n as [|n IH].
  - rewrite Nat.add_0_r. simpl. ring.
  - rewrite Nat.add_succ_r. simpl. rewrite IH.
    replace (n + m)%nat with (m + n)%nat by lia. ring.
Qed.

(** One halving step keeps the sum of the live half. *)
Lemma sum_upto_halve (f : nat -> R) (m : nat) :
  sum_upto (fun t => (f t + f (t + m)%nat)%R) m = sum_upto f (m + m).
Proof. rewrite sum_upto_plus, sum_upto_app. reflexivity. Qed.

Lemma sum_upto_zero (n : nat) : sum_upto (fun _ => 0%R) n = 0%R.
Proof. induction n as [|n IH]; simpl; [|rewrite IH]; ring. Qed.

Lemma Zpos_pow2 (k : nat) : Zpos (pow2 k) = 2 ^ Z.of_nat k.
Proof.
  induction k as [|k IH]; [reflexivity|].
  rewrite Nat2Z.inj_succ, Z.pow_succ_r by lia.
  change (Zpos (pow2 (S k))) with (2 * Zpos (pow2 k)). rewrite IH. reflexivity.
Qed.

Lemma pow2_to_nat (k : nat) : Pos.to_nat (pow2 k) = (2 ^ k)%nat.
Proof.
  induction k as [|k IH]; [reflexivity|].
  change (pow2 (S k)) with (xO (pow2 k)). rewrite Pos2Nat.inj_xO, IH. simpl. lia.
Qed.

Lemma shared_get_set (s : list R) (i j : nat) (v : R) :
  (i < length s)%nat ->
  shared_get (shared_set s (Z.of_nat i) v) (Z.of_nat j)
  = if Nat.eqb j i then v else shared_get s (Z.of_nat j).
Proof.
  intros Hi. unfold shared_get, shared_set. rewrite !Nat2Z.id.
  destruct (Nat.eqb_spec j i) as [->|Hne].
  - rewrite list_lookup_insert_eq by exact Hi. reflexivity.
  - rewrite list_lookup_insert_ne by lia. reflexivity.
Qed.

Lemma length_shared_set (s : list R) (i : Z) (v : R) :
  length (shared_set s i v) = length s.
Proof. apply length_insert. Qed.

Lemma length_reduce_thread (offs t : Z) (s : list R) :
  length (reduce_thread offs t s) = length s.
Proof.
  unfold reduce_thread. destruct (t <? offs); [apply length_shared_set | reflexivity].
Qed.

(** The phase [if (threadIdx.x < offs) npt_sdata[threadIdx.x] +=
    npt_sdata[threadIdx.x + offs]] run by the first [j] threads. *)
Lemma reduce_threads_lookup (offs : Z) (s : list R) (j : nat) :
  0 < offs ->
  (j <= length s)%nat ->
  let s' := fold_left (fun s t => reduce_thread offs t s) (seqZ 0 (Z.of_nat j)) s in
  length s' = length s
  /\ forall t : nat,
       shared_get s' (Z.of_nat t)
       = if (t <? j)%nat && (Z.of_nat t <? offs)
         then (shared_get s (Z.of_nat t) + shared_get s (Z.of_nat t + offs))%R
         else shared_get s (Z.of_nat t).
Proof.
  intros Hoffs. induction j as [|j IH]; intros Hj; cbv zeta.
  - simpl. split; [reflexivity|]. intros t. reflexivity.
  - destruct (IH ltac:(lia)) as [Hlen Hget]. cbv zeta in Hlen, Hget.
    rewrite seqZ_S, fold_left_app. simpl.
    set (s1 := fold_left (fun s t => reduce_thread offs t s) (seqZ 0 (Z.of_nat j)) s) in *.
    rewrite Z.add_0_l.
    split; [rewrite length_reduce_thread; exact Hlen|].
    intros t. unfold reduce_thread.
    destruct (Z.ltb_spec (Z.of_nat j) offs) as [Hlt|Hge].
    + rewrite shared_get_set by lia.
      destruct (Nat.eqb_spec t j) as [->|Hne].
      * destruct (Nat.ltb_spec j (S j)); [|lia].
        destruct (Z.ltb_spec (Z.of_nat j) offs); [|lia]. simpl.
        rewrite (Hget j).
        destruct (Nat.ltb_spec j j); [lia|]. simpl.
        replace (Z.of_nat j + offs) with (Z.of_nat (j + Z.to_nat offs)) by lia.
        rewrite (Hget (j + Z.to_nat offs)%nat).
        destruct (Nat.ltb_spec (j + Z.to_nat offs) j); [lia|]. reflexivity.
      * rewrite (Hget t).
        destruct (Nat.ltb_spec t j), (Nat.ltb_spec t (S j)); try lia; reflexivity.
    + rewrite (Hget t).
      destruct (Nat.ltb_spec t j), (Nat.ltb_spec t (S j)); try lia; try reflexivity.
      simpl. destruct (Z.ltb_spec (Z.of_nat t) offs); [lia | reflexivity].
Qed.

Lemma length_block_phase_reduce (offs blockDim : Z) (s : list R) :
  length (block_phase (reduce_thread offs) blockDim s) = length s.
Proof.
  unfold block_phase. generalize (seqZ 0 blockDim). intros l. revert s.
  induction l as [|t l IH]; intros s; [reflexivity|].
  simpl. rewrite IH. apply length_reduce_thread.
Qed.

Lemma length_reduce_loop_pos (blockDim : Z) (p : positive) (s : list R) :
  length (reduce_loop_pos blockDim p s) = length s.
Proof.
  revert s. induction p as [p IH|p IH|]; intros s; simpl;
    rewrite ?IH; apply length_block_phase_reduce.
Qed.

Lemma length_reduce_loop (blockDim offs : Z) (s : list R) :
  length (reduce_loop blockDim offs s) = length s.
Proof.
  destruct offs; simpl; [reflexivity | apply length_reduce_loop_pos | reflexivity].
Qed.

(** [reduce_loop] is the loop
    [while (offs > 0) { phase; offs >>= 1; }]. *)
Lemma reduce_loop_unfold (blockDim offs : Z) (s : list R) :
  reduce_loop blockDim offs s
  = if 0 <? offs
    then reduce_loop blockDim (Z.shiftr offs 1)
           (block_phase (reduce_thread offs) blockDim s)
    else s.
Proof.
  destruct offs as [|p|p]; [reflexivity | | reflexivity].
  change (0 <? Z.pos p) with true. cbv iota.
  destruct p as [q|q|]; reflexivity.
Qed.

Example reduce_loop_4 :
  shared_get (reduce_loop 4 (Z.shiftr 4 1) [1; 2; 3; 4]%R) 0 = 10%R.
Proof. lazy -[Rplus IZR]. lra. Qed.

(** A block size that is not a power of two loses a slot. *)
Example reduce_loop_3 :
  shared_get (reduce_loop 3 (Z.shiftr 3 1) [1; 2; 4]%R) 0 = 3%R.
Proof. lazy -[Rplus IZR]. lra. Qed.

Example checked_div_zero : checked_div 1 0 = None.
Proof.
  unfold checked_div. destruct (Req_dec_T 0 0); [reflexivity | contradiction].
Qed.

(** The halving loop started at [offs = 2^k] leaves in slot 0 the sum of the
    first [2^(k+1)] slots. *)
Lemma reduce_loop_pos_sum (k : nat) (s : list R) :
  (2 ^ (S k) <= length s)%nat ->
  shared_get (reduce_loop_pos (Z.of_nat (length s)) (pow2 k) s) 0
  = sum_upto (fun t => shared_get s (Z.of_nat t)) (2 ^ S k).
Proof.
  revert s. induction k as [|k IH]; intros s Hlen.
  - simpl in Hlen. simpl reduce_loop_pos. unfold block_phase.
    destruct (reduce_threads_lookup 1 s (length s) ltac:(lia) ltac:(lia)) as [_ Hget].
    cbv zeta in Hget. specialize (Hget 0%nat).
    change (Z.of_nat 0) with 0 in Hget. rewrite Hget.
    destruct (Nat.ltb_spec 0 (length s)); [|lia]. simpl.
    change (Z.of_nat 0) with 0. change (Z.of_nat 1) with 1. change (0 + 1) with 1. ring.
  - change (pow2 (S k)) with (xO (pow2 k)).
    rewrite (Nat.pow_succ_r' 2 (S k)) in Hlen.
    cbn [reduce_loop_pos]. unfold block_phase.
    destruct (reduce_threads_lookup (Zpos (xO (pow2 k))) s (length s)
                ltac:(lia) ltac:(lia)) as [Hl Hget].
    cbv zeta in Hl, Hget.
    set (s' := fold_left _ _ s) in *.
    rewrite <- Hl. rewrite IH by (rewrite Hl; lia).
    assert (Hoffs : Zpos (xO (pow2 k)) = Z.of_nat (2 ^ S k)).
    { change (xO (pow2 k)) with (pow2 (S k)).
      rewrite <- pow2_to_nat, positive_nat_Z. reflexivity. }
    rewrite (sum_upto_ext _ (fun t => (shared_get s (Z.of_nat t)
                                       + shared_get s (Z.of_nat (t + 2 ^ S k)))%R)).
    + rewrite (sum_upto_halve (fun t => shared_get s (Z.of_nat t))).
      f_equal. rewrite (Nat.pow_succ_r' 2 (S k)).
      generalize (2 ^ S k)%nat. intros x. lia.
    + intros t Ht. rewrite (Hget t), Hoffs.
      destruct (Nat.ltb_spec t (length s)); [|lia].
      destruct (Z.ltb_spec (Z.of_nat t) (Z.of_nat (2 ^ S k))); [|lia].
      cbn [andb]. rewrite Nat2Z.inj_add. reflexivity.
Qed.

Lemma reduce_loop_sum (k : nat) (s : list R) :
  length s = (2 ^ k)%nat ->
  shared_get (reduce_loop (2 ^ Z.of_nat k) (Z.shiftr (2 ^ Z.of_nat k) 1) s) 0
  = sum_upto (fun t => shared_get s (Z.of_nat t)) (2 ^ k).
Proof.
  intros Hlen. destruct k as [|k].
  - change (2 ^ Z.of_nat 0) with 1. change (Z.shiftr 1 1) with 0.
    cbn [reduce_loop]. change (2 ^ 0)%nat with 1%nat. cbn [sum_upto].
    change (Z.of_nat 0) with 0. ring.
  - assert (Hs : Z.shiftr (2 ^ Z.of_nat (S k)) 1 = Zpos (pow2 k)).
    { rewrite Z.shiftr_div_pow2 by lia. rewrite Zpos_pow2.
      rewrite Nat2Z.inj_succ, Z.pow_succ_r by lia.
      change (2 ^ 1) with 2. rewrite Z.mul_comm, Z.div_mul by lia. reflexivity. }
    rewrite Hs. cbn [reduce_loop].
    replace (2 ^ Z.of_nat (S k)) with (Z.of_nat (length s)).
    + apply reduce_loop_pos_sum. lia.
    + rewrite Hlen. rewrite Nat2Z.inj_pow. reflexivity.
Qed.

Lemma run_workers_id {W St : Type} (k : W -> St -> option St) (ws : list W) (st : St) :
  (forall w s, In w ws -> k w s = Some s) -> run_workers k ws st = Some st.
Proof.
  induction ws as [|w ws IH]; intros H; [reflexivity|].
  simpl. rewrite H by (left; reflexivity).
  apply IH. intros w' s Hin. apply H. right. exact Hin.
Qed.

(** The loading phase stores the contribution of every thread. *)
Lemma load_phase_ok (c : Z -> option R) (f : Z -> R) (s : list R) :
  (forall t, 0 <= t < Z.of_nat (length s) -> c t = Some (f t)) ->
  exists s1,
    load_phase c (Z.of_nat (length s)) s = Some s1
    /\ length s1 = length s
    /\ forall t : nat, (t < length s)%nat -> shared_get s1 (Z.of_nat t) = f (Z.of_nat t).
Proof.
  intros Hc. unfold load_phase.
  destruct (run_workers_fold
              (fun threadIdx s0 => match c threadIdx with
                                   | Some c0 => Some (shared_set s0 threadIdx c0)
                                   | None => None
                                   end)
              (fun t s0 => shared_set s0 t (f t))
              (fun s0 => length s0 = length s)
              (seqZ 0 (Z.of_nat (length s))) s) as [Hrun Hlen].
  { reflexivity. }
  { intros t s0 Hin Hs0. apply list_elem_of_In, elem_of_seqZ in Hin.
    rewrite Hc by lia. split; [reflexivity|]. rewrite length_shared_set. exact Hs0. }
  eexists. split; [exact Hrun|]. split; [exact Hlen|].
  intros t Ht.
  change (fold_left (fun s0 t0 => shared_set s0 t0 (f t0)) (seqZ 0 (Z.of_nat (length s))) s)
    with (scatter (fun t0 : Z => Some t0) f (seqZ 0 (Z.of_nat (length s))) s).
  unfold shared_get.
  rewrite (lookup_scatter_hit (fun t0 : Z => Some t0) f _ s (Z.of_nat t) (Z.of_nat t)).
  - reflexivity.
  - intros w j Hin [= <-]. apply list_elem_of_In, elem_of_seqZ in Hin. lia.
  - apply list_elem_of_In, elem_of_seqZ. lia.
  - reflexivity.
  - lia.
Qed.

(** The writing phase: thread 0 stores slot 0 of the scratch buffer. *)
Lemma write_phase_ok (b B : Z) (s out : list R) :
  1 <= B -> 0 <= b < Z.of_nat (length out) ->
  write_phase b B s out = Some (<[Z.to_nat b := shared_get s 0]> out).
Proof.
  intros HB Hb. unfold write_phase.
  rewrite seqZ_cons by lia. simpl. rewrite store_Some by exact Hb.
  apply run_workers_id. intros t o Hin.
  apply list_elem_of_In, elem_of_seqZ in Hin.
  destruct (Z.eqb_spec t 0); [lia | reflexivity].
Qed.

(** One pass over a block of [2^k] threads writes the sum of the
    contributions of its threads in slot [b] of the partial sums. *)
Lemma reduction_pass_ok (c : Z -> option R) (f : Z -> R) (k : nat) (b : Z)
    (s out : list R) :
  length s = (2 ^ k)%nat ->
  (forall t, 0 <= t < 2 ^ Z.of_nat k -> c t = Some (f t)) ->
  0 <= b < Z.of_nat (length out) ->
  exists s2,
    reduction_pass c b (2 ^ Z.of_nat k) s out
    = Some (s2, <[Z.to_nat b := sum_upto (fun t => f (Z.of_nat t)) (2 ^ k)]> out)
    /\ length s2 = (2 ^ k)%nat.
Proof.
  intros Hlen Hc Hb.
  assert (HB : 2 ^ Z.of_nat k = Z.of_nat (length s))
    by (rewrite Hlen, Nat2Z.inj_pow; reflexivity).
  destruct (load_phase_ok c f s) as (s1 & Hload & Hl1 & Hget).
  { intros t Ht. apply Hc. lia. }
  unfold reduction_pass. rewrite HB, Hload. rewrite <- HB.
  rewrite write_phase_ok; [|lia|exact Hb].
  eexists. split.
  - rewrite reduce_loop_sum by lia.
    do 3 f_equal. apply sum_upto_ext. intros t Ht. apply Hget. lia.
  - rewrite length_reduce_loop. lia.
Qed.

Lemma pow2_Z_to_nat (k : nat) : Z.to_nat (2 ^ Z.of_nat k) = (2 ^ k)%nat.
Proof.
  change 2 with (Z.of_nat 2). rewrite <- Nat2Z.inj_pow. apply Nat2Z.id.
Qed.

Lemma length_scratch (rt : cuda_runtime) (B b : Z) :
  length (scratch rt B b) = Z.to_nat B.
Proof. unfold scratch. rewrite length_map. apply length_seqZ. Qed.

(** The contribution a thread of [gpu_npt_group_temperature_kernel] loads. *)
Lemma group_temperature_psq2_ok (tex : textures) (m : device_memory)
    (group_size num_blocks B b t : Z) :
  pdata_vel_tex tex = pd.vel (pdata m) ->
  pdata_mass_tex tex = pd.mass (pdata m) ->
  pdata_wf (pdata m) -> group_wf m group_size ->
  0 < B -> num_blocks * B <= 2 ^ 31 ->
  0 <= b < num_blocks -> 0 <= t < B ->
  group_temperature_psq2 tex (d_group_members m) group_size b B t
  = Some (group_2K m group_size (b * B + t)).
Proof.
  intros Tv Tm (Hloc & HN & _) (Hgs & Hmem & Huniq) HB Hmax Hb Ht.
  assert (Hin : In (b, t) (workers num_blocks B)) by (apply in_workers; lia).
  destruct (worker_index_bounds _ _ _ HB Hmax Hin) as (Hr & Hg & Hu). simpl in Hr, Hg, Hu.
  unfold group_temperature_psq2, group_2K. rewrite Hg, Hu.
  destruct (Z.ltb_spec (b * B + t) group_size) as [Hlt|]; [|reflexivity].
  destruct (load_is_Some (d_group_members m) (b * B + t) ltac:(lia)) as [idx Hidx].
  rewrite Hidx.
  assert (Hi : 0 <= idx < pd.N (pdata m)).
  { eapply group_member_bounds; [exact Hmem | | exact Hidx]. lia. }
  rewrite int_small by lia. rewrite Tv, Tm. reflexivity.
Qed.

(** The contributions a thread of [gpu_npt_pressure_kernel2] loads. *)
Lemma pressure_contributions_ok (m : device_memory) (num_blocks B b t : Z) :
  pdata_wf (pdata m) ->
  pd.local_num (pdata m) <= Z.of_nat (length (d_net_virial m)) ->
  0 < B -> num_blocks * B <= 2 ^ 31 ->
  0 <= b < num_blocks -> 0 <= t < B ->
  pressure_virial (pdata m) (d_net_virial m) b B t = Some (particle_W m (b * B + t))
  /\ pressure_psq2 (pdata m) b B t = Some (particle_2K m (b * B + t)).
Proof.
  intros (Hloc & HN & Lpos & Lvel & Lacc & Lmass & Limg) Hvir HB Hmax Hb Ht.
  assert (Hin : In (b, t) (workers num_blocks B)) by (apply in_workers; lia).
  destruct (worker_index_bounds _ _ _ HB Hmax Hin) as (Hr & Hg & Hu). simpl in Hr, Hg, Hu.
  unfold pressure_virial, pressure_psq2, particle_W, particle_2K. rewrite Hg, Hu.
  destruct (Z.ltb_spec (b * B + t) (pd.local_num (pdata m))) as [Hlt|];
    [|split; reflexivity].
  destruct (load_is_Some (d_net_virial m) (b * B + t) ltac:(lia)) as [vir Hvir'].
  destruct (load_is_Some (pd.vel (pdata m)) (b * B + t) ltac:(lia)) as [v Hv].
  destruct (load_is_Some (pd.mass (pdata m)) (b * B + t) ltac:(lia)) as [ms Hms].
  rewrite Hvir', Hv, Hms. unfold particle_two_K.
  rewrite (tex1Dfetch_load _ _ _ _ Hvir'), (tex1Dfetch_load _ _ _ _ Hv),
    (tex1Dfetch_load _ _ _ _ Hms).
  split; reflexivity.
Qed.

(** A launch whose block [b] stores [S b] in slot [b]. *)
Lemma run_blocks_slots (kernel : Z -> Z -> list R -> list R -> option (list R))
    (scr : Z -> list R) (total : Z -> R) (grid threads : Z) (out : list R) :
  grid <= Z.of_nat (length out) ->
  (forall b o, 0 <= b < grid -> length o = length out ->
               kernel b threads (scr b) o = Some (<[Z.to_nat b := total b]> o)) ->
  exists out',
    run_blocks kernel scr grid threads out = Some out'
    /\ forall b, 0 <= b < grid -> load out' b = Some (total b).
Proof.
  intros Hgrid Hk. unfold run_blocks.
  destruct (run_workers_fold
              (fun b => kernel b threads (scr b))
              (fun b o => <[Z.to_nat b := total b]> o)
              (fun o => length o = length out)
              (seqZ 0 grid) out) as [Hrun _].
  { reflexivity. }
  { intros b o Hin Ho. apply list_elem_of_In, elem_of_seqZ in Hin.
    split; [apply Hk; [lia | exact Ho]|]. rewrite length_insert. exact Ho. }
  eexists. split; [exact Hrun|].
  intros b Hb. apply load_Some. split; [lia|].
  change (fold_left (fun o b0 => <[Z.to_nat b0 := total b0]> o) (seqZ 0 grid) out)
    with (scatter (fun b0 : Z => Some b0) total (seqZ 0 grid) out).
  apply (lookup_scatter_hit (fun b0 : Z => Some b0) total _ out b b).
  - intros w j Hin [= <-]. apply list_elem_of_In, elem_of_seqZ in Hin. lia.
  - apply list_elem_of_In, elem_of_seqZ. lia.
  - reflexivity.
  - lia.
Qed.

(** The same for a kernel with two arrays of partial sums. *)
Lemma run_blocks_slots2
    (kernel : Z -> Z -> list R -> list R * list R -> option (list R * list R))
    (scr : Z -> list R) (total1 total2 : Z -> R) (grid threads : Z) (out : list R * list R) :
  grid <= Z.of_nat (length (fst out)) ->
  grid <= Z.of_nat (length (snd out)) ->
  (forall b o, 0 <= b < grid ->
               length (fst o) = length (fst out) -> length (snd o) = length (snd out) ->
               kernel b threads (scr b) o
               = Some (<[Z.to_nat b := total1 b]> (fst o), <[Z.to_nat b := total2 b]> (snd o))) ->
  exists out',
    run_blocks kernel scr grid threads out = Some out'
    /\ forall b, 0 <= b < grid ->
         load (fst out') b = Some (total1 b) /\ load (snd out') b = Some (total2 b).
Proof.
  intros Hg1 Hg2 Hk. unfold run_blocks.
  destruct (run_workers_fold
              (fun b => kernel b threads (scr b))
              (fun b o => (<[Z.to_nat b := total1 b]> (fst o), <[Z.to_nat b := total2 b]> (snd o)))
              (fun o => length (fst o) = length (fst out)
                        /\ length (snd o) = length (snd out))
              (seqZ 0 grid) out) as [Hrun _].
  { split; reflexivity. }
  { intros b o Hin [Ho1 Ho2]. apply list_elem_of_In, elem_of_seqZ in Hin.
    split; [apply Hk; [lia | exact Ho1 | exact Ho2]|].
    simpl. rewrite !length_insert. split; assumption. }
  eexists. split; [exact Hrun|].
  assert (Hproj : forall (l : list Z) o,
             fst (fold_left (fun o b => (<[Z.to_nat b := total1 b]> (fst o),
                                         <[Z.to_nat b := total2 b]> (snd o))) l o)
             = scatter (fun b0 : Z => Some b0) total1 l (fst o)
             /\ snd (fold_left (fun o b => (<[Z.to_nat b := total1 b]> (fst o),
                                            <[Z.to_nat b := total2 b]> (snd o))) l o)
                = scatter (fun b0 : Z => Some b0) total2 l (snd o)).
  { induction l as [|b l IH]; intros o; [split; reflexivity|].
    simpl. destruct (IH (<[Z.to_nat b := total1 b]> (fst o), <[Z.to_nat b := total2 b]> (snd o)))
      as [-> ->]. split; reflexivity. }
  destruct (Hproj (seqZ 0 grid) out) as [-> ->].
  intros b Hb. split; apply load_Some; (split; [lia|]).
  - apply (lookup_scatter_hit (fun b0 : Z => Some b0) total1 _ (fst out) b b).
    + intros w j Hin [= <-]. apply list_elem_of_In, elem_of_seqZ in Hin. lia.
    + apply list_elem_of_In, elem_of_seqZ. lia.
    + reflexivity.
    + lia.
  - apply (lookup_scatter_hit (fun b0 : Z => Some b0) total2 _ (snd out) b b).
    + intros w j Hin [= <-]. apply list_elem_of_In, elem_of_seqZ in Hin. lia.
    + apply list_elem_of_In, elem_of_seqZ. lia.
    + reflexivity.
    + lia.
Qed.

Lemma pow2_pos (k : nat) : 0 < 2 ^ Z.of_nat k.
Proof. apply Z.pow_pos_nonneg; lia. Qed.

(** One block of [gpu_npt_group_temperature_kernel]. *)
Lemma gpu_npt_group_temperature_kernel_ok (tex : textures) (m : device_memory)
    (group_size num_blocks b : Z) (k : nat) (scr out : list R) :
  pdata_vel_tex tex = pd.vel (pdata m) ->
  pdata_mass_tex tex = pd.mass (pdata m) ->
  pdata_wf (pdata m) -> group_wf m group_size ->
  num_blocks * 2 ^ Z.of_nat k <= 2 ^ 31 ->
  0 <= b < num_blocks -> b < Z.of_nat (length out) ->
  length scr = (2 ^ k)%nat ->
  gpu_npt_group_temperature_kernel tex (d_group_members m) group_size
    b (2 ^ Z.of_nat k) scr out
  = Some (<[Z.to_nat b := block_sum (group_2K m group_size) b (2 ^ Z.of_nat k)]> out).
Proof.
  intros Tv Tm Hwf Hgwf Hmax Hb Hout Hscr.
  unfold gpu_npt_group_temperature_kernel.
  destruct (reduction_pass_ok
              (group_temperature_psq2 tex (d_group_members m) group_size b (2 ^ Z.of_nat k))
              (fun t => group_2K m group_size (b * 2 ^ Z.of_nat k + t))
              k b scr out Hscr) as (s2 & -> & _).
  - intros t Ht.
    apply (group_temperature_psq2_ok tex m group_size num_blocks); auto using pow2_pos.
  - lia.
  - unfold block_sum. rewrite pow2_Z_to_nat. reflexivity.
Qed.

(** One block of [gpu_npt_pressure_kernel2]. *)
Lemma gpu_npt_pressure_kernel2_ok (m : device_memory)
    (num_blocks b : Z) (k : nat) (scr out2K outW : list R) :
  pdata_wf (pdata m) ->
  pd.local_num (pdata m) <= Z.of_nat (length (d_net_virial m)) ->
  num_blocks * 2 ^ Z.of_nat k <= 2 ^ 31 ->
  0 <= b < num_blocks ->
  b < Z.of_nat (length out2K) -> b < Z.of_nat (length outW) ->
  length scr = (2 ^ k)%nat ->
  gpu_npt_pressure_kernel2 (pdata m) (d_net_virial m) b (2 ^ Z.of_nat k) scr
    (out2K, outW)
  = Some (<[Z.to_nat b := block_sum (particle_2K m) b (2 ^ Z.of_nat k)]> out2K,
          <[Z.to_nat b := block_sum (particle_W m) b (2 ^ Z.of_nat k)]> outW).
Proof.
  intros Hwf Hvir Hmax Hb H2K HW Hscr.
  unfold gpu_npt_pressure_kernel2.
  destruct (reduction_pass_ok
              (pressure_virial (pdata m) (d_net_virial m) b (2 ^ Z.of_nat k))
              (fun t => particle_W m (b * 2 ^ Z.of_nat k + t))
              k b scr outW Hscr) as (s2 & -> & Hs2).
  - intros t Ht.
    apply (pressure_contributions_ok m num_blocks); auto using pow2_pos.
  - lia.
  - destruct (reduction_pass_ok
                (pressure_psq2 (pdata m) b (2 ^ Z.of_nat k))
                (fun t => particle_2K m (b * 2 ^ Z.of_nat k + t))
                k b s2 out2K Hs2) as (s3 & -> & _).
    + intros t Ht.
      apply (pressure_contributions_ok m num_blocks); auto using pow2_pos.
    + lia.
    + unfold block_sum. rewrite pow2_Z_to_nat. reflexivity.
Qed.

(** The partial sums [gpu_npt_group_temperature] leaves. *)
Lemma gpu_npt_group_temperature_slots (rt : cuda_runtime) (chk : bool) (d : device)
    (group_size num_blocks : Z) (k : nat) :
  pdata_wf (pdata (mem d)) ->
  group_wf (mem d) group_size ->
  num_blocks * 2 ^ Z.of_nat k <= 2 ^ 31 ->
  num_blocks <= Z.of_nat (length (d_partial_sum2K (mem d))) ->
  bind_result rt ref_pdata_vel_tex = cudaSuccess ->
  bind_result rt ref_pdata_mass_tex = cudaSuccess ->
  launch_result rt group_temperature_kernel num_blocks (2 ^ Z.of_nat k) = cudaSuccess ->
  forall b, 0 <= b < num_blocks ->
    load (d_partial_sum2K
            (mem (snd (gpu_npt_group_temperature rt chk group_size (2 ^ Z.of_nat k)
                         num_blocks d)))) b
    = Some (block_sum (group_2K (mem d) group_size) b (2 ^ Z.of_nat k)).
Proof.
  intros Hwf Hgwf Hmax Hout Bvel Bmass Hlaunch.
  set (m := mem d) in *. set (pdt := pdata m) in *. set (B := 2 ^ Z.of_nat k) in *.
  set (dev := bound_with ref_pdata_mass_tex (pd.N pdt)
                (bound_with ref_pdata_vel_tex (pd.N pdt) d)).
  set (tx := views dev).
  assert (Tv : pdata_vel_tex tx = pd.vel pdt /\ pdata_mass_tex tx = pd.mass pdt).
  { destruct Hwf as (Hloc & HN & Lpos & Lvel & Lacc & Lmass & Limg).
    unfold tx, views. cbn. fold m. fold pdt. rewrite !firstn_all2 by lia.
    split; reflexivity. }
  destruct Tv as [Tv Tm].
  destruct (run_blocks_slots
              (gpu_npt_group_temperature_kernel tx (d_group_members m) group_size)
              (scratch rt B) (fun b => block_sum (group_2K m group_size) b B)
              num_blocks B (d_partial_sum2K m) Hout) as (out' & Hrun & Hslots).
  { intros b o Hb Ho.
    apply (gpu_npt_group_temperature_kernel_ok tx m group_size num_blocks b k);
      try assumption; [lia|].
    rewrite length_scratch. apply pow2_Z_to_nat. }
  assert (Hd' : mem (snd (gpu_npt_group_temperature rt chk group_size B num_blocks d))
                = set_partial_sum2K out' m).
  { unfold gpu_npt_group_temperature, get_pdata. unfold bind at 1.
    bindings_succeed.
    apply mem_launch_epilogue; [exact Hlaunch|].
    fold m pdt dev tx. change (mem dev) with m.
    rewrite Hrun. reflexivity. }
  intros b Hb. rewrite Hd'. cbn [d_partial_sum2K set_partial_sum2K].
  apply Hslots. exact Hb.
Qed.

(** The partial sums [gpu_npt_pressure2] leaves. *)
Lemma gpu_npt_pressure2_slots (rt : cuda_runtime) (chk : bool) (d : device)
    (num_blocks : Z) (k : nat) :
  pdata_wf (pdata (mem d)) ->
  pd.local_num (pdata (mem d)) <= Z.of_nat (length (d_net_virial (mem d))) ->
  num_blocks * 2 ^ Z.of_nat k <= 2 ^ 31 ->
  num_blocks <= Z.of_nat (length (d_partial_sum2K (mem d))) ->
  num_blocks <= Z.of_nat (length (d_partial_sumW (mem d))) ->
  launch_result rt pressure_kernel2 num_blocks (2 ^ Z.of_nat k) = cudaSuccess ->
  forall b, 0 <= b < num_blocks ->
    let m' := mem (snd (gpu_npt_pressure2 rt chk (2 ^ Z.of_nat k) num_blocks d)) in
    load (d_partial_sum2K m') b
    = Some (block_sum (particle_2K (mem d)) b (2 ^ Z.of_nat k))
    /\ load (d_partial_sumW m') b
       = Some (block_sum (particle_W (mem d)) b (2 ^ Z.of_nat k)).
Proof.
  intros Hwf Hvir Hmax Hout2K HoutW Hlaunch.
  set (m := mem d) in *. set (B := 2 ^ Z.of_nat k) in *.
  destruct (run_blocks_slots2
              (gpu_npt_pressure_kernel2 (pdata m) (d_net_virial m))
              (scratch rt B)
              (fun b => block_sum (particle_2K m) b B)
              (fun b => block_sum (particle_W m) b B)
              num_blocks B (d_partial_sum2K m, d_partial_sumW m) Hout2K HoutW)
    as ([out2K outW] & Hrun & Hslots).
  { intros b [o1 o2] Hb Ho1 Ho2. simpl in Ho1, Ho2 |- *.
    apply (gpu_npt_pressure_kernel2_ok m num_blocks b k); try assumption; try lia.
    rewrite length_scratch. apply pow2_Z_to_nat. }
  assert (Hd' : mem (snd (gpu_npt_pressure2 rt chk B num_blocks d))
                = set_partial_sumW outW (set_partial_sum2K out2K m)).
  { unfold gpu_npt_pressure2.
    apply mem_launch_epilogue; [exact Hlaunch|].
    fold m. rewrite Hrun. reflexivity. }
  intros b Hb. cbv zeta. rewrite Hd'.
  cbn [d_partial_sum2K d_partial_sumW set_partial_sum2K set_partial_sumW].
  apply (Hslots b Hb).
Qed.

Lemma Rsum_cons (a : R) (l : list R) : Rsum (a :: l) = (a + Rsum l)%R.
Proof. reflexivity. Qed.

Lemma Rsum_app (l1 l2 : list R) : Rsum (l1 ++ l2) = (Rsum l1 + Rsum l2)%R.
Proof.
  induction l1 as [|a l1 IH].
  - change (Rsum []) with 0%R. simpl. ring.
  - rewrite <- app_comm_cons, !Rsum_cons, IH. ring.
Qed.

Lemma sum_upto_tail_zero (f : nat -> R) (j n : nat) :
  (j <= n)%nat -> (forall t, (j <= t < n)%nat -> f t = 0%R) ->
  sum_upto f n = sum_upto f j.
Proof.
  intros Hj Hz. induction n as [|n IH].
  - replace j with 0%nat by lia. reflexivity.
  - destruct (Nat.eq_dec j (S n)) as [->|Hne]; [reflexivity|].
    simpl. rewrite IH by (try lia; intros; apply Hz; lia).
    rewrite (Hz n) by lia. ring.
Qed.

Lemma sum_upto_members (F : Z -> R) (gm : list Z) (j : nat) :
  (j <= length gm)%nat ->
  sum_upto (fun t => match gm !! t with Some idx => F idx | None => 0%R end) j
  = Rsum (map F (take j gm)).
Proof.
  induction j as [|j IH]; intros Hj; [reflexivity|].
  destruct (lookup_lt_is_Some_2 gm j ltac:(lia)) as [idx Hidx].
  rewrite (take_S_r _ _ _ Hidx), map_app, Rsum_app.
  cbn [sum_upto map]. rewrite IH by lia. rewrite Hidx.
  rewrite Rsum_cons. change (Rsum []) with 0%R. ring.
Qed.

(** The sum of a single block that holds the whole group. *)
Lemma block_sum_group (m : device_memory) (group_size B : Z) :
  0 <= group_size <= Z.of_nat (length (d_group_members m)) ->
  group_size <= B ->
  block_sum (group_2K m group_size) 0 B
  = Rsum (map (particle_two_K (pdata m))
            (take (Z.to_nat group_size) (d_group_members m))).
Proof.
  intros Hgs HB. unfold block_sum.
  rewrite (sum_upto_tail_zero _ (Z.to_nat group_size)); [|lia|].
  - rewrite <- sum_upto_members by lia.
    apply sum_upto_ext. intros t Ht. unfold group_2K.
    destruct (Z.ltb_spec (0 * B + Z.of_nat t) group_size); [|lia].
    unfold load. destruct (Z.ltb_spec (0 * B + Z.of_nat t) 0); [lia|].
    replace (Z.to_nat (0 * B + Z.of_nat t)) with t by lia. reflexivity.
  - intros t Ht. unfold group_2K.
    destruct (Z.ltb_spec (0 * B + Z.of_nat t) group_size); [lia | reflexivity].
Qed.

(** C4.  For a block size [2^k], the block-local halving loop of each
    reduction kernel leaves in slot [b] of the partial sums, written by
    thread 0 of block [b], exactly the sum of the contributions of the
    workers of block [b], a worker whose global index is out of range
    ([>= group_size] in [gpu_npt_group_temperature_kernel],
    [>= local_num] in [gpu_npt_pressure_kernel2]) contributing zero; for a
    group that fits one block, the partial 2K sum of block 0 is the sum of
    [mass_i |velocity_i|^2] over the group members. *)
Theorem block_reduction_sums (rt : cuda_runtime) (chk : bool) (d : device)
    (group_size num_blocks : Z) (k : nat) :
  let B := 2 ^ Z.of_nat k in
  let m := mem d in
  pdata_wf (pdata m) ->
  group_wf m group_size ->
  pd.local_num (pdata m) <= Z.of_nat (length (d_net_virial m)) ->
  num_blocks * B <= 2 ^ 31 ->
  num_blocks <= Z.of_nat (length (d_partial_sum2K m)) ->
  num_blocks <= Z.of_nat (length (d_partial_sumW m)) ->
  bind_result rt ref_pdata_vel_tex = cudaSuccess ->
  bind_result rt ref_pdata_mass_tex = cudaSuccess ->
  launch_result rt group_temperature_kernel num_blocks B = cudaSuccess ->
  launch_result rt pressure_kernel2 num_blocks B = cudaSuccess ->
  let mg := mem (snd (gpu_npt_group_temperature rt chk group_size B num_blocks d)) in
  let mp := mem (snd (gpu_npt_pressure2 rt chk B num_blocks d)) in
  (forall b, 0 <= b < num_blocks ->
     load (d_partial_sum2K mg) b = Some (block_sum (group_2K m group_size) b B)
     /\ load (d_partial_sum2K mp) b = Some (block_sum (particle_2K m) b B)
     /\ load (d_partial_sumW mp) b = Some (block_sum (particle_W m) b B))
  /\ (group_size <= B -> 1 <= num_blocks ->
      load (d_partial_sum2K mg) 0
      = Some (Rsum (map (particle_two_K (pdata m))
                      (take (Z.to_nat group_size) (d_group_members m))))).
Proof.
  intros B m Hwf Hgwf Hvir Hmax Hout2K HoutW Bvel Bmass Lg Lp mg mp.
  pose proof (gpu_npt_group_temperature_slots rt chk d group_size num_blocks k
                Hwf Hgwf Hmax Hout2K Bvel Bmass Lg) as Hg.
  pose proof (gpu_npt_pressure2_slots rt chk d num_blocks k
                Hwf Hvir Hmax Hout2K HoutW Lp) as Hp.
  split.
  - intros b Hb. split; [exact (Hg b Hb)|]. exact (Hp b Hb).
  - intros Hfit Hnb. unfold mg, B. rewrite (Hg 0 ltac:(lia)).
    f_equal. apply block_sum_group; [apply Hgwf | exact Hfit].
Qed.

Lemma block_reduction_sums_witness :
  let mg := mem (snd (gpu_npt_group_temperature rt_ok true 1 (2 ^ Z.of_nat 1) 1 dev_ex)) in
  let mp := mem (snd (gpu_npt_pressure2 rt_ok true (2 ^ Z.of_nat 1) 1 dev_ex)) in
  (forall b, 0 <= b < 1 ->
     load (d_partial_sum2K mg) b
     = Some (block_sum (group_2K mem_ex 1) b (2 ^ Z.of_nat 1))
     /\ load (d_partial_sum2K mp) b
        = Some (block_sum (particle_2K mem_ex) b (2 ^ Z.of_nat 1))
     /\ load (d_partial_sumW mp) b
        = Some (block_sum (particle_W mem_ex) b (2 ^ Z.of_nat 1)))
  /\ (1 <= 2 ^ Z.of_nat 1 -> 1 <= 1 ->
      load (d_partial_sum2K mg) 0
      = Some (Rsum (map (particle_two_K pdata_ex) (take (Z.to_nat 1) [1])))).
Proof.
  apply (block_reduction_sums rt_ok true dev_ex 1 1 1 pdata_ex_wf mem_ex_group_wf).
  - simpl. lia.
  - vm_compute. discriminate.
  - simpl. lia.
  - simpl. lia.
  - reflexivity.
  - reflexivity.
  - reflexivity.
  - reflexivity.
Defined.

(** ** The launch drivers *)

Lemma run_driver_shape (rt : cuda_runtime) (chk : bool) (dr : driver) (d : device) :
  run_driver rt chk dr d = launch_driver rt chk dr d.
Proof. destruct dr; reflexivity. Qed.

Lemma bound_all_snoc (ts : list texture_ref) (t : texture_ref) (n : Z) (d : device) :
  bound_all (ts ++ [t]) n d = bound_with t n (bound_all ts n d).
Proof. unfold bound_all. rewrite fold_left_app. reflexivity. Qed.

Lemma bound_all_facts (ts : list texture_ref) (n : Z) (d : device) :
  mem (bound_all ts n d) = mem d
  /\ last_error (bound_all ts n d) = last_error d
  /\ pending_fault (bound_all ts n d) = pending_fault d
  /\ trace (bound_all ts n d) = trace d ++ map EvBindTexture ts.
Proof.
  revert d. induction ts as [|t ts IH]; intros d.
  - simpl. rewrite app_nil_r. repeat split.
  - change (bound_all (t :: ts) n d) with (bound_all ts n (bound_with t n d)).
    destruct (IH (bound_with t n d)) as (-> & -> & -> & ->).
    simpl. rewrite <- app_assoc. repeat split.
Qed.

Lemma bind_textures_ok (rt : cuda_runtime) (ts : list texture_ref) (n : Z)
    (k : M cudaError_t) (d : device) :
  (forall t, In t ts -> bind_result rt t = cudaSuccess) ->
  bind_textures rt ts n k d = k (bound_all ts n d).
Proof.
  revert d. induction ts as [|t ts IH]; intros d Hok; [reflexivity|].
  cbn [bind_textures]. rewrite bind_texture_ok by (apply Hok; left; reflexivity).
  cbn beta iota delta [is_success negb].
  apply IH. intros t' Hin. apply Hok. right. exact Hin.
Qed.

Lemma bind_textures_fail (rt : cuda_runtime) (ts1 ts2 : list texture_ref)
    (t : texture_ref) (n : Z) (k : M cudaError_t) (d : device) :
  (forall t', In t' ts1 -> bind_result rt t' = cudaSuccess) ->
  bind_result rt t <> cudaSuccess ->
  bind_textures rt (ts1 ++ t :: ts2) n k d
  = (bind_result rt t,
     mk_device (mem d) (bound (bound_all ts1 n d)) (bind_result rt t)
       (pending_fault d) (trace d ++ map EvBindTexture (ts1 ++ [t]))).
Proof.
  revert d. induction ts1 as [|t1 ts1 IH]; intros d Hok Hfail.
  - cbn [app bind_textures]. unfold bind.
    rewrite cudaBindTexture_error by exact Hfail.
    destruct (bind_result rt t); [contradiction | reflexivity].
  - cbn [app bind_textures]. rewrite bind_texture_ok by (apply Hok; left; reflexivity).
    cbn beta iota delta [is_success negb].
    rewrite IH; [|intros t' Hin; apply Hok; right; exact Hin | exact Hfail].
    change (bound_all (t1 :: ts1) n d) with (bound_all ts1 n (bound_with t1 n d)).
    simpl. rewrite <- app_assoc. reflexivity.
Qed.

Lemma cudaLaunch_facts (rt : cuda_runtime) (k : kernel_name) (grid threads : Z)
    (body : textures -> device_memory -> option device_memory) (d : device) :
  let d1 := snd (cudaLaunch rt k grid threads body d) in
  trace d1 = trace d ++ [EvLaunch k grid threads]
  /\ match launch_result rt k grid threads with
     | cudaSuccess =>
         match body (views d) (mem d) with
         | Some m' => mem d1 = m' /\ last_error d1 = last_error d
                      /\ pending_fault d1 = pending_fault d
         | None => mem d1 = mem d /\ pending_fault d1 = cudaErrorLaunchFailure
         end
     | e => mem d1 = mem d /\ last_error d1 = e /\ pending_fault d1 = pending_fault d
     end.
Proof.
  unfold cudaLaunch. cbv zeta.
  change (views (log (EvLaunch k grid threads) d)) with (views d).
  change (mem (log (EvLaunch k grid threads) d)) with (mem d).
  destruct (launch_result rt k grid threads).
  - destruct (body (views d) (mem d)); repeat split.
  - repeat split.
Qed.

(** The epilogue with checking disabled: success, and no further call. *)
Lemma epilogue_unchecked (d : device) : driver_epilogue false d = (cudaSuccess, d).
Proof. reflexivity. Qed.

(** The epilogue with checking enabled: synchronise, then report the pending
    fault if there is one, the last error otherwise. *)
Lemma epilogue_checked (d : device) :
  fst (driver_epilogue true d)
  = match pending_fault d with cudaSuccess => last_error d | e => e end
  /\ trace (snd (driver_epilogue true d))
     = trace d ++ [EvThreadSynchronize; EvGetLastError]
  /\ mem (snd (driver_epilogue true d)) = mem d.
Proof.
  unfold driver_epilogue, bind, cudaThreadSynchronize, cudaGetLastError. simpl.
  destruct (pending_fault d); simpl; rewrite <- app_assoc; repeat split.
Qed.

(** A driver whose bindings succeed: its status and its runtime calls in
    both modes. *)
Lemma launch_driver_ok (rt : cuda_runtime) (dr : driver) (d : device) :
  (forall t, In t (driver_textures dr) -> bind_result rt t = cudaSuccess) ->
  let k := driver_kernel dr in
  let grid := driver_grid dr d in
  let threads := driver_threads dr in
  let dev := bound_all (driver_textures dr) (pd.N (pdata (mem d))) d in
  fst (run_driver rt false dr d) = cudaSuccess
  /\ trace (snd (run_driver rt false dr d))
     = trace d ++ map EvBindTexture (driver_textures dr) ++ [EvLaunch k grid threads]
  /\ trace (snd (run_driver rt true dr d))
     = trace d ++ map EvBindTexture (driver_textures dr)
       ++ [EvLaunch k grid threads; EvThreadSynchronize; EvGetLastError]
  /\ fst (run_driver rt true dr d)
     = match launch_result rt k grid threads with
       | cudaSuccess =>
           match driver_body rt dr d (views dev) (mem d) with
           | None => cudaErrorLaunchFailure
           | Some _ =>
               match pending_fault d with cudaSuccess => last_error d | e => e end
           end
       | e => match pending_fault d with cudaSuccess => e | e' => e' end
       end.
Proof.
  intros Hok k grid threads dev.
  rewrite !run_driver_shape. unfold launch_driver.
  rewrite !bind_textures_ok by exact Hok. fold k grid threads dev.
  destruct (bound_all_facts (driver_textures dr) (pd.N (pdata (mem d))) d)
    as (Hm & He & Hp & Ht). fold dev in Hm, He, Hp, Ht.
  destruct (cudaLaunch_facts rt k grid threads (driver_body rt dr d) dev) as [Htr Hl].
  cbv zeta in Htr, Hl.
  unfold bind at 1 2 3 4.
  destruct (cudaLaunch rt k grid threads (driver_body rt dr d) dev) as [u d1] eqn:Hd1.
  cbn [snd] in Htr, Hl. rewrite !epilogue_unchecked.
  destruct (epilogue_checked d1) as (Hs & Htc & _). rewrite Hs, Htc.
  cbn [fst snd]. rewrite Htr, Ht, Hm in *. rewrite <- !app_assoc.
  split; [reflexivity|]. split; [reflexivity|]. split; [reflexivity|].
  destruct (launch_result rt k grid threads).
  - destruct (driver_body rt dr d (views dev) (mem d)).
    + destruct Hl as (_ & -> & ->). rewrite Hp, He. reflexivity.
    + destruct Hl as (_ & ->). reflexivity.
  - destruct Hl as (_ & -> & ->). rewrite Hp. reflexivity.
Qed.

(** A driver one of whose bindings fails. *)
Lemma launch_driver_bind_fail (rt : cuda_runtime) (chk : bool) (dr : driver)
    (d : device) (ts1 ts2 : list texture_ref) (t : texture_ref) :
  driver_textures dr = ts1 ++ t :: ts2 ->
  (forall t', In t' ts1 -> bind_result rt t' = cudaSuccess) ->
  bind_result rt t <> cudaSuccess ->
  fst (run_driver rt chk dr d) = bind_result rt t
  /\ mem (snd (run_driver rt chk dr d)) = mem d
  /\ trace (snd (run_driver rt chk dr d)) = trace d ++ map EvBindTexture (ts1 ++ [t]).
Proof.
  intros Hts Hok Hfail. rewrite run_driver_shape. unfold launch_driver.
  rewrite Hts, bind_textures_fail by assumption. repeat split.
Qed.

(** C5, amended.  For each of the five drivers, once its bindings have
    succeeded, on any state of the device.  With checking disabled the
    driver returns [cudaSuccess] right after the launch, whatever the launch
    reports (a rejected configuration is not reported, and neither is a
    fault in the kernel).  With checking enabled it calls
    [cudaThreadSynchronize] and then [cudaGetLastError], and returns the
    fault of the kernel if the kernel of this launch faulted; when it did
    not (or did not run, the launch being rejected), a fault still pending
    from an earlier launch if there is one, otherwise the configuration
    error of the launch if it was rejected, otherwise the last error of the
    runtime. *)
Theorem driver_status (rt : cuda_runtime) (dr : driver) (d : device) :
  (forall t, In t (driver_textures dr) -> bind_result rt t = cudaSuccess) ->
  let k := driver_kernel dr in
  let grid := driver_grid dr d in
  let threads := driver_threads dr in
  let dev := bound_all (driver_textures dr) (pd.N (pdata (mem d))) d in
  fst (run_driver rt false dr d) = cudaSuccess
  /\ trace (snd (run_driver rt false dr d))
     = trace d ++ map EvBindTexture (driver_textures dr) ++ [EvLaunch k grid threads]
  /\ trace (snd (run_driver rt true dr d))
     = trace d ++ map EvBindTexture (driver_textures dr)
       ++ [EvLaunch k grid threads; EvThreadSynchronize; EvGetLastError]
  /\ fst (run_driver rt true dr d)
     = match launch_result rt k grid threads with
       | cudaSuccess =>
           match driver_body rt dr d (views dev) (mem d) with
           | None => cudaErrorLaunchFailure
           | Some _ =>
               match pending_fault d with
               | cudaSuccess => last_error d
               | fault => fault
               end
           end
       | e =>
           match pending_fault d with
           | cudaSuccess => e
           | fault => fault
           end
       end.
Proof.
  intros Hok k grid threads dev.
  destruct (launch_driver_ok rt dr d Hok) as (H1 & H2 & H3 & H4).
  cbv zeta in H4. fold k grid threads dev in H4.
  split; [exact H1|]. split; [exact H2|]. split; [exact H3|].
  rewrite H4. destruct (launch_result rt k grid threads); reflexivity.
Qed.

(** A device on which the fault of an earlier kernel is still pending. *)
Lemma driver_status_witness :
  let dr := StepOne 1 2 1 0 0 1 in
  let d := mk_device mem_ex (fun _ => None) cudaSuccess cudaErrorLaunchFailure [] in
  let dev := bound_all (driver_textures dr) (pd.N (pdata (mem d))) d in
  fst (run_driver rt_bad_launch false dr d) = cudaSuccess
  /\ trace (snd (run_driver rt_bad_launch false dr d))
     = trace d ++ map EvBindTexture (driver_textures dr) ++ [EvLaunch step_one_kernel 1 2]
  /\ trace (snd (run_driver rt_bad_launch true dr d))
     = trace d ++ map EvBindTexture (driver_textures dr)
       ++ [EvLaunch step_one_kernel 1 2; EvThreadSynchronize; EvGetLastError]
  /\ fst (run_driver rt_bad_launch true dr d)
     = match launch_result rt_bad_launch step_one_kernel 1 2 with
       | cudaSuccess =>
           match driver_body rt_bad_launch dr d (views dev) (mem d) with
           | None => cudaErrorLaunchFailure
           | Some _ =>
               match pending_fault d with
               | cudaSuccess => last_error d
               | fault => fault
               end
           end
       | e =>
           match pending_fault d with
           | cudaSuccess => e
           | fault => fault
           end
       end.
Proof.
  apply (driver_status rt_bad_launch (StepOne 1 2 1 0 0 1)
           (mk_device mem_ex (fun _ => None) cudaSuccess cudaErrorLaunchFailure [])).
  intros t _. reflexivity.
Defined.

(** The checked call on that device: the launch is rejected, and the status
    is the fault that was pending, not the configuration error; on a clean
    device it is the configuration error. *)
Example checked_status_with_pending_fault :
  fst (run_driver rt_bad_launch true (StepOne 1 2 1 0 0 1)
         (mk_device mem_ex (fun _ => None) cudaSuccess cudaErrorLaunchFailure []))
  = cudaErrorLaunchFailure
  /\ fst (run_driver rt_bad_launch true (StepOne 1 2 1 0 0 1) dev_ex)
     = cudaErrorInvalidConfiguration.
Proof. split; reflexivity. Qed.

(** C5 as stated fails with checking disabled: a runtime that rejects the
    configuration of every launch, and each of the five drivers returning
    [cudaSuccess]. *)
Lemma unchecked_launch_failure_unreported :
  (forall k grid threads,
     launch_result rt_bad_launch k grid threads = cudaErrorInvalidConfiguration)
  /\ fst (gpu_npt_step_one rt_bad_launch false 1 2 1 0 0 1 dev_ex) = cudaSuccess
  /\ fst (gpu_npt_boxscale rt_bad_launch false box_ex 2 0 1 dev_ex) = cudaSuccess
  /\ fst (gpu_npt_step_two rt_bad_launch false 1 2 1 0 0 1 dev_ex) = cudaSuccess
  /\ fst (gpu_npt_group_temperature rt_bad_launch false 1 2 1 dev_ex) = cudaSuccess
  /\ fst (gpu_npt_pressure2 rt_bad_launch false 2 1 dev_ex) = cudaSuccess.
Proof.
  split; [intros k grid threads; reflexivity|].
  assert (H : forall dr, fst (run_driver rt_bad_launch false dr dev_ex) = cudaSuccess).
  { intros dr. apply (launch_driver_ok rt_bad_launch dr dev_ex). intros t _. reflexivity. }
  split; [exact (H (StepOne 1 2 1 0 0 1))|].
  split; [exact (H (BoxScale box_ex 2 0 1))|].
  split; [exact (H (StepTwo 1 2 1 0 0 1))|].
  split; [exact (H (GroupTemperature 1 2 1))|].
  exact (H (Pressure2 2 1)).
Qed.

(** C6, amended.  For a driver that binds textures ([gpu_npt_step_one],
    [gpu_npt_boxscale], [gpu_npt_step_two], [gpu_npt_group_temperature]; not
    [gpu_npt_pressure2], which binds none): when a binding fails after the
    ones before it succeeded, the driver returns the error of that binding
    at once, with the device memory unchanged and no launch among its
    runtime calls; and under a runtime that accepts the bindings, all of
    them are made before the launch. *)
Theorem driver_binding_failure (rt : cuda_runtime) (chk : bool) (dr : driver)
    (d : device) (ts1 ts2 : list texture_ref) (t : texture_ref) :
  driver_textures dr = ts1 ++ t :: ts2 ->
  (forall t', In t' ts1 -> bind_result rt t' = cudaSuccess) ->
  bind_result rt t <> cudaSuccess ->
  (forall block_size num_blocks, dr <> Pressure2 block_size num_blocks)
  /\ fst (run_driver rt chk dr d) = bind_result rt t
  /\ mem (snd (run_driver rt chk dr d)) = mem d
  /\ trace (snd (run_driver rt chk dr d)) = trace d ++ map EvBindTexture (ts1 ++ [t])
  /\ (forall rt' chk',
        (forall t', In t' (driver_textures dr) -> bind_result rt' t' = cudaSuccess) ->
        exists rest,
          trace (snd (run_driver rt' chk' dr d))
          = trace d ++ map EvBindTexture (driver_textures dr)
            ++ EvLaunch (driver_kernel dr) (driver_grid dr d) (driver_threads dr)
               :: rest).
Proof.
  intros Hts Hok Hfail.
  split.
  { intros bs nb ->. simpl in Hts. destruct ts1; discriminate. }
  destruct (launch_driver_bind_fail rt chk dr d ts1 ts2 t Hts Hok Hfail) as (H1 & H2 & H3).
  repeat (split; [assumption|]).
  intros rt' chk' Hok'.
  destruct (launch_driver_ok rt' dr d Hok') as (_ & Hu & Hc & _).
  destruct chk'; eexists; [exact Hc | rewrite Hu; reflexivity].
Qed.

Lemma driver_binding_failure_witness :
  (forall block_size num_blocks,
     StepTwo 1 2 1 0 0 1 <> Pressure2 block_size num_blocks)
  /\ fst (run_driver rt_bad_bind true (StepTwo 1 2 1 0 0 1) dev_ex) = cudaError 18
  /\ mem (snd (run_driver rt_bad_bind true (StepTwo 1 2 1 0 0 1) dev_ex)) = mem_ex
  /\ trace (snd (run_driver rt_bad_bind true (StepTwo 1 2 1 0 0 1) dev_ex))
     = [] ++ map EvBindTexture ([] ++ [ref_pdata_vel_tex])
  /\ (forall rt' chk',
        (forall t', In t' (driver_textures (StepTwo 1 2 1 0 0 1)) ->
                    bind_result rt' t' = cudaSuccess) ->
        exists rest,
          trace (snd (run_driver rt' chk' (StepTwo 1 2 1 0 0 1) dev_ex))
          = [] ++ map EvBindTexture (driver_textures (StepTwo 1 2 1 0 0 1))
            ++ EvLaunch step_two_kernel 1 2 :: rest).
Proof.
  apply (driver_binding_failure rt_bad_bind true (StepTwo 1 2 1 0 0 1) dev_ex
           [] [ref_pdata_mass_tex; ref_net_force_tex] ref_pdata_vel_tex).
  - reflexivity.
  - intros t' [].
  - discriminate.
Defined.

(** C6 as stated fails for [gpu_npt_pressure2]: it binds no texture, so
    under a runtime that rejects every binding it still launches its kernel
    and returns [cudaSuccess]. *)
Lemma pressure2_binds_nothing :
  (forall t, bind_result rt_bad_bind t = cudaError 18)
  /\ fst (gpu_npt_pressure2 rt_bad_bind false 2 1 dev_ex) = cudaSuccess
  /\ trace (snd (gpu_npt_pressure2 rt_bad_bind false 2 1 dev_ex))
     = [EvLaunch pressure_kernel2 1 2]
  /\ trace (snd (gpu_npt_pressure2 rt_bad_bind true 2 1 dev_ex))
     = [EvLaunch pressure_kernel2 1 2; EvThreadSynchronize; EvGetLastError].
Proof.
  split; [intros t; reflexivity|].
  destruct (launch_driver_ok rt_bad_bind (Pressure2 2 1) dev_ex) as (H1 & H2 & H3 & _).
  { intros t []. }
  repeat split; assumption.
Qed.

(** * Further properties of the kernels and drivers *)

(** ** Launches as maps *)

Lemma member_true (i : Z) (members : list Z) : member i members = true <-> In i members.
Proof.
  unfold member. rewrite existsb_exists. split.
  - intros (j & Hin & Heq). apply Z.eqb_eq in Heq. subst. exact Hin.
  - intros Hin. exists i. split; [exact Hin | apply Z.eqb_refl].
Qed.

Lemma length_update_members {A : Type} (f : Z -> A) (members : list Z) (arr : list A) :
  length (update_members f members arr) = length arr.
Proof. apply length_imap. Qed.

Lemma lookup_update_members {A : Type} (f : Z -> A) (members : list Z)
    (arr : list A) (n : nat) :
  update_members f members arr !! n
  = (fun x => if member (Z.of_nat n) members then f (Z.of_nat n) else x) <$> arr !! n.
Proof. unfold update_members. apply list_lookup_imap. Qed.

Lemma load_update_members {A : Type} (f : Z -> A) (members : list Z)
    (arr : list A) (i : Z) :
  load (update_members f members arr) i
  = match load arr i with
    | Some x => Some (if member i members then f i else x)
    | None => None
    end.
Proof.
  unfold load. destruct (Z.ltb_spec i 0); [reflexivity|].
  rewrite lookup_update_members. rewrite Z2Nat.id by lia.
  destruct (arr !! Z.to_nat i); reflexivity.
Qed.

Lemma update_members_ext {A : Type} (f g : Z -> A) (members : list Z) (arr : list A) :
  (forall i, 0 <= i < Z.of_nat (length arr) -> member i members = true -> f i = g i) ->
  update_members f members arr = update_members g members arr.
Proof.
  intros H. apply list_eq. intros n. rewrite !lookup_update_members.
  destruct (arr !! n) as [x|] eqn:Hn; [|reflexivity]. simpl.
  destruct (member (Z.of_nat n) members) eqn:Hm; [|reflexivity].
  rewrite H; [reflexivity | | exact Hm].
  apply lookup_lt_Some in Hn. lia.
Qed.

Lemma update_members_same {A : Type} (f : Z -> A) (zero : A) (members : list Z)
    (arr : list A) :
  (forall i, 0 <= i < Z.of_nat (length arr) -> member i members = true ->
             f i = tex1Dfetch zero arr i) ->
  update_members f members arr = arr.
Proof.
  intros H. apply list_eq. intros n. rewrite lookup_update_members.
  destruct (arr !! n) as [x|] eqn:Hn; [|reflexivity]. simpl.
  destruct (member (Z.of_nat n) members) eqn:Hm; [|reflexivity].
  rewrite H; [| apply lookup_lt_Some in Hn; lia | exact Hm].
  unfold tex1Dfetch. destruct (Z.ltb_spec (Z.of_nat n) 0); [lia|].
  rewrite Nat2Z.id, Hn. reflexivity.
Qed.

Lemma update_members_nil {A : Type} (f : Z -> A) (arr : list A) :
  update_members f [] arr = arr.
Proof.
  apply list_eq. intros n. rewrite lookup_update_members.
  destruct (arr !! n); reflexivity.
Qed.

(** The writes of the workers of a grid amount to one map over the array. *)
Lemma scatter_update_members {A W : Type} (target : W -> option Z) (f : Z -> A)
    (ws : list W) (members : list Z) (l : list A) :
  (forall w j, In w ws -> target w = Some j -> 0 <= j /\ member j members = true) ->
  (forall j, 0 <= j < Z.of_nat (length l) -> member j members = true ->
             exists w, In w ws /\ target w = Some j) ->
  scatter target f ws l = update_members f members l.
Proof.
  intros Hs Hc. apply list_eq. intros n. rewrite lookup_update_members.
  assert (Hpos : forall w j, In w ws -> target w = Some j -> 0 <= j)
    by (intros w j Hin Hw; apply (Hs w j Hin Hw)).
  destruct (l !! n) as [x|] eqn:Hn.
  - pose proof (lookup_lt_Some _ _ _ Hn) as Hlt. simpl.
    destruct (member (Z.of_nat n) members) eqn:Hm.
    + destruct (Hc (Z.of_nat n) ltac:(lia) Hm) as (w & Hin & Hw).
      pose proof (lookup_scatter_hit target f ws l w (Z.of_nat n) Hpos Hin Hw) as Hh.
      rewrite Nat2Z.id in Hh. apply Hh. exact Hlt.
    + rewrite lookup_scatter_miss; [exact Hn|].
      intros w j Hin Hw Heq. destruct (Hs w j Hin Hw) as [Hj Hmj].
      replace (Z.of_nat n) with j in Hm by lia. congruence.
  - simpl. apply lookup_ge_None. rewrite length_scatter.
    apply lookup_ge_None in Hn. exact Hn.
Qed.

Lemma group_targets_members (gm : list Z) (group_size num_blocks block_size N : Z) :
  0 <= group_size <= Z.of_nat (length gm) ->
  Forall (fun idx => 0 <= idx < N) (take (Z.to_nat group_size) gm) ->
  0 < block_size -> num_blocks * block_size <= 2 ^ 31 ->
  group_size <= num_blocks * block_size ->
  (forall w j, In w (workers num_blocks block_size) ->
     group_target gm group_size block_size w = Some j ->
     0 <= j /\ member j (take (Z.to_nat group_size) gm) = true)
  /\ (forall j, member j (take (Z.to_nat group_size) gm) = true ->
        exists w, In w (workers num_blocks block_size)
                  /\ group_target gm group_size block_size w = Some j).
Proof.
  intros Hgs Hmem HB Hmax Hcov. split.
  - intros w j Hin Hw.
    pose proof (group_target_Some _ _ _ _ _ w j Hmem HB Hmax Hin Hw) as Hj.
    split; [lia|]. apply member_true.
    unfold group_target in Hw.
    destruct (worker_index_bounds _ _ _ HB Hmax Hin) as (Hr & Hg & Hu).
    rewrite Hg, Hu in Hw.
    destruct (Z.ltb_spec (fst w * block_size + snd w) group_size); [|discriminate].
    apply load_Some in Hw as [_ Hl].
    apply list_elem_of_In, list_elem_of_lookup.
    exists (Z.to_nat (fst w * block_size + snd w)).
    rewrite lookup_take_lt by lia. exact Hl.
  - intros j Hj. apply member_true, list_elem_of_In, list_elem_of_lookup in Hj as [n Hn].
    pose proof (lookup_lt_Some _ _ _ Hn) as Hlt. rewrite length_take in Hlt.
    rewrite lookup_take_lt in Hn by lia.
    destruct (group_target_worker gm group_size num_blocks block_size (Z.of_nat n)
                HB Hmax ltac:(lia) Hcov) as (w & Hin & Hw).
    exists w. split; [exact Hin|]. rewrite Hw.
    apply load_Some. split; [lia|]. rewrite Nat2Z.id. exact Hn.
Qed.

Lemma particle_targets_members (local_num num_blocks block_size : Z) :
  0 < block_size -> num_blocks * block_size <= 2 ^ 31 ->
  local_num <= num_blocks * block_size ->
  (forall w j, In w (workers num_blocks block_size) ->
     particle_target local_num block_size w = Some j ->
     0 <= j /\ member j (seqZ 0 local_num) = true)
  /\ (forall j, member j (seqZ 0 local_num) = true ->
        exists w, In w (workers num_blocks block_size)
                  /\ particle_target local_num block_size w = Some j).
Proof.
  intros HB Hmax Hcov. split.
  - intros w j Hin Hw.
    destruct (particle_target_Some _ _ _ w j HB Hmax Hin Hw) as [_ Hj].
    split; [lia|]. apply member_true, list_elem_of_In, elem_of_seqZ. lia.
  - intros j Hj. apply member_true, list_elem_of_In, elem_of_seqZ in Hj.
    destruct (particle_target_worker local_num num_blocks block_size j
                HB Hmax ltac:(lia) Hcov) as [Hin Hw].
    eexists. split; [exact Hin | exact Hw].
Qed.

Lemma step_one_fold_record (tex : textures) (gm : list Z) (group_size : Z)
    (exp_v_fac exp_r_fac deltaT : R) (threads : Z)
    (ws : list (Z * Z)) (p : pd.gpu_pdata_arrays) :
  fold_left
    (fun s w => step_one_write tex gm group_size exp_v_fac exp_r_fac deltaT threads w s)
    ws p
  = pd.set_vel
      (scatter (group_target gm group_size threads)
         (step_one_vel tex exp_v_fac deltaT) ws (pd.vel p))
      (pd.set_pos
         (scatter (group_target gm group_size threads)
            (step_one_pos tex exp_v_fac exp_r_fac deltaT) ws (pd.pos p))
         p).
Proof.
  revert p. induction ws as [|w ws IH]; intros p; [destruct p; reflexivity|].
  cbn [fold_left]. rewrite IH, !scatter_cons. unfold step_one_write.
  destruct (group_target gm group_size threads w); destruct p; reflexivity.
Qed.

Lemma step_two_fold_record (tex : textures) (gm : list Z) (group_size : Z)
    (exp_v_fac deltaT : R) (threads : Z)
    (ws : list (Z * Z)) (p : pd.gpu_pdata_arrays) :
  fold_left
    (fun s w => step_two_write tex gm group_size exp_v_fac deltaT threads w s)
    ws p
  = pd.set_accel
      (scatter (group_target gm group_size threads) (step_two_accel tex) ws (pd.accel p))
      (pd.set_vel
         (scatter (group_target gm group_size threads)
            (step_two_vel tex exp_v_fac deltaT) ws (pd.vel p))
         p).
Proof.
  revert p. induction ws as [|w ws IH]; intros p; [destruct p; reflexivity|].
  cbn [fold_left]. rewrite IH, !scatter_cons. unfold step_two_write.
  destruct (group_target gm group_size threads w); destruct p; reflexivity.
Qed.

Lemma boxscale_fold_record (tex : textures) (box : gpu_boxsize) (s : R)
    (local_num threads : Z) (ws : list (Z * Z)) (p : pd.gpu_pdata_arrays) :
  fold_left (fun q w => boxscale_write tex box s local_num threads w q) ws p
  = pd.set_image
      (scatter (particle_target local_num threads) (boxscale_image tex box s) ws
         (pd.image p))
      (pd.set_pos
         (scatter (particle_target local_num threads) (boxscale_pos tex box s) ws
            (pd.pos p))
         p).
Proof.
  revert p. induction ws as [|w ws IH]; intros p; [destruct p; reflexivity|].
  cbn [fold_left]. rewrite IH, !scatter_cons. unfold boxscale_write.
  destruct (particle_target local_num threads w); destruct p; reflexivity.
Qed.

Lemma bound_bound_all (ts : list texture_ref) (n : Z) (d : device) (r : texture_ref) :
  In r ts -> bound (bound_all ts n d) r = Some n.
Proof.
  revert d. induction ts as [|a ts IH] using rev_ind; intros d Hin; [destruct Hin|].
  rewrite bound_all_snoc. cbn [bound bound_with].
  destruct (texture_ref_eqb r a) eqn:Hra; [reflexivity|].
  apply in_app_or in Hin as [Hin|[->|[]]]; [apply IH; exact Hin|].
  destruct r; discriminate.
Qed.

(** The textures of the device after the bindings of a driver, when the
    arrays hold [N] elements: the arrays themselves. *)
Lemma views_bound (d : device) (t : texture_ref) (ts : list texture_ref) :
  pdata_wf (pdata (mem d)) ->
  length (d_net_force (mem d)) = Z.to_nat (pd.N (pdata (mem d))) ->
  let dev := bound_all ts (pd.N (pdata (mem d))) d in
  (In ref_pdata_pos_tex ts -> pdata_pos_tex (views dev) = pd.pos (pdata (mem d)))
  /\ (In ref_pdata_vel_tex ts -> pdata_vel_tex (views dev) = pd.vel (pdata (mem d)))
  /\ (In ref_pdata_accel_tex ts -> pdata_accel_tex (views dev) = pd.accel (pdata (mem d)))
  /\ (In ref_pdata_mass_tex ts -> pdata_mass_tex (views dev) = pd.mass (pdata (mem d)))
  /\ (In ref_pdata_image_tex ts -> pdata_image_tex (views dev) = pd.image (pdata (mem d)))
  /\ (In ref_net_force_tex ts -> net_force_tex (views dev) = d_net_force (mem d)).
Proof.
  intros (Hloc & HN & Lpos & Lvel & Lacc & Lmass & Limg) Lforce dev.
  assert (Hb : forall r, In r ts -> bound dev r = Some (pd.N (pdata (mem d))))
    by (intros r Hin; apply bound_bound_all; exact Hin).
  assert (Hm : mem dev = mem d) by apply bound_all_facts.
  unfold views. rewrite Hm.
  repeat split; intros Hin; cbn; rewrite (Hb _ Hin); apply view_full; assumption.
Qed.

(** The memory a driver leaves when its bindings and its launch are accepted
    and its kernel does not fault. *)
Lemma run_driver_mem (rt : cuda_runtime) (chk : bool) (dr : driver) (d : device)
    (m' : device_memory) :
  (forall t, In t (driver_textures dr) -> bind_result rt t = cudaSuccess) ->
  launch_result rt (driver_kernel dr) (driver_grid dr d) (driver_threads dr) = cudaSuccess ->
  driver_body rt dr d
    (views (bound_all (driver_textures dr) (pd.N (pdata (mem d))) d)) (mem d) = Some m' ->
  mem (snd (run_driver rt chk dr d)) = m'.
Proof.
  intros Hok Hl Hb. rewrite run_driver_shape. unfold launch_driver.
  rewrite bind_textures_ok by exact Hok.
  apply mem_launch_epilogue; [exact Hl|].
  destruct (bound_all_facts (driver_textures dr) (pd.N (pdata (mem d))) d) as [-> _].
  exact Hb.
Qed.

(** A launch of [gpu_npt_step_one_kernel] over a grid that covers the group
    is a map over the position and velocity arrays. *)
Lemma step_one_grid_map (tex : textures) (gm : list Z)
    (group_size block_size num_blocks : Z) (evf erf deltaT : R)
    (p : pd.gpu_pdata_arrays) (n : Z) :
  0 <= n -> length (pd.pos p) = Z.to_nat n -> length (pd.vel p) = Z.to_nat n ->
  0 <= group_size <= Z.of_nat (length gm) ->
  Forall (fun idx => 0 <= idx < n) (take (Z.to_nat group_size) gm) ->
  grid_covers group_size num_blocks block_size ->
  run_grid (gpu_npt_step_one_kernel tex gm group_size evf erf deltaT)
    num_blocks block_size p
  = Some (pd.set_vel
            (update_members (step_one_vel tex evf deltaT)
               (take (Z.to_nat group_size) gm) (pd.vel p))
            (pd.set_pos
               (update_members (step_one_pos tex evf erf deltaT)
                  (take (Z.to_nat group_size) gm) (pd.pos p))
               p)).
Proof.
  intros Hn Lpos Lvel Hgs Hmem (HB & Hnb & Hcov & Hmax).
  destruct (run_workers_fold
              (fun w => gpu_npt_step_one_kernel tex gm group_size evf erf deltaT
                          (fst w) block_size (snd w))
              (step_one_write tex gm group_size evf erf deltaT block_size)
              (fun q => length (pd.pos q) = Z.to_nat n /\ length (pd.vel q) = Z.to_nat n)
              (workers num_blocks block_size) p) as [Hrun _].
  { split; assumption. }
  { intros w s Hin Hs. apply step_one_worker; [| |exact Hs].
    - intros i Hi.
      pose proof (group_target_Some _ _ _ _ _ w i Hmem HB Hmax Hin Hi). lia.
    - exact (group_target_None _ _ _ _ w Hgs HB Hmax Hin). }
  unfold run_grid. rewrite Hrun, step_one_fold_record.
  destruct (group_targets_members gm group_size num_blocks block_size n
              Hgs Hmem HB Hmax Hcov) as [Hs Hc].
  rewrite !(scatter_update_members _ _ _ (take (Z.to_nat group_size) gm));
    try exact Hs; try (intros j _ Hj; exact (Hc j Hj)).
  reflexivity.
Qed.

Lemma step_two_grid_map (tex : textures) (gm : list Z)
    (group_size block_size num_blocks : Z) (evf deltaT : R)
    (p : pd.gpu_pdata_arrays) (n : Z) :
  0 <= n -> length (pd.vel p) = Z.to_nat n -> length (pd.accel p) = Z.to_nat n ->
  0 <= group_size <= Z.of_nat (length gm) ->
  Forall (fun idx => 0 <= idx < n) (take (Z.to_nat group_size) gm) ->
  grid_covers group_size num_blocks block_size ->
  run_grid (gpu_npt_step_two_kernel tex gm group_size evf deltaT)
    num_blocks block_size p
  = Some (pd.set_accel
            (update_members (step_two_accel tex)
               (take (Z.to_nat group_size) gm) (pd.accel p))
            (pd.set_vel
               (update_members (step_two_vel tex evf deltaT)
                  (take (Z.to_nat group_size) gm) (pd.vel p))
               p)).
Proof.
  intros Hn Lvel Lacc Hgs Hmem (HB & Hnb & Hcov & Hmax).
  destruct (run_workers_fold
              (fun w => gpu_npt_step_two_kernel tex gm group_size evf deltaT
                          (fst w) block_size (snd w))
              (step_two_write tex gm group_size evf deltaT block_size)
              (fun q => length (pd.vel q) = Z.to_nat n /\ length (pd.accel q) = Z.to_nat n)
              (workers num_blocks block_size) p) as [Hrun _].
  { split; assumption. }
  { intros w s Hin Hs. apply step_two_worker; [| |exact Hs].
    - intros i Hi.
      pose proof (group_target_Some _ _ _ _ _ w i Hmem HB Hmax Hin Hi). lia.
    - exact (group_target_None _ _ _ _ w Hgs HB Hmax Hin). }
  unfold run_grid. rewrite Hrun, step_two_fold_record.
  destruct (group_targets_members gm group_size num_blocks block_size n
              Hgs Hmem HB Hmax Hcov) as [Hs Hc].
  rewrite !(scatter_update_members _ _ _ (take (Z.to_nat group_size) gm));
    try exact Hs; try (intros j _ Hj; exact (Hc j Hj)).
  reflexivity.
Qed.

Lemma boxscale_grid_map (tex : textures) (box : gpu_boxsize) (s : R)
    (block_size num_blocks : Z) (p : pd.gpu_pdata_arrays) (n : Z) :
  length (pd.pos p) = Z.to_nat n -> length (pd.image p) = Z.to_nat n ->
  0 <= pd.local_num p <= n ->
  grid_covers (pd.local_num p) num_blocks block_size ->
  run_grid (gpu_npt_boxscale_kernel tex box s) num_blocks block_size p
  = Some (pd.set_image
            (update_members (boxscale_image tex box s)
               (seqZ 0 (pd.local_num p)) (pd.image p))
            (pd.set_pos
               (update_members (boxscale_pos tex box s)
                  (seqZ 0 (pd.local_num p)) (pd.pos p))
               p)).
Proof.
  intros Lpos Limg Hloc (HB & Hnb & Hcov & Hmax).
  destruct (run_workers_fold
              (fun w => gpu_npt_boxscale_kernel tex box s (fst w) block_size (snd w))
              (boxscale_write tex box s (pd.local_num p) block_size)
              (fun q => (length (pd.pos q) = Z.to_nat n
                         /\ length (pd.image q) = Z.to_nat n)
                        /\ pd.local_num q = pd.local_num p)
              (workers num_blocks block_size) p) as [Hrun _].
  { repeat split; assumption. }
  { intros w q Hin [Hq Hl].
    destruct (boxscale_worker tex box s block_size (Z.to_nat n) w q) as [Hk Hlen].
    - intros i Hi. rewrite Hl in Hi.
      pose proof (particle_target_Some _ _ _ w i HB Hmax Hin Hi). lia.
    - exact Hq.
    - rewrite Hl in Hk, Hlen. split; [exact Hk|]. split; [exact Hlen|].
      unfold boxscale_write. destruct (particle_target _ _ w); exact Hl. }
  unfold run_grid. rewrite Hrun, boxscale_fold_record.
  destruct (particle_targets_members (pd.local_num p) num_blocks block_size
              HB Hmax Hcov) as [Hs Hc].
  rewrite !(scatter_update_members _ _ _ (seqZ 0 (pd.local_num p)));
    try exact Hs; try (intros j _ Hj; exact (Hc j Hj)).
  reflexivity.
Qed.

(** ** The drivers against their sequential references *)

Lemma gpu_npt_step_one_result (rt : cuda_runtime) (chk : bool) (d : device)
    (group_size block_size num_blocks : Z) (Xi Eta deltaT : R) :
  pdata_wf (pdata (mem d)) ->
  group_wf (mem d) group_size ->
  grid_covers group_size num_blocks block_size ->
  bind_result rt ref_pdata_pos_tex = cudaSuccess ->
  bind_result rt ref_pdata_vel_tex = cudaSuccess ->
  bind_result rt ref_pdata_accel_tex = cudaSuccess ->
  launch_result rt step_one_kernel num_blocks block_size = cudaSuccess ->
  mem (snd (gpu_npt_step_one rt chk group_size block_size num_blocks Xi Eta deltaT d))
  = step_one_result group_size Xi Eta deltaT (mem d).
Proof.
  intros Hwf (Hgs & Hmem & Huniq) Hgrid Bpos Bvel Bacc Hlaunch.
  set (dr := StepOne group_size block_size num_blocks Xi Eta deltaT).
  change (gpu_npt_step_one rt chk group_size block_size num_blocks Xi Eta deltaT)
    with (run_driver rt chk dr).
  assert (Hok : forall t, In t (driver_textures dr) -> bind_result rt t = cudaSuccess).
  { intros t [<-|[<-|[<-|[]]]]; assumption. }
  apply run_driver_mem; [exact Hok | exact Hlaunch |].
  set (dev := bound_all (driver_textures dr) (pd.N (pdata (mem d))) d).
  pose proof Hwf as (Hloc & HN & Lpos & Lvel & Lacc & Lmass & Limg).
  assert (Htex : pdata_pos_tex (views dev) = pd.pos (pdata (mem d))
                 /\ pdata_vel_tex (views dev) = pd.vel (pdata (mem d))
                 /\ pdata_accel_tex (views dev) = pd.accel (pdata (mem d))).
  { unfold dev, views. destruct (bound_all_facts (driver_textures dr)
                                   (pd.N (pdata (mem d))) d) as [-> _].
    cbn [pdata_pos_tex pdata_vel_tex pdata_accel_tex].
    rewrite !bound_bound_all by (simpl; auto).
    rewrite !view_full by assumption. repeat split. }
  destruct Htex as (Tp & Tv & Ta).
  cbn [driver_body dr]. unfold on_pdata.
  rewrite (step_one_grid_map _ _ _ _ _ _ _ _ _ (pd.N (pdata (mem d))))
    by (try assumption; lia).
  unfold step_one_result, group_of. do 3 f_equal.
  - apply update_members_ext. intros i Hi _.
    unfold step_one_vel. rewrite int_small, Tv, Ta, velScale_driver by lia. reflexivity.
  - f_equal. apply update_members_ext. intros i Hi _.
    unfold step_one_pos, step_one_vel.
    rewrite int_small, Tp, Tv, Ta, velScale_driver, posScale_driver by lia. reflexivity.
Qed.

Lemma gpu_npt_step_two_result (rt : cuda_runtime) (chk : bool) (d : device)
    (group_size block_size num_blocks : Z) (Xi Eta deltaT : R) :
  pdata_wf (pdata (mem d)) ->
  group_wf (mem d) group_size ->
  length (d_net_force (mem d)) = Z.to_nat (pd.N (pdata (mem d))) ->
  grid_covers group_size num_blocks block_size ->
  bind_result rt ref_pdata_vel_tex = cudaSuccess ->
  bind_result rt ref_pdata_mass_tex = cudaSuccess ->
  bind_result rt ref_net_force_tex = cudaSuccess ->
  launch_result rt step_two_kernel num_blocks block_size = cudaSuccess ->
  mem (snd (gpu_npt_step_two rt chk group_size block_size num_blocks Xi Eta deltaT d))
  = step_two_result group_size Xi Eta deltaT (mem d).
Proof.
  intros Hwf (Hgs & Hmem & Huniq) Lforce Hgrid Bvel Bmass Bforce Hlaunch.
  set (dr := StepTwo group_size block_size num_blocks Xi Eta deltaT).
  change (gpu_npt_step_two rt chk group_size block_size num_blocks Xi Eta deltaT)
    with (run_driver rt chk dr).
  assert (Hok : forall t, In t (driver_textures dr) -> bind_result rt t = cudaSuccess).
  { intros t [<-|[<-|[<-|[]]]]; assumption. }
  apply run_driver_mem; [exact Hok | exact Hlaunch |].
  set (dev := bound_all (driver_textures dr) (pd.N (pdata (mem d))) d).
  pose proof Hwf as (Hloc & HN & Lpos & Lvel & Lacc & Lmass & Limg).
  assert (Htex : pdata_vel_tex (views dev) = pd.vel (pdata (mem d))
                 /\ pdata_mass_tex (views dev) = pd.mass (pdata (mem d))
                 /\ net_force_tex (views dev) = d_net_force (mem d)).
  { unfold dev, views. destruct (bound_all_facts (driver_textures dr)
                                   (pd.N (pdata (mem d))) d) as [-> _].
    cbn [pdata_vel_tex pdata_mass_tex net_force_tex].
    rewrite !bound_bound_all by (simpl; auto).
    rewrite !view_full by assumption. repeat split. }
  destruct Htex as (Tv & Tm & Tf).
  cbn [driver_body dr]. unfold on_pdata.
  rewrite (step_two_grid_map _ _ _ _ _ _ _ _ (pd.N (pdata (mem d))))
    by (try assumption; lia).
  unfold step_two_result, group_of. do 3 f_equal.
  - apply update_members_ext. intros i Hi _.
    unfold step_two_accel. rewrite int_small, Tm, Tf by lia. reflexivity.
  - f_equal. apply update_members_ext. intros i Hi _.
    unfold step_two_vel, step_two_accel.
    rewrite int_small, Tv, Tm, Tf, velScale_driver by lia. reflexivity.
Qed.

Lemma gpu_npt_boxscale_result (rt : cuda_runtime) (chk : bool) (d : device)
    (box : gpu_boxsize) (block_size : Z) (Eta deltaT : R) :
  pdata_wf (pdata (mem d)) ->
  0 < block_size ->
  (pd.local_num (pdata (mem d)) / block_size + 1) * block_size <= 2 ^ 31 ->
  bind_result rt ref_pdata_pos_tex = cudaSuccess ->
  bind_result rt ref_pdata_image_tex = cudaSuccess ->
  launch_result rt boxscale_kernel
    (boxscale_grid (pd.local_num (pdata (mem d))) block_size) block_size = cudaSuccess ->
  mem (snd (gpu_npt_boxscale rt chk box block_size Eta deltaT d))
  = boxscale_result box Eta deltaT (mem d).
Proof.
  intros Hwf HB Hmax Bpos Bimg Hlaunch.
  set (dr := BoxScale box block_size Eta deltaT).
  change (gpu_npt_boxscale rt chk box block_size Eta deltaT) with (run_driver rt chk dr).
  assert (Hok : forall t, In t (driver_textures dr) -> bind_result rt t = cudaSuccess).
  { intros t [<-|[<-|[]]]; assumption. }
  apply run_driver_mem; [exact Hok | exact Hlaunch |].
  set (dev := bound_all (driver_textures dr) (pd.N (pdata (mem d))) d).
  pose proof Hwf as (Hloc & HN & Lpos & Lvel & Lacc & Lmass & Limg).
  assert (Htex : pdata_pos_tex (views dev) = pd.pos (pdata (mem d))
                 /\ pdata_image_tex (views dev) = pd.image (pdata (mem d))).
  { unfold dev, views. destruct (bound_all_facts (driver_textures dr)
                                   (pd.N (pdata (mem d))) d) as [-> _].
    cbn [pdata_pos_tex pdata_image_tex].
    rewrite !bound_bound_all by (simpl; auto).
    rewrite !view_full by assumption. repeat split. }
  destruct Htex as (Tp & Ti).
  destruct (boxscale_grid_small (pd.local_num (pdata (mem d))) block_size
              ltac:(lia) HB Hmax) as [Hgrid Hcov].
  cbn [driver_body dr]. unfold on_pdata.
  rewrite (boxscale_grid_map _ _ _ _ _ _ (pd.N (pdata (mem d))));
    try assumption;
    [| unfold grid_covers; rewrite Hgrid;
       assert (0 <= pd.local_num (pdata (mem d)) / block_size)
         by (apply Z.div_pos; lia); lia ].
  unfold boxscale_result. do 3 f_equal.
  - apply update_members_ext. intros i Hi _.
    unfold boxscale_image. rewrite Tp, Ti. reflexivity.
  - f_equal. apply update_members_ext. intros i Hi _.
    unfold boxscale_pos. rewrite Tp. reflexivity.
Qed.

Lemma accepted_rt_ok (dr : driver) (d : device) : accepted rt_ok dr d.
Proof. split; [intros t _; reflexivity | reflexivity]. Qed.

Lemma accepted_step_one (rt : cuda_runtime) (d : device)
    (group_size block_size num_blocks : Z) (Xi Eta deltaT : R) :
  accepted rt (StepOne group_size block_size num_blocks Xi Eta deltaT) d ->
  bind_result rt ref_pdata_pos_tex = cudaSuccess
  /\ bind_result rt ref_pdata_vel_tex = cudaSuccess
  /\ bind_result rt ref_pdata_accel_tex = cudaSuccess
  /\ launch_result rt step_one_kernel num_blocks block_size = cudaSuccess.
Proof. intros [Hb Hl]. repeat split; try (apply Hb; simpl; auto). exact Hl. Qed.

Lemma accepted_step_two (rt : cuda_runtime) (d : device)
    (group_size block_size num_blocks : Z) (Xi Eta deltaT : R) :
  accepted rt (StepTwo group_size block_size num_blocks Xi Eta deltaT) d ->
  bind_result rt ref_pdata_vel_tex = cudaSuccess
  /\ bind_result rt ref_pdata_mass_tex = cudaSuccess
  /\ bind_result rt ref_net_force_tex = cudaSuccess
  /\ launch_result rt step_two_kernel num_blocks block_size = cudaSuccess.
Proof. intros [Hb Hl]. repeat split; try (apply Hb; simpl; auto). exact Hl. Qed.

Lemma accepted_boxscale (rt : cuda_runtime) (d : device)
    (box : gpu_boxsize) (block_size : Z) (Eta deltaT : R) :
  accepted rt (BoxScale box block_size Eta deltaT) d ->
  bind_result rt ref_pdata_pos_tex = cudaSuccess
  /\ bind_result rt ref_pdata_image_tex = cudaSuccess
  /\ launch_result rt boxscale_kernel
       (boxscale_grid (pd.local_num (pdata (mem d))) block_size) block_size
     = cudaSuccess.
Proof. intros [Hb Hl]. repeat split; try (apply Hb; simpl; auto). exact Hl. Qed.

(** ** What the drivers leave untouched *)

(** X1.  [gpu_npt_step_one] writes nothing but the positions and velocities
    of the group members: a particle that is not in the group keeps its
    position and its velocity, and the accelerations, the masses, the image
    counters, the counts and every other array of the device are the same
    after the call; no array changes its length. *)
Theorem step_one_frame (rt : cuda_runtime) (chk : bool) (d : device)
    (group_size block_size num_blocks : Z) (Xi Eta deltaT : R) :
  pdata_wf (pdata (mem d)) ->
  group_wf (mem d) group_size ->
  grid_covers group_size num_blocks block_size ->
  accepted rt (StepOne group_size block_size num_blocks Xi Eta deltaT) d ->
  let m := mem d in
  let m' := mem (snd (gpu_npt_step_one rt chk group_size block_size num_blocks
                        Xi Eta deltaT d)) in
  same_but_pdata m m'
  /\ pd.accel (pdata m') = pd.accel (pdata m)
  /\ pd.image (pdata m') = pd.image (pdata m)
  /\ length (pd.pos (pdata m')) = length (pd.pos (pdata m))
  /\ length (pd.vel (pdata m')) = length (pd.vel (pdata m))
  /\ forall idx, member idx (group_of m group_size) = false ->
       load (pd.pos (pdata m')) idx = load (pd.pos (pdata m)) idx
       /\ load (pd.vel (pdata m')) idx = load (pd.vel (pdata m)) idx.
Proof.
  intros Hwf Hgwf Hgrid Hacc m m'.
  destruct (accepted_step_one _ _ _ _ _ _ _ _ Hacc) as (B1 & B2 & B3 & Hl).
  unfold m'. rewrite (gpu_npt_step_one_result rt chk d group_size block_size num_blocks
                        Xi Eta deltaT Hwf Hgwf Hgrid B1 B2 B3 Hl).
  fold m. unfold step_one_result.
  split; [repeat split|]. split; [reflexivity|]. split; [reflexivity|].
  cbn [pdata set_pdata pd.pos pd.vel pd.set_pos pd.set_vel].
  rewrite !length_update_members. split; [reflexivity|]. split; [reflexivity|].
  intros idx Hidx. rewrite !load_update_members, Hidx.
  split; [destruct (load (pd.pos (pdata m)) idx) | destruct (load (pd.vel (pdata m)) idx)];
    reflexivity.
Qed.

Lemma step_one_frame_witness :
  let m' := mem (snd (gpu_npt_step_one rt_ok true 1 2 1 1 1 1 dev_ex)) in
  same_but_pdata mem_ex m'
  /\ pd.accel (pdata m') = pd.accel pdata_ex
  /\ pd.image (pdata m') = pd.image pdata_ex
  /\ length (pd.pos (pdata m')) = length (pd.pos pdata_ex)
  /\ length (pd.vel (pdata m')) = length (pd.vel pdata_ex)
  /\ forall idx, member idx (group_of mem_ex 1) = false ->
       load (pd.pos (pdata m')) idx = load (pd.pos pdata_ex) idx
       /\ load (pd.vel (pdata m')) idx = load (pd.vel pdata_ex) idx.
Proof.
  apply (step_one_frame rt_ok true dev_ex 1 2 1 1 1 1 pdata_ex_wf mem_ex_group_wf).
  - unfold grid_covers. lia.
  - apply accepted_rt_ok.
Defined.

(** X2.  [gpu_npt_step_two] writes nothing but the velocities and
    accelerations of the group members: a particle that is not in the group
    keeps both, and the positions, the masses, the image counters, the
    counts and every other array of the device are the same after the
    call. *)
Theorem step_two_frame (rt : cuda_runtime) (chk : bool) (d : device)
    (group_size block_size num_blocks : Z) (Xi Eta deltaT : R) :
  pdata_wf (pdata (mem d)) ->
  group_wf (mem d) group_size ->
  length (d_net_force (mem d)) = Z.to_nat (pd.N (pdata (mem d))) ->
  grid_covers group_size num_blocks block_size ->
  accepted rt (StepTwo group_size block_size num_blocks Xi Eta deltaT) d ->
  let m := mem d in
  let m' := mem (snd (gpu_npt_step_two rt chk group_size block_size num_blocks
                        Xi Eta deltaT d)) in
  same_but_pdata m m'
  /\ pd.pos (pdata m') = pd.pos (pdata m)
  /\ pd.image (pdata m') = pd.image (pdata m)
  /\ length (pd.vel (pdata m')) = length (pd.vel (pdata m))
  /\ length (pd.accel (pdata m')) = length (pd.accel (pdata m))
  /\ forall idx, member idx (group_of m group_size) = false ->
       load (pd.vel (pdata m')) idx = load (pd.vel (pdata m)) idx
       /\ load (pd.accel (pdata m')) idx = load (pd.accel (pdata m)) idx.
Proof.
  intros Hwf Hgwf Lforce Hgrid Hacc m m'.
  destruct (accepted_step_two _ _ _ _ _ _ _ _ Hacc) as (B1 & B2 & B3 & Hl).
  unfold m'. rewrite (gpu_npt_step_two_result rt chk d group_size block_size num_blocks
                        Xi Eta deltaT Hwf Hgwf Lforce Hgrid B1 B2 B3 Hl).
  fold m. unfold step_two_result.
  split; [repeat split|]. split; [reflexivity|]. split; [reflexivity|].
  cbn [pdata set_pdata pd.accel pd.vel pd.set_accel pd.set_vel].
  rewrite !length_update_members. split; [reflexivity|]. split; [reflexivity|].
  intros idx Hidx. rewrite !load_update_members, Hidx.
  split; [destruct (load (pd.vel (pdata m)) idx) | destruct (load (pd.accel (pdata m)) idx)];
    reflexivity.
Qed.

Lemma step_two_frame_witness :
  let m' := mem (snd (gpu_npt_step_two rt_ok true 1 2 1 1 1 1 dev_ex)) in
  same_but_pdata mem_ex m'
  /\ pd.pos (pdata m') = pd.pos pdata_ex
  /\ pd.image (pdata m') = pd.image pdata_ex
  /\ length (pd.vel (pdata m')) = length (pd.vel pdata_ex)
  /\ length (pd.accel (pdata m')) = length (pd.accel pdata_ex)
  /\ forall idx, member idx (group_of mem_ex 1) = false ->
       load (pd.vel (pdata m')) idx = load (pd.vel pdata_ex) idx
       /\ load (pd.accel (pdata m')) idx = load (pd.accel pdata_ex) idx.
Proof.
  apply (step_two_frame rt_ok true dev_ex 1 2 1 1 1 1 pdata_ex_wf mem_ex_group_wf).
  - reflexivity.
  - unfold grid_covers. lia.
  - apply accepted_rt_ok.
Defined.

(** X3.  [gpu_npt_boxscale] writes nothing but the positions and image
    counters of the first [local_num] particles: a particle beyond them
    keeps its position and its image, and the velocities, the
    accelerations, the masses, the counts and every other array of the
    device are the same after the call. *)
Theorem boxscale_frame (rt : cuda_runtime) (chk : bool) (d : device)
    (box : gpu_boxsize) (block_size : Z) (Eta deltaT : R) :
  pdata_wf (pdata (mem d)) ->
  0 < block_size ->
  (pd.local_num (pdata (mem d)) / block_size + 1) * block_size <= 2 ^ 31 ->
  accepted rt (BoxScale box block_size Eta deltaT) d ->
  let m := mem d in
  let m' := mem (snd (gpu_npt_boxscale rt chk box block_size Eta deltaT d)) in
  same_but_pdata m m'
  /\ pd.vel (pdata m') = pd.vel (pdata m)
  /\ pd.accel (pdata m') = pd.accel (pdata m)
  /\ length (pd.pos (pdata m')) = length (pd.pos (pdata m))
  /\ length (pd.image (pdata m')) = length (pd.image (pdata m))
  /\ forall idx, pd.local_num (pdata m) <= idx ->
       load (pd.pos (pdata m')) idx = load (pd.pos (pdata m)) idx
       /\ load (pd.image (pdata m')) idx = load (pd.image (pdata m)) idx.
Proof.
  intros Hwf HB Hmax Hacc m m'.
  destruct (accepted_boxscale _ _ _ _ _ _ Hacc) as (B1 & B2 & Hl).
  unfold m'. rewrite (gpu_npt_boxscale_result rt chk d box block_size Eta deltaT
                        Hwf HB Hmax B1 B2 Hl).
  fold m. unfold boxscale_result.
  split; [repeat split|]. split; [reflexivity|]. split; [reflexivity|].
  cbn [pdata set_pdata pd.pos pd.image pd.set_pos pd.set_image].
  rewrite !length_update_members. split; [reflexivity|]. split; [reflexivity|].
  intros idx Hidx.
  assert (Hm : member idx (seqZ 0 (pd.local_num (pdata m))) = false).
  { destruct (member idx (seqZ 0 (pd.local_num (pdata m)))) eqn:Hm; [|reflexivity].
    apply member_true, list_elem_of_In, elem_of_seqZ in Hm. lia. }
  rewrite !load_update_members, Hm.
  split; [destruct (load (pd.pos (pdata m)) idx) | destruct (load (pd.image (pdata m)) idx)];
    reflexivity.
Qed.

Lemma boxscale_frame_witness :
  let m' := mem (snd (gpu_npt_boxscale rt_ok true box_ex 2 1 1 dev_ex)) in
  same_but_pdata mem_ex m'
  /\ pd.vel (pdata m') = pd.vel pdata_ex
  /\ pd.accel (pdata m') = pd.accel pdata_ex
  /\ length (pd.pos (pdata m')) = length (pd.pos pdata_ex)
  /\ length (pd.image (pdata m')) = length (pd.image pdata_ex)
  /\ forall idx, 2 <= idx ->
       load (pd.pos (pdata m')) idx = load (pd.pos pdata_ex) idx
       /\ load (pd.image (pdata m')) idx = load (pd.image pdata_ex) idx.
Proof.
  apply (boxscale_frame rt_ok true dev_ex box_ex 2 1 1 pdata_ex_wf).
  - lia.
  - vm_compute. discriminate.
  - apply accepted_rt_ok.
Defined.

(** ** Launch configuration, empty inputs, zero time step *)

(** [rt_max_threads] accepts the launch of any driver with at most 512
    threads a block, and rejects the others. *)
Lemma accepted_rt_max_threads (dr : driver) (d : device) :
  driver_threads dr <= 512 -> accepted rt_max_threads dr d.
Proof.
  intros H. split; [intros t _; reflexivity|].
  cbn [launch_result rt_max_threads].
  destruct (Z.leb_spec (driver_threads dr) 512); [reflexivity | lia].
Qed.

Example rt_max_threads_rejects :
  ~ accepted rt_max_threads (StepOne 1 1024 1 1 1 1) dev_ex.
Proof. intros [_ H]. discriminate H. Qed.

Lemma set_pdata_same (m : device_memory) :
  set_pdata
    (pd.set_vel (pd.vel (pdata m)) (pd.set_pos (pd.pos (pdata m)) (pdata m))) m = m.
Proof. destruct m as [[] ? ? ? ? ?]. reflexivity. Qed.

(** X4.  The result of [gpu_npt_step_one], [gpu_npt_step_two] and
    [gpu_npt_boxscale] does not depend on the launch configuration: any two
    grids that cover the group (any two block sizes, for the box rescale)
    leave the same device memory, in either checking mode, whenever the
    runtime accepts the launches compared. *)
Theorem launch_configuration_irrelevant (rt : cuda_runtime) (chk1 chk2 : bool)
    (d : device) (box : gpu_boxsize)
    (group_size block_size1 num_blocks1 block_size2 num_blocks2 : Z)
    (Xi Eta deltaT : R) :
  pdata_wf (pdata (mem d)) ->
  group_wf (mem d) group_size ->
  length (d_net_force (mem d)) = Z.to_nat (pd.N (pdata (mem d))) ->
  grid_covers group_size num_blocks1 block_size1 ->
  grid_covers group_size num_blocks2 block_size2 ->
  (pd.local_num (pdata (mem d)) / block_size1 + 1) * block_size1 <= 2 ^ 31 ->
  (pd.local_num (pdata (mem d)) / block_size2 + 1) * block_size2 <= 2 ^ 31 ->
  accepted rt (StepOne group_size block_size1 num_blocks1 Xi Eta deltaT) d ->
  accepted rt (StepOne group_size block_size2 num_blocks2 Xi Eta deltaT) d ->
  accepted rt (StepTwo group_size block_size1 num_blocks1 Xi Eta deltaT) d ->
  accepted rt (StepTwo group_size block_size2 num_blocks2 Xi Eta deltaT) d ->
  accepted rt (BoxScale box block_size1 Eta deltaT) d ->
  accepted rt (BoxScale box block_size2 Eta deltaT) d ->
  mem (snd (gpu_npt_step_one rt chk1 group_size block_size1 num_blocks1 Xi Eta deltaT d))
  = mem (snd (gpu_npt_step_one rt chk2 group_size block_size2 num_blocks2 Xi Eta deltaT d))
  /\ mem (snd (gpu_npt_step_two rt chk1 group_size block_size1 num_blocks1 Xi Eta deltaT d))
     = mem (snd (gpu_npt_step_two rt chk2 group_size block_size2 num_blocks2 Xi Eta deltaT d))
  /\ mem (snd (gpu_npt_boxscale rt chk1 box block_size1 Eta deltaT d))
     = mem (snd (gpu_npt_boxscale rt chk2 box block_size2 Eta deltaT d)).
Proof.
  intros Hwf Hgwf Lforce Hg1 Hg2 Hm1 Hm2 Ha1 Ha2 Ht1 Ht2 Hs1 Hs2.
  destruct (accepted_step_one _ _ _ _ _ _ _ _ Ha1) as (A1 & A2 & A3 & Al).
  destruct (accepted_step_one _ _ _ _ _ _ _ _ Ha2) as (_ & _ & _ & Al').
  destruct (accepted_step_two _ _ _ _ _ _ _ _ Ht1) as (T1 & T2 & T3 & Tl).
  destruct (accepted_step_two _ _ _ _ _ _ _ _ Ht2) as (_ & _ & _ & Tl').
  destruct (accepted_boxscale _ _ _ _ _ _ Hs1) as (S1 & S2 & Sl).
  destruct (accepted_boxscale _ _ _ _ _ _ Hs2) as (_ & _ & Sl').
  rewrite !gpu_npt_step_one_result, !gpu_npt_step_two_result by assumption.
  rewrite !gpu_npt_boxscale_result by (try assumption; apply Hg1 || apply Hg2).
  repeat split.
Qed.

Lemma launch_configuration_irrelevant_witness :
  mem (snd (gpu_npt_step_one rt_max_threads true 1 2 1 1 1 1 dev_ex))
  = mem (snd (gpu_npt_step_one rt_max_threads false 1 1 5 1 1 1 dev_ex))
  /\ mem (snd (gpu_npt_step_two rt_max_threads true 1 2 1 1 1 1 dev_ex))
     = mem (snd (gpu_npt_step_two rt_max_threads false 1 1 5 1 1 1 dev_ex))
  /\ mem (snd (gpu_npt_boxscale rt_max_threads true box_ex 2 1 1 dev_ex))
     = mem (snd (gpu_npt_boxscale rt_max_threads false box_ex 1 1 1 dev_ex)).
Proof.
  apply (launch_configuration_irrelevant rt_max_threads true false dev_ex box_ex
           1 2 1 1 5 1 1 1 pdata_ex_wf mem_ex_group_wf).
  - reflexivity.
  - unfold grid_covers. lia.
  - unfold grid_covers. lia.
  - vm_compute. discriminate.
  - vm_compute. discriminate.
  - apply accepted_rt_max_threads. cbn. lia.
  - apply accepted_rt_max_threads. cbn. lia.
  - apply accepted_rt_max_threads. cbn. lia.
  - apply accepted_rt_max_threads. cbn. lia.
  - apply accepted_rt_max_threads. cbn. lia.
  - apply accepted_rt_max_threads. cbn. lia.
Defined.

Lemma group_wf_empty (m : device_memory) : group_wf m 0.
Proof.
  unfold group_wf. simpl. split; [lia|]. split; [constructor | apply NoDup_nil_2].
Qed.

(** X5.  With an empty group, [gpu_npt_step_one] and [gpu_npt_step_two]
    launch their grid and write nothing: the device memory after the call
    is the memory before it, whatever the grid. *)
Theorem empty_group_writes_nothing (rt : cuda_runtime) (chk : bool) (d : device)
    (block_size num_blocks : Z) (Xi Eta deltaT : R) :
  pdata_wf (pdata (mem d)) ->
  length (d_net_force (mem d)) = Z.to_nat (pd.N (pdata (mem d))) ->
  grid_covers 0 num_blocks block_size ->
  accepted rt (StepOne 0 block_size num_blocks Xi Eta deltaT) d ->
  accepted rt (StepTwo 0 block_size num_blocks Xi Eta deltaT) d ->
  mem (snd (gpu_npt_step_one rt chk 0 block_size num_blocks Xi Eta deltaT d)) = mem d
  /\ mem (snd (gpu_npt_step_two rt chk 0 block_size num_blocks Xi Eta deltaT d)) = mem d.
Proof.
  intros Hwf Lforce Hgrid Ha Ht.
  destruct (accepted_step_one _ _ _ _ _ _ _ _ Ha) as (A1 & A2 & A3 & Al).
  destruct (accepted_step_two _ _ _ _ _ _ _ _ Ht) as (T1 & T2 & T3 & Tl).
  rewrite gpu_npt_step_one_result, gpu_npt_step_two_result
    by (try assumption; apply group_wf_empty).
  split.
  - unfold step_one_result, group_of. cbn [Z.to_nat take].
    rewrite !update_members_nil. apply set_pdata_same.
  - unfold step_two_result, group_of. cbn [Z.to_nat take].
    rewrite !update_members_nil. destruct (mem d) as [[] ? ? ? ? ?]. reflexivity.
Qed.

Lemma empty_group_writes_nothing_witness :
  mem (snd (gpu_npt_step_one rt_max_threads true 0 2 3 1 1 1 dev_ex)) = mem_ex
  /\ mem (snd (gpu_npt_step_two rt_max_threads true 0 2 3 1 1 1 dev_ex)) = mem_ex.
Proof.
  apply (empty_group_writes_nothing rt_max_threads true dev_ex 2 3 1 1 1 pdata_ex_wf).
  - reflexivity.
  - unfold grid_covers. lia.
  - apply accepted_rt_max_threads. cbn. lia.
  - apply accepted_rt_max_threads. cbn. lia.
Defined.

Lemma pdata_ghosts_wf : pdata_wf (pdata (mem dev_ghosts)).
Proof. unfold pdata_wf. cbn. repeat split; lia. Qed.

(** X6.  With no local particle, [gpu_npt_boxscale] still launches a grid of
    one block (the grid size is [local_num / block_size + 1]), every worker
    of which fails the bounds test: the device memory is unchanged, ghost
    particles included. *)
Theorem boxscale_without_local_particles (rt : cuda_runtime) (chk : bool)
    (d : device) (box : gpu_boxsize) (block_size : Z) (Eta deltaT : R) :
  pdata_wf (pdata (mem d)) ->
  pd.local_num (pdata (mem d)) = 0 ->
  0 < block_size <= 2 ^ 31 ->
  accepted rt (BoxScale box block_size Eta deltaT) d ->
  driver_grid (BoxScale box block_size Eta deltaT) d = 1
  /\ mem (snd (gpu_npt_boxscale rt chk box block_size Eta deltaT d)) = mem d.
Proof.
  intros Hwf Hloc Hbs Hacc.
  destruct (accepted_boxscale _ _ _ _ _ _ Hacc) as (S1 & S2 & Sl).
  split.
  - cbn [driver_grid]. rewrite Hloc. unfold boxscale_grid.
    rewrite Z.div_0_l by lia. reflexivity.
  - rewrite gpu_npt_boxscale_result; try assumption; try lia.
    + unfold boxscale_result. rewrite Hloc. cbn [seqZ Z.to_nat seq fmap list_fmap].
      rewrite !update_members_nil. destruct (mem d) as [[] ? ? ? ? ?]. reflexivity.
    + rewrite Hloc, Z.div_0_l by lia. lia.
Qed.

Lemma boxscale_without_local_particles_witness :
  driver_grid (BoxScale box_ex 4 1 1) dev_ghosts = 1
  /\ mem (snd (gpu_npt_boxscale rt_ok true box_ex 4 1 1 dev_ghosts)) = mem dev_ghosts.
Proof.
  apply (boxscale_without_local_particles rt_ok true dev_ghosts box_ex 4 1 1
           pdata_ghosts_wf).
  - reflexivity.
  - lia.
  - apply accepted_rt_ok.
Defined.

Lemma half_kick4_dt0 (Xi Eta : R) (v a : float4.t) :
  half_kick4 (velScale Xi Eta 0) 0 v a = v.
Proof.
  unfold velScale. replace (- (Xi + Eta) * 0 / 4)%R with 0%R by lra.
  rewrite exp_0. destruct v. unfold half_kick4, half_kick. cbn. f_equal; ring.
Qed.

Lemma drift4_dt0 (ps : R) (p v : float4.t) : drift4 ps 0 p v = p.
Proof.
  destruct p. unfold drift4, drift, Rdiv. cbn. f_equal; ring.
Qed.

(** X7.  A zero time step is the identity for the integrator: with
    [deltaT = 0], for any thermostat and barostat values, [gpu_npt_step_one]
    leaves the whole device memory as it was, and [gpu_npt_step_two] leaves
    positions and velocities as they were, while it still stores
    [netForce / mass] as the acceleration of every group member. *)
Theorem zero_time_step (rt : cuda_runtime) (chk : bool) (d : device)
    (group_size block_size num_blocks : Z) (Xi Eta : R) :
  pdata_wf (pdata (mem d)) ->
  group_wf (mem d) group_size ->
  length (d_net_force (mem d)) = Z.to_nat (pd.N (pdata (mem d))) ->
  grid_covers group_size num_blocks block_size ->
  accepted rt (StepOne group_size block_size num_blocks Xi Eta 0) d ->
  accepted rt (StepTwo group_size block_size num_blocks Xi Eta 0) d ->
  let m1 := mem (snd (gpu_npt_step_one rt chk group_size block_size num_blocks Xi Eta 0 d)) in
  let m2 := mem (snd (gpu_npt_step_two rt chk group_size block_size num_blocks Xi Eta 0 d)) in
  m1 = mem d
  /\ pd.pos (pdata m2) = pd.pos (pdata (mem d))
  /\ pd.vel (pdata m2) = pd.vel (pdata (mem d))
  /\ forall idx, member idx (group_of (mem d) group_size) = true ->
       load (pd.accel (pdata m2)) idx
       = Some (force_over_mass (tex1Dfetch float4.zero (d_net_force (mem d)) idx)
                 (tex1Dfetch 0%R (pd.mass (pdata (mem d))) idx)).
Proof.
  intros Hwf Hgwf Lforce Hgrid Ha Ht m1 m2. subst m1 m2.
  destruct (accepted_step_one _ _ _ _ _ _ _ _ Ha) as (A1 & A2 & A3 & Al).
  destruct (accepted_step_two _ _ _ _ _ _ _ _ Ht) as (T1 & T2 & T3 & Tl).
  rewrite gpu_npt_step_one_result, gpu_npt_step_two_result by assumption.
  unfold step_one_result, step_two_result.
  split; [|split; [|split]].
  - rewrite (update_members_same _ float4.zero), (update_members_same _ float4.zero).
    + apply set_pdata_same.
    + intros i _ _. rewrite half_kick4_dt0. apply drift4_dt0.
    + intros i _ _. apply half_kick4_dt0.
  - reflexivity.
  - cbn [pdata set_pdata pd.accel pd.vel pd.set_accel pd.set_vel].
    apply (update_members_same _ float4.zero).
    intros i _ _. apply half_kick4_dt0.
  - intros idx Hidx.
    cbn [pdata set_pdata pd.accel pd.vel pd.set_accel pd.set_vel].
    rewrite load_update_members, Hidx.
    destruct Hgwf as (_ & Hmem & _). destruct Hwf as (_ & _ & _ & _ & Lacc & _).
    apply member_true in Hidx. apply list_elem_of_In in Hidx.
    rewrite Forall_forall in Hmem. apply (Hmem idx) in Hidx.
    destruct (load_is_Some (pd.accel (pdata (mem d))) idx) as [x ->]; [lia|reflexivity].
Qed.

Lemma zero_time_step_witness :
  let m1 := mem (snd (gpu_npt_step_one rt_max_threads true 1 2 1 1 1 0 dev_ex)) in
  let m2 := mem (snd (gpu_npt_step_two rt_max_threads true 1 2 1 1 1 0 dev_ex)) in
  m1 = mem dev_ex
  /\ pd.pos (pdata m2) = pd.pos (pdata (mem dev_ex))
  /\ pd.vel (pdata m2) = pd.vel (pdata (mem dev_ex))
  /\ forall idx, member idx (group_of (mem dev_ex) 1) = true ->
       load (pd.accel (pdata m2)) idx
       = Some (force_over_mass (tex1Dfetch float4.zero (d_net_force (mem dev_ex)) idx)
                 (tex1Dfetch 0%R (pd.mass (pdata (mem dev_ex))) idx)).
Proof.
  apply (zero_time_step rt_max_threads true dev_ex 1 2 1 1 1 pdata_ex_wf mem_ex_group_wf).
  - reflexivity.
  - unfold grid_covers. lia.
  - apply accepted_rt_max_threads. cbn. lia.
  - apply accepted_rt_max_threads. cbn. lia.
Defined.

(** ** The error state across calls *)

(** The device a driver leaves behind, in both modes, when its bindings
    succeed. *)
Lemma run_driver_state (rt : cuda_runtime) (dr : driver) (d : device) :
  (forall t, In t (driver_textures dr) -> bind_result rt t = cudaSuccess) ->
  let dev := bound_all (driver_textures dr) (pd.N (pdata (mem d))) d in
  let d1 := snd (cudaLaunch rt (driver_kernel dr) (driver_grid dr d) (driver_threads dr)
                   (driver_body rt dr d) dev) in
  snd (run_driver rt false dr d) = d1
  /\ mem (snd (run_driver rt true dr d)) = mem d1.
Proof.
  intros Hok dev d1.
  rewrite !run_driver_shape. unfold launch_driver.
  rewrite !bind_textures_ok by exact Hok. fold dev.
  unfold bind at 1 2. unfold d1.
  destruct (cudaLaunch rt (driver_kernel dr) (driver_grid dr d) (driver_threads dr)
              (driver_body rt dr d) dev) as [u d1'].
  cbn [snd]. rewrite epilogue_unchecked. cbn [snd].
  split; [reflexivity|].
  destruct (epilogue_checked d1') as (_ & _ & H). exact H.
Qed.

(** X11.  An error of an unchecked call is reported by a later call.  When
    the launch configuration of a driver is rejected and checked execution
    is disabled, the call returns success and leaves memory as it was; the
    next driver called with checked execution enabled, although its own
    bindings and launch are accepted, does not return success: if its kernel
    ran without fault it returns the error of the earlier call. *)
Theorem stale_error_reported_later (rt : cuda_runtime) (dr1 dr2 : driver)
    (d : device) (code : positive) :
  (forall t, In t (driver_textures dr1) -> bind_result rt t = cudaSuccess) ->
  (forall t, In t (driver_textures dr2) -> bind_result rt t = cudaSuccess) ->
  pending_fault d = cudaSuccess ->
  launch_result rt (driver_kernel dr1) (driver_grid dr1 d) (driver_threads dr1)
  = cudaError code ->
  launch_result rt (driver_kernel dr2) (driver_grid dr2 d) (driver_threads dr2)
  = cudaSuccess ->
  let d1 := snd (run_driver rt false dr1 d) in
  let dev := bound_all (driver_textures dr2) (pd.N (pdata (mem d1))) d1 in
  fst (run_driver rt false dr1 d) = cudaSuccess
  /\ mem d1 = mem d
  /\ fst (run_driver rt true dr2 d1) <> cudaSuccess
  /\ forall m', driver_body rt dr2 d1 (views dev) (mem d1) = Some m' ->
       fst (run_driver rt true dr2 d1) = cudaError code
       /\ mem (snd (run_driver rt true dr2 d1)) = m'.
Proof.
  intros Hok1 Hok2 Hpend Hrej Hacc d1 dev.
  destruct (launch_driver_ok rt dr1 d Hok1) as (Hfst & _).
  destruct (run_driver_state rt dr1 d Hok1) as (Hd1 & _).
  fold d1 in Hd1.
  destruct (bound_all_facts (driver_textures dr1) (pd.N (pdata (mem d))) d)
    as (Hm & He & Hp & _).
  destruct (cudaLaunch_facts rt (driver_kernel dr1) (driver_grid dr1 d)
              (driver_threads dr1) (driver_body rt dr1 d)
              (bound_all (driver_textures dr1) (pd.N (pdata (mem d))) d)) as [_ Hl].
  cbv zeta in Hl. rewrite <- Hd1, Hrej in Hl. destruct Hl as (Hmem & Herr & Hpf).
  rewrite Hm in Hmem. rewrite Hp, Hpend in Hpf.
  assert (Hgrid : driver_grid dr2 d1 = driver_grid dr2 d).
  { destruct dr2; cbn [driver_grid]; rewrite ?Hmem; reflexivity. }
  destruct (launch_driver_ok rt dr2 d1 Hok2) as (_ & _ & _ & Hst).
  cbv zeta in Hst. rewrite Hgrid, Hacc, Hpf, Herr in Hst. fold dev in Hst.
  split; [exact Hfst|]. split; [exact Hmem|]. split.
  - rewrite Hst. destruct (driver_body rt dr2 d1 (views dev) (mem d1)); discriminate.
  - intros m' Hbody. rewrite Hst, Hbody. split; [reflexivity|].
    apply run_driver_mem; [exact Hok2 | rewrite Hgrid; exact Hacc | exact Hbody].
Qed.

Lemma stale_error_reported_later_witness :
  let dr1 := StepOne 1 1024 1 1 1 1 in
  let dr2 := StepTwo 1 2 1 1 1 1 in
  let d1 := snd (run_driver rt_max_threads false dr1 dev_ex) in
  let dev := bound_all (driver_textures dr2) (pd.N (pdata (mem d1))) d1 in
  fst (run_driver rt_max_threads false dr1 dev_ex) = cudaSuccess
  /\ mem d1 = mem dev_ex
  /\ fst (run_driver rt_max_threads true dr2 d1) <> cudaSuccess
  /\ forall m', driver_body rt_max_threads dr2 d1 (views dev) (mem d1) = Some m' ->
       fst (run_driver rt_max_threads true dr2 d1) = cudaError 9
       /\ mem (snd (run_driver rt_max_threads true dr2 d1)) = m'.
Proof.
  apply (stale_error_reported_later rt_max_threads (StepOne 1 1024 1 1 1 1)
           (StepTwo 1 2 1 1 1 1) dev_ex 9).
  - intros t _. reflexivity.
  - intros t _. reflexivity.
  - reflexivity.
  - reflexivity.
  - reflexivity.
Defined.

(** ** The reductions for any block size *)

Lemma kept_pos_bound (p : positive) (i : Z) :
  In i (kept_pos p) -> 0 <= i < 2 * Zpos p.
Proof.
  revert i. induction p as [p IH|p IH|]; intros i Hi; cbn [kept_pos] in Hi.
  - apply in_app_or in Hi as [Hi|Hi].
    + apply IH in Hi. lia.
    + apply in_map_iff in Hi as (j & <- & Hj). apply IH in Hj. lia.
  - apply in_app_or in Hi as [Hi|Hi].
    + apply IH in Hi. lia.
    + apply in_map_iff in Hi as (j & <- & Hj). apply IH in Hj. lia.
  - destruct Hi as [<-|[<-|[]]]; lia.
Qed.

Lemma kept_pos_length (p : positive) :
  Z.of_nat (length (kept_pos p)) = 2 ^ (Z.log2 (Zpos p) + 1).
Proof.
  induction p as [p IH|p IH|]; cbn [kept_pos].
  - rewrite length_app, length_map, Nat2Z.inj_add, IH.
    rewrite (Pos2Z.inj_xI p), Z.log2_succ_double by lia.
    rewrite (Z.pow_add_r 2 (Z.succ _) 1) by (pose proof (Z.log2_nonneg (Zpos p)); lia).
    rewrite <- Z.add_1_r. lia.
  - rewrite length_app, length_map, Nat2Z.inj_add, IH.
    rewrite (Pos2Z.inj_xO p), Z.log2_double by lia.
    rewrite (Z.pow_add_r 2 (Z.succ _) 1) by (pose proof (Z.log2_nonneg (Zpos p)); lia).
    rewrite <- Z.add_1_r. lia.
  - reflexivity.
Qed.

Lemma NoDup_kept_pos (p : positive) : NoDup (kept_pos p).
Proof.
  assert (Hstep : forall (q : positive) (offs : Z),
            2 * Zpos q <= offs -> NoDup (kept_pos q) ->
            NoDup (kept_pos q ++ map (Z.add offs) (kept_pos q))).
  { intros q offs Hq Hnd. apply NoDup_app. split; [exact Hnd|]. split.
    - intros x Hx Hx'. apply list_elem_of_In in Hx. apply list_elem_of_In in Hx'.
      apply in_map_iff in Hx' as (j & <- & Hj).
      apply kept_pos_bound in Hx. apply kept_pos_bound in Hj. lia.
    - assert (Hinj : Inj eq eq (Z.add offs)) by (intros a b Hab; lia).
      apply (NoDup_fmap_2 (Z.add offs)). exact Hnd. }
  induction p as [p IH|p IH|]; cbn [kept_pos].
  - apply Hstep; [lia | exact IH].
  - apply Hstep; [lia | exact IH].
  - apply NoDup_cons. split; [|apply NoDup_singleton].
    intros H. apply list_elem_of_In in H. destruct H as [H|[]]. discriminate.
Qed.

Lemma Rsum_map_plus {A : Type} (f g : A -> R) (l : list A) :
  Rsum (map (fun x => (f x + g x)%R) l) = (Rsum (map f l) + Rsum (map g l))%R.
Proof.
  induction l as [|a l IH]; cbn [map].
  - change (Rsum []) with 0%R. ring.
  - rewrite !Rsum_cons, IH. ring.
Qed.

Lemma Rsum_map_ext {A : Type} (f g : A -> R) (l : list A) :
  (forall x, In x l -> f x = g x) -> Rsum (map f l) = Rsum (map g l).
Proof.
  intros H. f_equal. apply map_ext_in. exact H.
Qed.

(** One phase of the loop, for the threads below [offs]. *)
Lemma reduce_phase_get (offs : Z) (s : list R) (i : Z) :
  0 < offs -> 0 <= i < offs -> i < Z.of_nat (length s) ->
  shared_get (block_phase (reduce_thread offs) (Z.of_nat (length s)) s) i
  = (shared_get s i + shared_get s (i + offs))%R.
Proof.
  intros Hoffs Hi Hlen. unfold block_phase.
  destruct (reduce_threads_lookup offs s (length s) Hoffs ltac:(lia)) as [_ Hget].
  cbv zeta in Hget. specialize (Hget (Z.to_nat i)).
  rewrite Z2Nat.id in Hget by lia. rewrite Hget.
  destruct (Nat.ltb_spec (Z.to_nat i) (length s)); [|lia].
  destruct (Z.ltb_spec i offs); [|lia]. reflexivity.
Qed.

(** The loop started at [offs] leaves in slot 0 the sum of the slots of the
    kept threads. *)
Lemma reduce_loop_pos_kept (p : positive) (s : list R) :
  2 * Zpos p <= Z.of_nat (length s) ->
  shared_get (reduce_loop_pos (Z.of_nat (length s)) p s) 0
  = Rsum (map (shared_get s) (kept_pos p)).
Proof.
  assert (Hstep : forall (q : positive) (offs : Z) (s : list R),
            (forall s0, 2 * Zpos q <= Z.of_nat (length s0) ->
               shared_get (reduce_loop_pos (Z.of_nat (length s0)) q s0) 0
               = Rsum (map (shared_get s0) (kept_pos q))) ->
            2 * Zpos q <= offs -> 2 * offs <= Z.of_nat (length s) ->
            shared_get
              (reduce_loop_pos (Z.of_nat (length s)) q
                 (block_phase (reduce_thread offs) (Z.of_nat (length s)) s)) 0
            = Rsum (map (shared_get s) (kept_pos q ++ map (Z.add offs) (kept_pos q)))).
  { intros q offs s0 IH Hq Hlen.
    set (s' := block_phase (reduce_thread offs) (Z.of_nat (length s0)) s0).
    assert (Hl : length s' = length s0) by apply length_block_phase_reduce.
    rewrite <- Hl at 1. rewrite IH by (rewrite Hl; lia).
    rewrite map_app, Rsum_app, map_map.
    rewrite (Rsum_map_ext (shared_get s')
               (fun i => (shared_get s0 i + shared_get s0 (offs + i))%R)).
    - apply Rsum_map_plus.
    - intros i Hi. apply kept_pos_bound in Hi. unfold s'.
      rewrite reduce_phase_get by lia. rewrite (Z.add_comm offs i). reflexivity. }
  revert s. induction p as [p IH|p IH|]; intros s Hlen.
  - cbn [reduce_loop_pos kept_pos]. apply Hstep; [exact IH | lia | lia].
  - cbn [reduce_loop_pos kept_pos]. apply Hstep; [exact IH | lia | lia].
  - cbn [reduce_loop_pos kept_pos]. rewrite reduce_phase_get by lia.
    cbn [map]. rewrite !Rsum_cons. change (Rsum []) with 0%R.
    change (0 + 1) with 1. ring.
Qed.

Lemma kept_bound (B i : Z) : 0 < B -> In i (kept B) -> 0 <= i < B.
Proof.
  intros HB Hi. unfold kept in Hi.
  pose proof (Z.shiftr_div_pow2 B 1 ltac:(lia)) as Hs. change (2 ^ 1) with 2 in Hs.
  destruct (Z.shiftr B 1) as [|p|p] eqn:Hp.
  - destruct Hi as [<-|[]]. lia.
  - apply kept_pos_bound in Hi.
    pose proof (Z.mul_div_le B 2 ltac:(lia)). lia.
  - destruct Hi as [<-|[]]. lia.
Qed.

Lemma NoDup_kept (B : Z) : NoDup (kept B).
Proof.
  unfold kept. destruct (Z.shiftr B 1); try apply NoDup_singleton.
  apply NoDup_kept_pos.
Qed.

Lemma kept_length (B : Z) : 0 < B -> Z.of_nat (length (kept B)) = 2 ^ Z.log2 B.
Proof.
  intros HB. unfold kept.
  pose proof (Z.shiftr_div_pow2 B 1 ltac:(lia)) as Hs. change (2 ^ 1) with 2 in Hs.
  destruct (Z.shiftr B 1) as [|p|p] eqn:Hp.
  - assert (B = 1) by (pose proof (Z.div_small_iff B 2 ltac:(lia)); lia).
    subst B. reflexivity.
  - assert (2 <= B).
    { destruct (Z.le_gt_cases 2 B); [assumption|].
      rewrite Z.div_small in Hs by lia. discriminate. }
    pose proof (Z.log2_le_mono 2 B ltac:(lia)) as Hlog. change (Z.log2 2) with 1 in Hlog.
    rewrite kept_pos_length. f_equal. rewrite <- Hp, Z.log2_shiftr by lia. lia.
  - pose proof (Z.div_pos B 2 ltac:(lia) ltac:(lia)). lia.
Qed.

Lemma reduce_loop_kept (s : list R) :
  (0 < length s)%nat ->
  let B := Z.of_nat (length s) in
  shared_get (reduce_loop B (Z.shiftr B 1) s) 0 = Rsum (map (shared_get s) (kept B)).
Proof.
  intros Hlen B. unfold kept.
  pose proof (Z.shiftr_div_pow2 B 1 ltac:(lia)) as Hs. change (2 ^ 1) with 2 in Hs.
  destruct (Z.shiftr B 1) as [|p|p] eqn:Hp; cbn [reduce_loop].
  - cbn [map]. rewrite Rsum_cons. change (Rsum []) with 0%R. ring.
  - apply reduce_loop_pos_kept.
    pose proof (Z.mul_div_le B 2 ltac:(lia)). unfold B in *. lia.
  - cbn [map]. rewrite Rsum_cons. change (Rsum []) with 0%R. ring.
Qed.

(** One pass of the reduction, for any block size. *)
Lemma reduction_pass_kept (c : Z -> option R) (f : Z -> R) (B b : Z)
    (s out : list R) :
  0 < B -> length s = Z.to_nat B ->
  (forall t, 0 <= t < B -> c t = Some (f t)) ->
  0 <= b < Z.of_nat (length out) ->
  exists s2,
    reduction_pass c b B s out
    = Some (s2, <[Z.to_nat b := Rsum (map f (kept B))]> out)
    /\ length s2 = Z.to_nat B.
Proof.
  intros HB0 Hlen Hc Hb.
  assert (HB : B = Z.of_nat (length s)) by lia.
  destruct (load_phase_ok c f s) as (s1 & Hload & Hl1 & Hget).
  { intros t Ht. apply Hc. lia. }
  unfold reduction_pass. rewrite HB, Hload. rewrite <- HB.
  rewrite write_phase_ok; [|lia|exact Hb].
  eexists. split.
  - do 3 f_equal.
    assert (HB1 : B = Z.of_nat (length s1)) by lia.
    rewrite HB1. rewrite reduce_loop_kept by lia. cbv zeta. rewrite <- HB1.
    apply Rsum_map_ext. intros t Ht. apply (kept_bound B t HB0) in Ht.
    rewrite <- (Z2Nat.id t) by lia. apply Hget. lia.
  - rewrite length_reduce_loop. lia.
Qed.

(** One block of each reduction kernel, for any block size. *)
Lemma gpu_npt_group_temperature_kernel_kept (tex : textures) (m : device_memory)
    (group_size num_blocks B b : Z) (scr out : list R) :
  pdata_vel_tex tex = pd.vel (pdata m) ->
  pdata_mass_tex tex = pd.mass (pdata m) ->
  pdata_wf (pdata m) -> group_wf m group_size ->
  0 < B -> num_blocks * B <= 2 ^ 31 ->
  0 <= b < num_blocks -> b < Z.of_nat (length out) ->
  length scr = Z.to_nat B ->
  gpu_npt_group_temperature_kernel tex (d_group_members m) group_size b B scr out
  = Some (<[Z.to_nat b := block_kept_sum (group_2K m group_size) b B]> out).
Proof.
  intros Tv Tm Hwf Hgwf HB Hmax Hb Hout Hscr.
  unfold gpu_npt_group_temperature_kernel.
  destruct (reduction_pass_kept
              (group_temperature_psq2 tex (d_group_members m) group_size b B)
              (fun t => group_2K m group_size (b * B + t))
              B b scr out HB Hscr) as (s2 & -> & _).
  - intros t Ht. apply (group_temperature_psq2_ok tex m group_size num_blocks); auto.
  - lia.
  - reflexivity.
Qed.

Lemma gpu_npt_pressure_kernel2_kept (m : device_memory)
    (num_blocks B b : Z) (scr out2K outW : list R) :
  pdata_wf (pdata m) ->
  pd.local_num (pdata m) <= Z.of_nat (length (d_net_virial m)) ->
  0 < B -> num_blocks * B <= 2 ^ 31 ->
  0 <= b < num_blocks ->
  b < Z.of_nat (length out2K) -> b < Z.of_nat (length outW) ->
  length scr = Z.to_nat B ->
  gpu_npt_pressure_kernel2 (pdata m) (d_net_virial m) b B scr (out2K, outW)
  = Some (<[Z.to_nat b := block_kept_sum (particle_2K m) b B]> out2K,
          <[Z.to_nat b := block_kept_sum (particle_W m) b B]> outW).
Proof.
  intros Hwf Hvir HB Hmax Hb H2K HW Hscr.
  unfold gpu_npt_pressure_kernel2.
  destruct (reduction_pass_kept
              (pressure_virial (pdata m) (d_net_virial m) b B)
              (fun t => particle_W m (b * B + t))
              B b scr outW HB Hscr) as (s2 & -> & Hs2).
  - intros t Ht. apply (pressure_contributions_ok m num_blocks); auto.
  - lia.
  - destruct (reduction_pass_kept
                (pressure_psq2 (pdata m) b B)
                (fun t => particle_2K m (b * B + t))
                B b s2 out2K HB Hs2) as (s3 & -> & _).
    + intros t Ht. apply (pressure_contributions_ok m num_blocks); auto.
    + lia.
    + reflexivity.
Qed.

Lemma scatter_slots (total : Z -> R) (grid : Z) (out : list R) :
  scatter (fun b : Z => Some b) total (seqZ 0 grid) out
  = update_members total (seqZ 0 grid) out.
Proof.
  apply scatter_update_members.
  - intros w j Hin [= <-]. split.
    + apply list_elem_of_In, elem_of_seqZ in Hin. lia.
    + apply member_true. exact Hin.
  - intros j _ Hj. exists j. split; [apply member_true; exact Hj | reflexivity].
Qed.

(** The blocks of a reduction kernel amount to one map over the partial
    sums. *)
Lemma run_blocks_update (kernel : Z -> Z -> list R -> list R -> option (list R))
    (scr : Z -> list R) (total : Z -> R) (grid threads : Z) (out : list R) :
  (forall b o, 0 <= b < grid -> length o = length out ->
               kernel b threads (scr b) o = Some (<[Z.to_nat b := total b]> o)) ->
  run_blocks kernel scr grid threads out
  = Some (update_members total (seqZ 0 grid) out).
Proof.
  intros Hk. unfold run_blocks.
  destruct (run_workers_fold
              (fun b => kernel b threads (scr b))
              (fun b o => <[Z.to_nat b := total b]> o)
              (fun o => length o = length out)
              (seqZ 0 grid) out) as [Hrun _].
  { reflexivity. }
  { intros b o Hin Ho. apply list_elem_of_In, elem_of_seqZ in Hin.
    split; [apply Hk; [lia | exact Ho]|]. rewrite length_insert. exact Ho. }
  rewrite Hrun. f_equal. apply scatter_slots.
Qed.

Lemma run_blocks_update2
    (kernel : Z -> Z -> list R -> list R * list R -> option (list R * list R))
    (scr : Z -> list R) (total1 total2 : Z -> R) (grid threads : Z)
    (out : list R * list R) :
  (forall b o, 0 <= b < grid ->
               length (fst o) = length (fst out) -> length (snd o) = length (snd out) ->
               kernel b threads (scr b) o
               = Some (<[Z.to_nat b := total1 b]> (fst o), <[Z.to_nat b := total2 b]> (snd o))) ->
  run_blocks kernel scr grid threads out
  = Some (update_members total1 (seqZ 0 grid) (fst out),
          update_members total2 (seqZ 0 grid) (snd out)).
Proof.
  intros Hk. unfold run_blocks.
  destruct (run_workers_fold
              (fun b => kernel b threads (scr b))
              (fun b o => (<[Z.to_nat b := total1 b]> (fst o), <[Z.to_nat b := total2 b]> (snd o)))
              (fun o => length (fst o) = length (fst out)
                        /\ length (snd o) = length (snd out))
              (seqZ 0 grid) out) as [Hrun _].
  { split; reflexivity. }
  { intros b o Hin [Ho1 Ho2]. apply list_elem_of_In, elem_of_seqZ in Hin.
    split; [apply Hk; [lia | exact Ho1 | exact Ho2]|].
    simpl. rewrite !length_insert. split; assumption. }
  rewrite Hrun. f_equal.
  assert (Hproj : forall (l : list Z) o,
             fold_left (fun o b => (<[Z.to_nat b := total1 b]> (fst o),
                                    <[Z.to_nat b := total2 b]> (snd o))) l o
             = (scatter (fun b0 : Z => Some b0) total1 l (fst o),
                scatter (fun b0 : Z => Some b0) total2 l (snd o))).
  { induction l as [|b l IH]; intros o; [destruct o; reflexivity|].
    simpl. rewrite IH. reflexivity. }
  rewrite Hproj, !scatter_slots. reflexivity.
Qed.

(** The memory [gpu_npt_group_temperature] and [gpu_npt_pressure2] leave,
    for any block size. *)
Lemma gpu_npt_group_temperature_result (rt : cuda_runtime) (chk : bool) (d : device)
    (group_size block_size num_blocks : Z) :
  pdata_wf (pdata (mem d)) ->
  group_wf (mem d) group_size ->
  0 < block_size -> num_blocks * block_size <= 2 ^ 31 ->
  num_blocks <= Z.of_nat (length (d_partial_sum2K (mem d))) ->
  accepted rt (GroupTemperature group_size block_size num_blocks) d ->
  mem (snd (gpu_npt_group_temperature rt chk group_size block_size num_blocks d))
  = group_temperature_result group_size block_size num_blocks (mem d).
Proof.
  intros Hwf Hgwf HB Hmax Hout [Hok Hlaunch].
  set (dr := GroupTemperature group_size block_size num_blocks) in *.
  change (gpu_npt_group_temperature rt chk group_size block_size num_blocks)
    with (run_driver rt chk dr).
  apply run_driver_mem; [exact Hok | exact Hlaunch |].
  set (dev := bound_all (driver_textures dr) (pd.N (pdata (mem d))) d).
  pose proof Hwf as (Hloc & HN & Lpos & Lvel & Lacc & Lmass & Limg).
  assert (Htex : pdata_vel_tex (views dev) = pd.vel (pdata (mem d))
                 /\ pdata_mass_tex (views dev) = pd.mass (pdata (mem d))).
  { unfold dev, views. destruct (bound_all_facts (driver_textures dr)
                                   (pd.N (pdata (mem d))) d) as [-> _].
    cbn. rewrite !firstn_all2 by lia. split; reflexivity. }
  destruct Htex as [Tv Tm].
  cbn [driver_body dr].
  rewrite (run_blocks_update _ _
             (fun b => block_kept_sum (group_2K (mem d) group_size) b block_size)).
  - reflexivity.
  - intros b o Hb Ho.
    apply (gpu_npt_group_temperature_kernel_kept (views dev) (mem d) group_size num_blocks);
      try assumption; [lia|].
    apply length_scratch.
Qed.

Lemma gpu_npt_pressure2_result (rt : cuda_runtime) (chk : bool) (d : device)
    (block_size num_blocks : Z) :
  pdata_wf (pdata (mem d)) ->
  pd.local_num (pdata (mem d)) <= Z.of_nat (length (d_net_virial (mem d))) ->
  0 < block_size -> num_blocks * block_size <= 2 ^ 31 ->
  num_blocks <= Z.of_nat (length (d_partial_sum2K (mem d))) ->
  num_blocks <= Z.of_nat (length (d_partial_sumW (mem d))) ->
  accepted rt (Pressure2 block_size num_blocks) d ->
  mem (snd (gpu_npt_pressure2 rt chk block_size num_blocks d))
  = pressure2_result block_size num_blocks (mem d).
Proof.
  intros Hwf Hvir HB Hmax Hout2K HoutW [Hok Hlaunch].
  set (dr := Pressure2 block_size num_blocks) in *.
  change (gpu_npt_pressure2 rt chk block_size num_blocks) with (run_driver rt chk dr).
  apply run_driver_mem; [exact Hok | exact Hlaunch |].
  cbn [driver_body dr].
  rewrite (run_blocks_update2 _ _
             (fun b => block_kept_sum (particle_2K (mem d)) b block_size)
             (fun b => block_kept_sum (particle_W (mem d)) b block_size)).
  - reflexivity.
  - intros b [o1 o2] Hb Ho1 Ho2. cbn [fst snd] in *.
    apply (gpu_npt_pressure_kernel2_kept (mem d) num_blocks); try assumption; try lia.
    apply length_scratch.
Qed.

Lemma load_update_slots (total : Z -> R) (grid : Z) (out : list R) (b : Z) :
  0 <= b < grid -> b < Z.of_nat (length out) ->
  load (update_members total (seqZ 0 grid) out) b = Some (total b).
Proof.
  intros Hb Hout. rewrite load_update_members.
  destruct (load_is_Some out b ltac:(lia)) as [x ->].
  replace (member b (seqZ 0 grid)) with true; [reflexivity|].
  symmetry. apply member_true, list_elem_of_In, elem_of_seqZ. lia.
Qed.

Lemma load_update_slots_beyond (total : Z -> R) (grid : Z) (out : list R) (j : Z) :
  grid <= j -> load (update_members total (seqZ 0 grid) out) j = load out j.
Proof.
  intros Hj. rewrite load_update_members.
  replace (member j (seqZ 0 grid)) with false; [destruct (load out j); reflexivity|].
  symmetry. destruct (member j (seqZ 0 grid)) eqn:Hm; [|reflexivity].
  apply member_true, list_elem_of_In, elem_of_seqZ in Hm. lia.
Qed.

(** For a power of two every thread of the block is kept, once. *)
Lemma kept_pow2_Permutation (k : nat) :
  Permutation (kept (2 ^ Z.of_nat k)) (seqZ 0 (2 ^ Z.of_nat k)).
Proof.
  pose proof (pow2_pos k) as HB.
  apply submseteq_length_Permutation.
  - apply NoDup_submseteq; [apply NoDup_kept|].
    intros x Hx. apply elem_of_seqZ. apply list_elem_of_In in Hx.
    apply (kept_bound _ _ HB) in Hx. lia.
  - rewrite length_seqZ.
    pose proof (kept_length _ HB) as Hl. rewrite Z.log2_pow2 in Hl by lia. lia.
Qed.

Lemma kept_odd (B : Z) : 1 < B -> Z.odd B = true -> ~ In (B - 1) (kept B).
Proof.
  intros HB Hodd Hin. unfold kept in Hin.
  pose proof (Z.shiftr_div_pow2 B 1 ltac:(lia)) as Hs. change (2 ^ 1) with 2 in Hs.
  apply Z.odd_spec in Hodd as [k Hk].
  assert (Hd : B / 2 = k) by (subst B; symmetry; apply (Z.div_unique _ 2 k 1); lia).
  destruct (Z.shiftr B 1) as [|p|p] eqn:Hp.
  - lia.
  - apply kept_pos_bound in Hin. lia.
  - lia.
Qed.

(** X13.  The reduction kernels for any block size, a power of two or not.
    Slot [b] of the partial sums holds the contributions of the kept threads
    of block [b] only: [2 ^ floor(log2 B)] distinct threads of the [B] of
    the block.  For a power of two these are all the threads of the block,
    each once; otherwise the contributions of the other threads are dropped,
    that of the last thread of the block for every odd block size above
    one. *)
Theorem reduction_any_block_size (rt : cuda_runtime) (chk : bool) (d : device)
    (group_size block_size num_blocks : Z) :
  let m := mem d in
  pdata_wf (pdata m) ->
  group_wf m group_size ->
  pd.local_num (pdata m) <= Z.of_nat (length (d_net_virial m)) ->
  0 < block_size -> num_blocks * block_size <= 2 ^ 31 ->
  num_blocks <= Z.of_nat (length (d_partial_sum2K m)) ->
  num_blocks <= Z.of_nat (length (d_partial_sumW m)) ->
  accepted rt (GroupTemperature group_size block_size num_blocks) d ->
  accepted rt (Pressure2 block_size num_blocks) d ->
  let mg := mem (snd (gpu_npt_group_temperature rt chk group_size block_size num_blocks d)) in
  let mp := mem (snd (gpu_npt_pressure2 rt chk block_size num_blocks d)) in
  (forall b, 0 <= b < num_blocks ->
     load (d_partial_sum2K mg) b
     = Some (block_kept_sum (group_2K m group_size) b block_size)
     /\ load (d_partial_sum2K mp) b = Some (block_kept_sum (particle_2K m) b block_size)
     /\ load (d_partial_sumW mp) b = Some (block_kept_sum (particle_W m) b block_size))
  /\ NoDup (kept block_size)
  /\ (forall t, In t (kept block_size) -> 0 <= t < block_size)
  /\ Z.of_nat (length (kept block_size)) = 2 ^ Z.log2 block_size
  /\ (forall k : nat, block_size = 2 ^ Z.of_nat k ->
      Permutation (kept block_size) (seqZ 0 block_size))
  /\ (1 < block_size -> Z.odd block_size = true -> ~ In (block_size - 1) (kept block_size)).
Proof.
  intros m Hwf Hgwf Hvir HB Hmax H2K HW Hag Hap mg mp.
  split; [|split; [apply NoDup_kept|split; [intros t; apply kept_bound, HB|
           split; [apply kept_length, HB |
           split; [intros k ->; apply kept_pow2_Permutation | apply kept_odd]]]]].
  intros b Hb. unfold mg, mp.
  rewrite gpu_npt_group_temperature_result, gpu_npt_pressure2_result by auto.
  unfold group_temperature_result, pressure2_result.
  cbn [d_partial_sum2K d_partial_sumW set_partial_sum2K set_partial_sumW].
  fold m. rewrite !load_update_slots by lia. repeat split.
Qed.

Lemma reduction_any_block_size_witness :
  let m := mem dev_ex in
  let mg := mem (snd (gpu_npt_group_temperature rt_max_threads true 1 3 1 dev_ex)) in
  let mp := mem (snd (gpu_npt_pressure2 rt_max_threads true 3 1 dev_ex)) in
  (forall b, 0 <= b < 1 ->
     load (d_partial_sum2K mg) b = Some (block_kept_sum (group_2K m 1) b 3)
     /\ load (d_partial_sum2K mp) b = Some (block_kept_sum (particle_2K m) b 3)
     /\ load (d_partial_sumW mp) b = Some (block_kept_sum (particle_W m) b 3))
  /\ NoDup (kept 3)
  /\ (forall t, In t (kept 3) -> 0 <= t < 3)
  /\ Z.of_nat (length (kept 3)) = 2 ^ Z.log2 3
  /\ (forall k : nat, 3 = 2 ^ Z.of_nat k -> Permutation (kept 3) (seqZ 0 3))
  /\ (1 < 3 -> Z.odd 3 = true -> ~ In (3 - 1) (kept 3)).
Proof.
  apply (reduction_any_block_size rt_max_threads true dev_ex 1 3 1
           pdata_ex_wf mem_ex_group_wf).
  - cbn. lia.
  - lia.
  - lia.
  - cbn. lia.
  - cbn. lia.
  - apply accepted_rt_max_threads. cbn. lia.
  - apply accepted_rt_max_threads. cbn. lia.
Defined.

(** The kept threads of some block sizes: all of them for a power of two,
    fewer otherwise. *)
Example kept_examples :
  kept 1 = [0] /\ kept 2 = [0; 1] /\ kept 3 = [0; 1] /\ kept 4 = [0; 1; 2; 3]
  /\ kept 6 = [0; 1; 3; 4] /\ kept 8 = [0; 1; 2; 3; 4; 5; 6; 7].
Proof. repeat split. Qed.

(** X14.  The reduction drivers write nothing but the first [num_blocks]
    slots of their partial sums: the particle data, the group list, the net
    force and the net virial are the same after the call, the arrays of
    partial sums keep their length and every slot from [num_blocks] on, and
    [gpu_npt_group_temperature] leaves [d_partial_sumW] alone. *)
Theorem reduction_frame (rt : cuda_runtime) (chk : bool) (d : device)
    (group_size block_size num_blocks : Z) :
  let m := mem d in
  pdata_wf (pdata m) ->
  group_wf m group_size ->
  pd.local_num (pdata m) <= Z.of_nat (length (d_net_virial m)) ->
  0 < block_size -> num_blocks * block_size <= 2 ^ 31 ->
  num_blocks <= Z.of_nat (length (d_partial_sum2K m)) ->
  num_blocks <= Z.of_nat (length (d_partial_sumW m)) ->
  accepted rt (GroupTemperature group_size block_size num_blocks) d ->
  accepted rt (Pressure2 block_size num_blocks) d ->
  let mg := mem (snd (gpu_npt_group_temperature rt chk group_size block_size num_blocks d)) in
  let mp := mem (snd (gpu_npt_pressure2 rt chk block_size num_blocks d)) in
  (pdata mg = pdata m /\ d_group_members mg = d_group_members m
   /\ d_net_force mg = d_net_force m /\ d_net_virial mg = d_net_virial m
   /\ d_partial_sumW mg = d_partial_sumW m
   /\ length (d_partial_sum2K mg) = length (d_partial_sum2K m))
  /\ (pdata mp = pdata m /\ d_group_members mp = d_group_members m
      /\ d_net_force mp = d_net_force m /\ d_net_virial mp = d_net_virial m
      /\ length (d_partial_sum2K mp) = length (d_partial_sum2K m)
      /\ length (d_partial_sumW mp) = length (d_partial_sumW m))
  /\ forall j, num_blocks <= j ->
       load (d_partial_sum2K mg) j = load (d_partial_sum2K m) j
       /\ load (d_partial_sum2K mp) j = load (d_partial_sum2K m) j
       /\ load (d_partial_sumW mp) j = load (d_partial_sumW m) j.
Proof.
  intros m Hwf Hgwf Hvir HB Hmax H2K HW Hag Hap mg mp. unfold mg, mp.
  rewrite gpu_npt_group_temperature_result, gpu_npt_pressure2_result by auto.
  unfold group_temperature_result, pressure2_result.
  cbn [pdata d_group_members d_net_force d_net_virial d_partial_sum2K d_partial_sumW
       set_partial_sum2K set_partial_sumW].
  fold m. rewrite !length_update_members.
  split; [repeat split|]. split; [repeat split|].
  intros j Hj. rewrite !load_update_slots_beyond by exact Hj. repeat split.
Qed.

Lemma reduction_frame_witness :
  let m := mem dev_ex in
  let mg := mem (snd (gpu_npt_group_temperature rt_max_threads true 1 2 1 dev_ex)) in
  let mp := mem (snd (gpu_npt_pressure2 rt_max_threads true 2 1 dev_ex)) in
  (pdata mg = pdata m /\ d_group_members mg = d_group_members m
   /\ d_net_force mg = d_net_force m /\ d_net_virial mg = d_net_virial m
   /\ d_partial_sumW mg = d_partial_sumW m
   /\ length (d_partial_sum2K mg) = length (d_partial_sum2K m))
  /\ (pdata mp = pdata m /\ d_group_members mp = d_group_members m
      /\ d_net_force mp = d_net_force m /\ d_net_virial mp = d_net_virial m
      /\ length (d_partial_sum2K mp) = length (d_partial_sum2K m)
      /\ length (d_partial_sumW mp) = length (d_partial_sumW m))
  /\ forall j, 1 <= j ->
       load (d_partial_sum2K mg) j = load (d_partial_sum2K m) j
       /\ load (d_partial_sum2K mp) j = load (d_partial_sum2K m) j
       /\ load (d_partial_sumW mp) j = load (d_partial_sumW m) j.
Proof.
  apply (reduction_frame rt_max_threads true dev_ex 1 2 1 pdata_ex_wf mem_ex_group_wf).
  - cbn. lia.
  - lia.
  - lia.
  - cbn. lia.
  - cbn. lia.
  - apply accepted_rt_max_threads. cbn. lia.
  - apply accepted_rt_max_threads. cbn. lia.
Defined.

Lemma Rsum_zero {A : Type} (f : A -> R) (l : list A) :
  (forall x, In x l -> f x = 0%R) -> Rsum (map f l) = 0%R.
Proof.
  induction l as [|a l IH]; intros H; [reflexivity|].
  cbn [map]. rewrite Rsum_cons, IH, (H a).
  - ring.
  - left. reflexivity.
  - intros x Hx. apply H. right. exact Hx.
Qed.

(** X16.  With nothing to sum the reduction drivers still write: with an
    empty group [gpu_npt_group_temperature] stores zero in each of the
    first [num_blocks] slots, and with no local particle so does
    [gpu_npt_pressure2] in both arrays, for any block size. *)
Theorem empty_reduction_writes_zero (rt : cuda_runtime) (chk : bool) (d : device)
    (block_size num_blocks b : Z) :
  let m := mem d in
  pdata_wf (pdata m) ->
  pd.local_num (pdata m) = 0 ->
  0 < block_size -> num_blocks * block_size <= 2 ^ 31 ->
  num_blocks <= Z.of_nat (length (d_partial_sum2K m)) ->
  num_blocks <= Z.of_nat (length (d_partial_sumW m)) ->
  accepted rt (GroupTemperature 0 block_size num_blocks) d ->
  accepted rt (Pressure2 block_size num_blocks) d ->
  0 <= b < num_blocks ->
  let mg := mem (snd (gpu_npt_group_temperature rt chk 0 block_size num_blocks d)) in
  let mp := mem (snd (gpu_npt_pressure2 rt chk block_size num_blocks d)) in
  load (d_partial_sum2K mg) b = Some 0%R
  /\ load (d_partial_sum2K mp) b = Some 0%R
  /\ load (d_partial_sumW mp) b = Some 0%R.
Proof.
  intros m Hwf Hloc HB Hmax H2K HW Hag Hap Hb mg mp. unfold mg, mp.
  assert (Hvir : pd.local_num (pdata m) <= Z.of_nat (length (d_net_virial m))) by lia.
  rewrite gpu_npt_group_temperature_result by auto using group_wf_empty.
  rewrite gpu_npt_pressure2_result by auto.
  unfold group_temperature_result, pressure2_result.
  cbn [d_partial_sum2K d_partial_sumW set_partial_sum2K set_partial_sumW].
  fold m. rewrite !load_update_slots by lia.
  unfold block_kept_sum.
  repeat split; f_equal; apply Rsum_zero; intros t Ht;
    apply (kept_bound _ _ HB) in Ht.
  - unfold group_2K. destruct (Z.ltb_spec (b * block_size + t) 0); [nia | reflexivity].
  - unfold particle_2K. fold m. rewrite Hloc.
    destruct (Z.ltb_spec (b * block_size + t) 0); [nia | reflexivity].
  - unfold particle_W. fold m. rewrite Hloc.
    destruct (Z.ltb_spec (b * block_size + t) 0); [nia | reflexivity].
Qed.

Lemma empty_reduction_writes_zero_witness :
  let m := mem dev_ghosts in
  let mg := mem (snd (gpu_npt_group_temperature rt_max_threads true 0 3 1 dev_ghosts)) in
  let mp := mem (snd (gpu_npt_pressure2 rt_max_threads true 3 1 dev_ghosts)) in
  load (d_partial_sum2K mg) 0 = Some 0%R
  /\ load (d_partial_sum2K mp) 0 = Some 0%R
  /\ load (d_partial_sumW mp) 0 = Some 0%R.
Proof.
  apply (empty_reduction_writes_zero rt_max_threads true dev_ghosts 3 1 0 pdata_ghosts_wf).
  - reflexivity.
  - lia.
  - lia.
  - cbn. lia.
  - cbn. lia.
  - apply accepted_rt_max_threads. cbn. lia.
  - apply accepted_rt_max_threads. cbn. lia.
  - lia.
Defined.

(** ** One step after the other *)

Lemma tex1Dfetch_update_members {A : Type} (zero : A) (f : Z -> A)
    (members : list Z) (arr : list A) (i : Z) :
  0 <= i < Z.of_nat (length arr) ->
  tex1Dfetch zero (update_members f members arr) i
  = if member i members then f i else tex1Dfetch zero arr i.
Proof.
  intros Hi. destruct (load_is_Some arr i Hi) as [x Hx].
  rewrite (tex1Dfetch_load zero arr i x Hx).
  apply tex1Dfetch_load. rewrite load_update_members, Hx. reflexivity.
Qed.

Lemma pdata_wf_step_one_result (group_size : Z) (Xi Eta deltaT : R) (m : device_memory) :
  pdata_wf (pdata m) -> pdata_wf (pdata (step_one_result group_size Xi Eta deltaT m)).
Proof.
  unfold pdata_wf, step_one_result.
  cbn [pdata set_pdata pd.N pd.local_num pd.pos pd.vel pd.accel pd.mass pd.image
       pd.set_pos pd.set_vel].
  rewrite !length_update_members. tauto.
Qed.

(** X17.  The two halves of a time step chain: [gpu_npt_step_two], called
    after [gpu_npt_step_one] on the same group, kicks the velocity step one
    left, with the acceleration [netForce / mass] it stores, and leaves the
    position step one drifted to.  For a group member with velocity [v],
    acceleration [a] and position [r] before the two calls:
    [v1 = half_kick v a], [r' = drift r v1], [v' = half_kick v1 (f/m)]. *)
Theorem step_one_then_step_two (rt : cuda_runtime) (chk chk' : bool) (d : device)
    (group_size block_size num_blocks : Z) (Xi Eta deltaT : R) (idx : Z) :
  let m := mem d in
  pdata_wf (pdata m) ->
  group_wf m group_size ->
  length (d_net_force m) = Z.to_nat (pd.N (pdata m)) ->
  grid_covers group_size num_blocks block_size ->
  accepted rt (StepOne group_size block_size num_blocks Xi Eta deltaT) d ->
  accepted rt (StepTwo group_size block_size num_blocks Xi Eta deltaT)
    (snd (gpu_npt_step_one rt chk group_size block_size num_blocks Xi Eta deltaT d)) ->
  member idx (group_of m group_size) = true ->
  let d1 := snd (gpu_npt_step_one rt chk group_size block_size num_blocks Xi Eta deltaT d) in
  let d2 := snd (gpu_npt_step_two rt chk' group_size block_size num_blocks Xi Eta deltaT d1) in
  let v := tex1Dfetch float4.zero (pd.vel (pdata m)) idx in
  let a := tex1Dfetch float4.zero (pd.accel (pdata m)) idx in
  let r := tex1Dfetch float4.zero (pd.pos (pdata m)) idx in
  let a' := force_over_mass (tex1Dfetch float4.zero (d_net_force m) idx)
              (tex1Dfetch 0%R (pd.mass (pdata m)) idx) in
  let v1 := half_kick4 (velScale Xi Eta deltaT) deltaT v a in
  load (pd.pos (pdata (mem d2))) idx = Some (drift4 (posScale Eta deltaT) deltaT r v1)
  /\ load (pd.vel (pdata (mem d2))) idx
     = Some (half_kick4 (velScale Xi Eta deltaT) deltaT v1 a')
  /\ load (pd.accel (pdata (mem d2))) idx = Some a'.
Proof.
  intros m Hwf Hgwf Lforce Hgrid Ha Ht Hidx d1 d2 v a r a' v1.
  destruct (accepted_step_one _ _ _ _ _ _ _ _ Ha) as (A1 & A2 & A3 & Al).
  destruct (accepted_step_two _ _ _ _ _ _ _ _ Ht) as (T1 & T2 & T3 & Tl).
  assert (H1 : mem d1 = step_one_result group_size Xi Eta deltaT m).
  { apply gpu_npt_step_one_result; assumption. }
  assert (H2 : mem d2 = step_two_result group_size Xi Eta deltaT (mem d1)).
  { apply gpu_npt_step_two_result; try assumption; rewrite H1.
    - apply pdata_wf_step_one_result, Hwf.
    - exact Hgwf.
    - exact Lforce. }
  rewrite H2, H1.
  pose proof Hwf as (_ & _ & Lpos & Lvel & Lacc & _).
  assert (Hin : 0 <= idx < pd.N (pdata m)).
  { destruct Hgwf as (_ & Hmem & _). rewrite Forall_forall in Hmem.
    apply (Hmem idx). apply list_elem_of_In, member_true. exact Hidx. }
  unfold step_two_result, step_one_result.
  cbn [pdata set_pdata pd.pos pd.vel pd.accel pd.mass pd.set_pos pd.set_vel pd.set_accel
       d_net_force d_group_members].
  fold (group_of m group_size).
  change (group_of _ group_size) with (group_of m group_size).
  rewrite !load_update_members.
  destruct (load_is_Some (pd.pos (pdata m)) idx ltac:(lia)) as [x0 ->].
  destruct (load_is_Some (pd.vel (pdata m)) idx ltac:(lia)) as [x1 ->].
  destruct (load_is_Some (pd.accel (pdata m)) idx ltac:(lia)) as [x2 ->].
  rewrite Hidx.
  rewrite tex1Dfetch_update_members, Hidx by lia.
  repeat split.
Qed.

Lemma step_one_then_step_two_witness :
  let m := mem dev_ex in
  let d1 := snd (gpu_npt_step_one rt_max_threads true 1 2 1 1 1 1 dev_ex) in
  let d2 := snd (gpu_npt_step_two rt_max_threads true 1 2 1 1 1 1 d1) in
  let v := tex1Dfetch float4.zero (pd.vel (pdata m)) 1 in
  let a := tex1Dfetch float4.zero (pd.accel (pdata m)) 1 in
  let r := tex1Dfetch float4.zero (pd.pos (pdata m)) 1 in
  let a' := force_over_mass (tex1Dfetch float4.zero (d_net_force m) 1)
              (tex1Dfetch 0%R (pd.mass (pdata m)) 1) in
  let v1 := half_kick4 (velScale 1 1 1) 1 v a in
  load (pd.pos (pdata (mem d2))) 1 = Some (drift4 (posScale 1 1) 1 r v1)
  /\ load (pd.vel (pdata (mem d2))) 1 = Some (half_kick4 (velScale 1 1 1) 1 v1 a')
  /\ load (pd.accel (pdata (mem d2))) 1 = Some a'.
Proof.
  apply (step_one_then_step_two rt_max_threads true true dev_ex 1 2 1 1 1 1 1
           pdata_ex_wf mem_ex_group_wf).
  - reflexivity.
  - unfold grid_covers. lia.
  - apply accepted_rt_max_threads. cbn. lia.
  - apply accepted_rt_max_threads. cbn. lia.
  - reflexivity.
Defined.

(** ** A grid smaller than the group *)

Lemma cudaLaunch_ext (rt : cuda_runtime) (k : kernel_name) (grid threads : Z)
    (body1 body2 : textures -> device_memory -> option device_memory) (d : device) :
  body1 (views d) (mem d) = body2 (views d) (mem d) ->
  cudaLaunch rt k grid threads body1 d = cudaLaunch rt k grid threads body2 d.
Proof.
  intros H. unfold cudaLaunch. cbv zeta.
  change (views (log (EvLaunch k grid threads) d)) with (views d).
  change (mem (log (EvLaunch k grid threads) d)) with (mem d).
  rewrite H. reflexivity.
Qed.

(** Two drivers with the same bindings and launch configuration whose
    kernels do the same on the device are the same call. *)
Lemma run_driver_ext (rt : cuda_runtime) (chk : bool) (dr dr' : driver) (d : device) :
  (forall t, In t (driver_textures dr) -> bind_result rt t = cudaSuccess) ->
  driver_textures dr' = driver_textures dr ->
  driver_kernel dr' = driver_kernel dr ->
  driver_grid dr' d = driver_grid dr d ->
  driver_threads dr' = driver_threads dr ->
  (forall tex m, driver_body rt dr d tex m = driver_body rt dr' d tex m) ->
  run_driver rt chk dr d = run_driver rt chk dr' d.
Proof.
  intros Hok Ht Hk Hg Hth Hbody.
  rewrite !run_driver_shape. unfold launch_driver.
  rewrite Ht, Hk, Hg, Hth. rewrite !bind_textures_ok by exact Hok.
  unfold bind. rewrite (cudaLaunch_ext rt _ _ _ (driver_body rt dr d) (driver_body rt dr' d))
    by apply Hbody.
  reflexivity.
Qed.

Lemma group_wf_prefix (m : device_memory) (group_size n : Z) :
  group_wf m group_size -> 0 <= n <= group_size -> group_wf m n.
Proof.
  intros (Hgs & Hmem & Hnd) Hn.
  assert (Ht : take (Z.to_nat n) (d_group_members m)
               = take (Z.to_nat n) (take (Z.to_nat group_size) (d_group_members m))).
  { rewrite take_take. f_equal. lia. }
  unfold group_wf. rewrite Ht. split; [lia|]. split.
  - apply Forall_take. exact Hmem.
  - apply (sublist_NoDup _ _ Hnd). apply sublist_take.
Qed.

(** X18.  The drivers do not check that the grid covers the group.  With a
    grid of fewer workers than group members, [gpu_npt_step_one] and
    [gpu_npt_step_two] are the same calls as on the group cut down to its
    first [num_blocks * block_size] members: the members after them are
    left as they were, and the call reports nothing. *)
Theorem undersized_grid (rt : cuda_runtime) (chk : bool) (d : device)
    (group_size block_size num_blocks : Z) (Xi Eta deltaT : R) :
  let m := mem d in
  let n := num_blocks * block_size in
  pdata_wf (pdata m) ->
  group_wf m group_size ->
  length (d_net_force m) = Z.to_nat (pd.N (pdata m)) ->
  0 < block_size -> 0 <= num_blocks ->
  n <= group_size -> n <= 2 ^ 31 ->
  accepted rt (StepOne group_size block_size num_blocks Xi Eta deltaT) d ->
  accepted rt (StepTwo group_size block_size num_blocks Xi Eta deltaT) d ->
  let r1 := gpu_npt_step_one rt chk group_size block_size num_blocks Xi Eta deltaT d in
  let r2 := gpu_npt_step_two rt chk group_size block_size num_blocks Xi Eta deltaT d in
  r1 = gpu_npt_step_one rt chk n block_size num_blocks Xi Eta deltaT d
  /\ r2 = gpu_npt_step_two rt chk n block_size num_blocks Xi Eta deltaT d
  /\ forall idx, member idx (group_of m n) = false ->
       load (pd.pos (pdata (mem (snd r1)))) idx = load (pd.pos (pdata m)) idx
       /\ load (pd.vel (pdata (mem (snd r1)))) idx = load (pd.vel (pdata m)) idx
       /\ load (pd.vel (pdata (mem (snd r2)))) idx = load (pd.vel (pdata m)) idx
       /\ load (pd.accel (pdata (mem (snd r2)))) idx = load (pd.accel (pdata m)) idx.
Proof.
  intros m n Hwf Hgwf Lforce HB Hnb Hn Hmax Ha Ht r1 r2.
  assert (Hcond : forall w, In w (workers num_blocks block_size) ->
            global_index (fst w) block_size (snd w) = fst w * block_size + snd w
            /\ (uint (fst w * block_size + snd w) <? group_size) = true
            /\ (uint (fst w * block_size + snd w) <? n) = true).
  { intros w Hin.
    destruct (worker_index_bounds _ _ _ HB Hmax Hin) as (Hr & Hg & Hu).
    rewrite Hu. split; [exact Hg|]. fold n in Hr.
    split; apply Z.ltb_lt; lia. }
  assert (E1 : r1 = gpu_npt_step_one rt chk n block_size num_blocks Xi Eta deltaT d).
  { unfold r1.
    apply (run_driver_ext rt chk
             (StepOne group_size block_size num_blocks Xi Eta deltaT)
             (StepOne n block_size num_blocks Xi Eta deltaT) d); try reflexivity.
    - apply Ha.
    - intros tex m0. cbn [driver_body]. unfold on_pdata, run_grid.
      rewrite (run_workers_ext _
                 (fun w => gpu_npt_step_one_kernel tex (d_group_members m0) n
                             (exp (-1 / 4 * (Eta + Xi) * deltaT))
                             (exp (1 / 2 * Eta * deltaT)) deltaT
                             (fst w) block_size (snd w))); [reflexivity|].
      intros w s Hin. destruct (Hcond w Hin) as (Hg & H1 & H2).
      unfold gpu_npt_step_one_kernel. cbv zeta. rewrite Hg, H1, H2. reflexivity. }
  assert (E2 : r2 = gpu_npt_step_two rt chk n block_size num_blocks Xi Eta deltaT d).
  { unfold r2.
    apply (run_driver_ext rt chk
             (StepTwo group_size block_size num_blocks Xi Eta deltaT)
             (StepTwo n block_size num_blocks Xi Eta deltaT) d); try reflexivity.
    - apply Ht.
    - intros tex m0. cbn [driver_body]. unfold on_pdata, run_grid.
      rewrite (run_workers_ext _
                 (fun w => gpu_npt_step_two_kernel tex (d_group_members m0) n
                             (exp (-1 / 4 * (Eta + Xi) * deltaT)) deltaT
                             (fst w) block_size (snd w))); [reflexivity|].
      intros w s Hin. destruct (Hcond w Hin) as (Hg & H1 & H2).
      unfold gpu_npt_step_two_kernel. cbv zeta. rewrite Hg, H1, H2. reflexivity. }
  split; [exact E1|]. split; [exact E2|].
  intros idx Hidx. rewrite E1, E2.
  assert (Hgn : group_wf m n) by (apply (group_wf_prefix m group_size); [exact Hgwf | nia]).
  assert (Hcov : grid_covers n num_blocks block_size) by (unfold grid_covers, n; lia).
  destruct (accepted_step_one _ _ _ _ _ _ _ _ Ha) as (A1 & A2 & A3 & Al).
  destruct (accepted_step_two _ _ _ _ _ _ _ _ Ht) as (T1 & T2 & T3 & Tl).
  rewrite gpu_npt_step_one_result, gpu_npt_step_two_result by assumption.
  unfold step_one_result, step_two_result.
  cbn [pdata set_pdata pd.pos pd.vel pd.accel pd.set_pos pd.set_vel pd.set_accel].
  fold m. rewrite !load_update_members, Hidx.
  destruct (load (pd.pos (pdata m)) idx), (load (pd.vel (pdata m)) idx),
    (load (pd.accel (pdata m)) idx); repeat split.
Qed.

Lemma dev_pair_group_wf : group_wf (mem dev_pair) 2.
Proof.
  unfold group_wf. cbn. split; [lia|]. split.
  - repeat constructor; lia.
  - apply NoDup_cons. split; [|apply NoDup_singleton].
    intros H. apply list_elem_of_In in H. destruct H as [H|[]]. discriminate.
Qed.

Lemma undersized_grid_witness :
  let m := mem dev_pair in
  let r1 := gpu_npt_step_one rt_max_threads true 2 1 1 1 1 1 dev_pair in
  let r2 := gpu_npt_step_two rt_max_threads true 2 1 1 1 1 1 dev_pair in
  r1 = gpu_npt_step_one rt_max_threads true (1 * 1) 1 1 1 1 1 dev_pair
  /\ r2 = gpu_npt_step_two rt_max_threads true (1 * 1) 1 1 1 1 1 dev_pair
  /\ forall idx, member idx (group_of m (1 * 1)) = false ->
       load (pd.pos (pdata (mem (snd r1)))) idx = load (pd.pos (pdata m)) idx
       /\ load (pd.vel (pdata (mem (snd r1)))) idx = load (pd.vel (pdata m)) idx
       /\ load (pd.vel (pdata (mem (snd r2)))) idx = load (pd.vel (pdata m)) idx
       /\ load (pd.accel (pdata (mem (snd r2)))) idx = load (pd.accel (pdata m)) idx.
Proof.
  apply (undersized_grid rt_max_threads true dev_pair 2 1 1 1 1 1
           pdata_ex_wf dev_pair_group_wf).
  - reflexivity.
  - lia.
  - lia.
  - lia.
  - lia.
  - apply accepted_rt_max_threads. cbn. lia.
  - apply accepted_rt_max_threads. cbn. lia.
Defined.
